(** * tiktok-to-trip: the extraction / synthesis / enrichment pipeline

    A shallow embedding of the Python backend ([backend/main.py],
    [backend/content_extractor.py], [backend/ai_pipeline.py],
    [backend/places_enrichment.py]) together with the properties stated
    for it.

    Conventions.
    - A Python [str] is a list of characters, [str := list ascii]; a
      character is read as the code point of the same number (0..255).
      On that range [str.isspace], [str.isdigit], [str.lower] and the
      regular-expression class [\d] are written out exactly.
    - Values decoded from JSON are the inductive type [json]; a Python
      [dict] is an association list in insertion order with unique keys.
    - Code that talks to the outside world (the completion service, the
      places directory, the metadata extractor) runs in the monad [M]: a
      state-and-exception monad over an external world [W] and the trace
      of the external calls made so far. *)

From Stdlib Require Import List Ascii String ZArith Bool Lia Arith.
From Stdlib Require Import Numbers.DecimalString.
Import ListNotations.

Set Implicit Arguments.
Unset Strict Implicit.
Set Warnings "-register-all".

(* ===================================================================== *)
(** * Python strings *)
(* ===================================================================== *)

Module PyStr.

Definition str := list ascii.

(** String literals are written as Stdlib strings and read as [str]. *)
Coercion list_ascii_of_string : string >-> list.

Definition ord (c : ascii) : nat := nat_of_ascii c.

Definition chr_eqb (a b : ascii) : bool := Ascii.eqb a b.

(** [str.isspace] on one character: U+0009..U+000D, U+001C..U+0020,
    U+0085 and U+00A0 are the white-space code points below 256. *)
Definition isspace (c : ascii) : bool :=
  let n := ord c in
  ((9 <=? n) && (n <=? 13)) || ((28 <=? n) && (n <=? 32))
  || (n =? 133) || (n =? 160).

(** The class [\d] of the [re] module on [str] patterns: decimal digits.
    Below 256 these are '0'..'9'. *)
Definition is_decimal (c : ascii) : bool :=
  let n := ord c in (48 <=? n) && (n <=? 57).

(** [str.isdigit] on one character: decimal digits and the superscript
    digits U+00B2, U+00B3, U+00B9. *)
Definition isdigit_char (c : ascii) : bool :=
  let n := ord c in
  is_decimal c || (n =? 178) || (n =? 179) || (n =? 185).

(** [str.lower] on one character: 'A'..'Z' and U+00C0..U+00DE except the
    multiplication sign U+00D7 move up by 32. *)
Definition lower_char (c : ascii) : ascii :=
  let n := ord c in
  if ((65 <=? n) && (n <=? 90))
     || ((192 <=? n) && (n <=? 222) && negb (n =? 215))
  then ascii_of_nat (n + 32) else c.

Definition lower (s : str) : str := map lower_char s.

(** [s.startswith(p)] *)
Fixpoint startswith (p s : str) : bool :=
  match p, s with
  | [], _ => true
  | _ :: _, [] => false
  | a :: p', b :: s' => chr_eqb a b && startswith p' s'
  end.

(** [p in s] *)
Fixpoint contains (p s : str) : bool :=
  startswith p s ||
  match s with
  | [] => false
  | _ :: s' => contains p s'
  end.

(** [s.split(sep)] for a one-character separator. *)
Fixpoint split (sep : ascii) (s : str) : list str :=
  match s with
  | [] => [[]]
  | c :: s' =>
      if chr_eqb c sep then [] :: split sep s'
      else match split sep s' with
           | l :: ls => (c :: l) :: ls
           | [] => [[c]]
           end
  end.

Fixpoint lstrip (s : str) : str :=
  match s with
  | [] => []
  | c :: s' => if isspace c then lstrip s' else s
  end.

Definition rstrip (s : str) : str := rev (lstrip (rev s)).

(** [s.strip()] *)
Definition strip (s : str) : str := rstrip (lstrip s).

(** [s.isdigit()] *)
Definition isdigit (s : str) : bool :=
  match s with
  | [] => false
  | _ => forallb isdigit_char s
  end.

(** [sep.join(ls)] *)
Fixpoint join (sep : str) (ls : list str) : str :=
  match ls with
  | [] => []
  | [l] => l
  | l :: ls' => l ++ sep ++ join sep ls'
  end.

(** Truth value of a string: [if line:] *)
Definition nonempty (s : str) : bool :=
  match s with [] => false | _ => true end.

Definition str_eqb (a b : str) : bool :=
  if list_eq_dec ascii_dec a b then true else false.

(** Decimal rendering of an integer, as [str(n)] gives it. *)
Definition str_of_Z (n : Z) : str :=
  list_ascii_of_string (NilZero.string_of_int (Z.to_int n)).

End PyStr.
Export PyStr.

(* ===================================================================== *)
(** * The regular expressions the sources use *)
(* ===================================================================== *)

Module Re.

(** [re.match(r'^\d{2}:\d{2}', line)]: the line begins with two decimal
    digits, a colon and two decimal digits. *)
Definition match_timestamp (line : str) : bool :=
  match line with
  | a :: b :: c :: d :: e :: _ =>
      is_decimal a && is_decimal b && chr_eqb c ":"%char
      && is_decimal d && is_decimal e
  | _ => false
  end.

Definition is_gt (c : ascii) : bool := chr_eqb c ">"%char.
Definition is_lt (c : ascii) : bool := chr_eqb c "<"%char.

(** A match of [<[^>]+>] starts at a '<' that is followed by a character
    other than '>' and, later on, by a '>'; it ends at the first such
    '>'.  [tag_opens s'] decides this for the text [s'] after the '<'. *)
Definition tag_opens (s' : str) : bool :=
  match s' with
  | [] => false
  | c :: _ => negb (is_gt c) && existsb is_gt s'
  end.

(** [re.sub(r'<[^>]+>', '', line)]: a left-to-right scan; [inside] holds
    while the scan is within a match, which it leaves after the first
    '>'. *)
Fixpoint sub_tags_aux (inside : bool) (s : str) : str :=
  match s with
  | [] => []
  | c :: s' =>
      if inside then
        if is_gt c then sub_tags_aux false s' else sub_tags_aux true s'
      else if is_lt c && tag_opens s' then sub_tags_aux true s'
      else c :: sub_tags_aux false s'
  end.

Definition sub_tags (line : str) : str := sub_tags_aux false line.

(** [re.sub(p, r, line)] for a literal, non-empty pattern [p]: leftmost
    non-overlapping occurrences are replaced; [skip] counts the characters
    of the current occurrence still to be dropped. *)
Fixpoint sub_literal_aux (p r : str) (skip : nat) (s : str) : str :=
  match s with
  | [] => []
  | c :: s' =>
      match skip with
      | S k => sub_literal_aux p r k s'
      | O =>
          if startswith p s
          then r ++ sub_literal_aux p r (List.length p - 1) s'
          else c :: sub_literal_aux p r 0 s'
      end
  end.

Definition nbsp : str := "&nbsp;"%string.

(** [re.sub(r'&nbsp;', ' ', line)] *)
Definition sub_nbsp (line : str) : str :=
  sub_literal_aux nbsp " "%string 0 line.

Definition is_lbrace (c : ascii) : bool := chr_eqb c "{"%char.
Definition is_rbrace (c : ascii) : bool := chr_eqb c "}"%char.

(** The text from the start of [s] up to and including its last '}'. *)
Fixpoint upto_last_rbrace (s : str) : option str :=
  match s with
  | [] => None
  | c :: s' =>
      match upto_last_rbrace s' with
      | Some t => Some (c :: t)
      | None => if is_rbrace c then Some [c] else None
      end
  end.

(** [re.search(r'\{[\s\S]*\}', raw)] followed by [.group()]: the leftmost
    '{' that has a '}' after it, and, the star being greedy, everything
    up to the last '}' of the text. *)
Fixpoint search_braces (raw : str) : option str :=
  match raw with
  | [] => None
  | c :: s' =>
      if is_lbrace c then
        match upto_last_rbrace s' with
        | Some t => Some (c :: t)
        | None => None
        end
      else search_braces s'
  end.

End Re.

(* ===================================================================== *)
(** * content_extractor.py: subtitle cleaning *)
(* ===================================================================== *)

(** The body of the loop of [clean_subtitles] for one line: [None] when a
    [continue] is taken or the rewritten line is empty, [Some l] when [l]
    is appended to [text_lines]. *)
Definition clean_line (line0 : str) : option str :=
  let line := strip line0 in
  if negb (nonempty line) then None
  else if contains "-->"%string line then None
  else if startswith "WEBVTT"%string line then None
  else if isdigit line then None
  else if Re.match_timestamp line then None
  else
    let line := Re.sub_tags line in
    let line := Re.sub_nbsp line in
    if nonempty line then Some line else None.

(** The loop [for line in lines], returning [text_lines]. *)
Fixpoint text_lines_of (lines : list str) : list str :=
  match lines with
  | [] => []
  | line :: rest =>
      match clean_line line with
      | Some l => l :: text_lines_of rest
      | None => text_lines_of rest
      end
  end.

Definition newline : ascii := ascii_of_nat 10.

(** [clean_subtitles(content, format)]; the source does not consult
    [format]. *)
Definition clean_subtitles (content : str) (format : str) : str :=
  join " "%string (text_lines_of (split newline content)).

(* ===================================================================== *)
(** * Python values decoded from JSON, and exceptions *)
(* ===================================================================== *)

(** A value as [json.loads] and [response.json()] build it.  A float is
    kept as the literal it was read from: floating-point arithmetic is
    not part of the model. *)
Inductive json : Type :=
| JNull
| JBool (b : bool)
| JInt (n : Z)
| JFloat (lit : str)
| JStr (s : str)
| JList (l : list json)
| JDict (d : list (str * json)).

Definition dict := list (str * json).

(** The exception classes the sources raise, catch or let through.
    An f-string that renders an exception [e] after a fixed text is kept
    as the text and the exception. *)
Inductive exn : Type :=
| HTTPException (status_code : Z) (detail : str) (cause : option exn)
| ValueError (msg : str) (cause : option exn)
| JSONDecodeError
| TypeError
| AttributeError
| KeyError
| IndexError
| UnboundLocalError
| ExternalError (msg : str).

(** [isinstance(e, ValueError)]: [json.JSONDecodeError] is a subclass of
    [ValueError]. *)
Definition is_ValueError (e : exn) : bool :=
  match e with
  | ValueError _ _ | JSONDecodeError => true
  | _ => false
  end.

Definition is_HTTPException (e : exn) : bool :=
  match e with
  | HTTPException _ _ _ => true
  | _ => false
  end.

Definition is_JSONDecodeError (e : exn) : bool :=
  match e with
  | JSONDecodeError => true
  | _ => false
  end.

(** Fallible pure code: [inl e] is a raised exception. *)
Definition res (A : Type) : Type := (exn + A)%type.

Definition ok {A} (a : A) : res A := inr a.
Definition err {A} (e : exn) : res A := inl e.

Definition rbind {A B} (c : res A) (k : A -> res B) : res B :=
  match c with
  | inl e => inl e
  | inr a => k a
  end.

Declare Scope res_scope.
Delimit Scope res_scope with res.
Notation "x <- c ;; k" := (rbind c (fun x => k))
  (at level 61, c at next level, right associativity) : res_scope.

Module Dict.

Fixpoint get (k : str) (d : dict) : option json :=
  match d with
  | [] => None
  | (k', v) :: d' => if str_eqb k k' then Some v else get k d'
  end.

Definition has (k : str) (d : dict) : bool :=
  match get k d with Some _ => true | None => false end.

(** [d[k] = v]: an existing key keeps its place, a new key goes last. *)
Fixpoint set (k : str) (v : json) (d : dict) : dict :=
  match d with
  | [] => [(k, v)]
  | (k', v') :: d' =>
      if str_eqb k k' then (k', v) :: d' else (k', v') :: set k v d'
  end.

Definition keys (d : dict) : list str := map fst d.

End Dict.

Section PyValues.

(** [bool(x)] of a float given by its literal. *)
Variable float_truthy : str -> bool.

(** [bool(x)], as [if x:] and [not x] take it. *)
Definition py_truthy (v : json) : bool :=
  match v with
  | JNull => false
  | JBool b => b
  | JInt n => negb (n =? 0)%Z
  | JFloat lit => float_truthy lit
  | JStr s => nonempty s
  | JList l => match l with [] => false | _ => true end
  | JDict d => match d with [] => false | _ => true end
  end.

(** [o.get(k, default)]: only a dict has the method. *)
Definition py_get (o : json) (k : str) (default : json) : res json :=
  match o with
  | JDict d => ok (match Dict.get k d with Some v => v | None => default end)
  | _ => err AttributeError
  end.

(** [o[k]] for a string key. *)
Definition py_getitem (o : json) (k : str) : res json :=
  match o with
  | JDict d => match Dict.get k d with Some v => ok v | None => err KeyError end
  | _ => err TypeError
  end.

(** [o[0]] *)
Definition py_index0 (o : json) : res json :=
  match o with
  | JList (x :: _) => ok x
  | JList [] => err IndexError
  | JStr (c :: _) => ok (JStr [c])
  | JStr [] => err IndexError
  | JDict _ => err KeyError
  | _ => err TypeError
  end.

(** [o[k] = v] *)
Definition py_setitem (o : json) (k : str) (v : json) : res json :=
  match o with
  | JDict d => ok (JDict (Dict.set k v d))
  | _ => err TypeError
  end.

(** [k in o] for a string key [k] and a dict [o]. *)
Definition py_has_key (o : json) (k : str) : bool :=
  match o with
  | JDict d => Dict.has k d
  | _ => false
  end.

(** [len(o)] *)
Definition py_len (o : json) : res Z :=
  match o with
  | JList l => ok (Z.of_nat (List.length l))
  | JDict d => ok (Z.of_nat (List.length d))
  | JStr s => ok (Z.of_nat (List.length s))
  | _ => err TypeError
  end.

(** The items a [for] loop over [o] visits. *)
Definition py_iter (o : json) : res (list json) :=
  match o with
  | JList l => ok l
  | JDict d => ok (map JStr (Dict.keys d))
  | JStr s => ok (map (fun c => JStr [c]) s)
  | _ => err TypeError
  end.

(** [v == s] for a string literal [s]. *)
Definition py_eq_str (v : json) (s : str) : bool :=
  match v with
  | JStr t => str_eqb t s
  | _ => false
  end.

End PyValues.

(* ===================================================================== *)
(** * A decoder for JSON text *)
(* ===================================================================== *)

(** The pipeline is written against an arbitrary decoder
    [json_loads : str -> option json] ([None] stands for
    [json.JSONDecodeError]).  [JsonDecoder.loads] is one such decoder,
    following the grammar of the [json] module: it is used to run the
    pipeline on concrete responses.  An escape [\uXXXX] above U+00FF
    leaves the alphabet of [str] and is refused. *)
Module JsonDecoder.

Definition is_ws (c : ascii) : bool :=
  let n := ord c in (n =? 32) || (n =? 9) || (n =? 10) || (n =? 13).

Fixpoint skip_ws (s : str) : str :=
  match s with
  | c :: s' => if is_ws c then skip_ws s' else s
  | [] => []
  end.

Definition hex_val (c : ascii) : option nat :=
  let n := ord c in
  if (48 <=? n) && (n <=? 57) then Some (n - 48)
  else if (97 <=? n) && (n <=? 102) then Some (n - 87)
  else if (65 <=? n) && (n <=? 70) then Some (n - 55)
  else None.

Definition hex4 (a b c d : ascii) : option nat :=
  match hex_val a, hex_val b, hex_val c, hex_val d with
  | Some x, Some y, Some z, Some w => Some (((x * 16 + y) * 16 + z) * 16 + w)
  | _, _, _, _ => None
  end.

Definition escape_char (c : ascii) : option ascii :=
  let n := ord c in
  if n =? 34 then Some c                       (* quote *)
  else if n =? 92 then Some c                  (* backslash *)
  else if n =? 47 then Some c                  (* slash *)
  else if n =? 98 then Some (ascii_of_nat 8)   (* backspace *)
  else if n =? 102 then Some (ascii_of_nat 12) (* form feed *)
  else if n =? 110 then Some (ascii_of_nat 10) (* line feed *)
  else if n =? 114 then Some (ascii_of_nat 13) (* carriage return *)
  else if n =? 116 then Some (ascii_of_nat 9)  (* tab *)
  else None.

(** The body of a string literal, after the opening quote; control
    characters are refused, as the strict decoder does. *)
Fixpoint scanstring (s : str) : option (str * str) :=
  match s with
  | [] => None
  | c :: s' =>
      let n := ord c in
      if n =? 34 then Some ([], s')
      else if n <? 32 then None
      else if n =? 92 then
        match s' with
        | e :: s'' =>
            if ord e =? 117 then
              match s'' with
              | a :: b :: x :: d :: s3 =>
                  match hex4 a b x d with
                  | Some u =>
                      if u <? 256 then
                        match scanstring s3 with
                        | Some (t, r) => Some (ascii_of_nat u :: t, r)
                        | None => None
                        end
                      else None
                  | None => None
                  end
              | _ => None
              end
            else
              match escape_char e with
              | Some x =>
                  match scanstring s'' with
                  | Some (t, r) => Some (x :: t, r)
                  | None => None
                  end
              | None => None
              end
        | [] => None
        end
      else
        match scanstring s' with
        | Some (t, r) => Some (c :: t, r)
        | None => None
        end
  end.

Fixpoint span_digits (s : str) : str * str :=
  match s with
  | c :: s' =>
      if is_decimal c then let (d, r) := span_digits s' in (c :: d, r)
      else ([], s)
  | [] => ([], [])
  end.

Fixpoint Z_of_digits (acc : Z) (ds : str) : Z :=
  match ds with
  | [] => acc
  | c :: ds' => Z_of_digits (acc * 10 + Z.of_nat (ord c - 48))%Z ds'
  end.

(** The integer part, an optional sign aside: a single 0, or a non-zero
    digit followed by digits.  Returns its digits and the rest. *)
Definition scan_int (s : str) : option (str * str) :=
  match s with
  | c :: s' =>
      if ord c =? 48 then Some ([c], s')
      else if is_decimal c then
        let (d, r) := span_digits s' in Some (c :: d, r)
      else None
  | [] => None
  end.

(** The optional fraction [\.[0-9]+]. *)
Definition scan_frac (s : str) : str * str :=
  match s with
  | c :: s' =>
      if ord c =? 46 then
        match span_digits s' with
        | ([], _) => ([], s)
        | (d, r) => (c :: d, r)
        end
      else ([], s)
  | [] => ([], [])
  end.

(** The optional exponent [[eE][-+]?[0-9]+]. *)
Definition scan_exp (s : str) : str * str :=
  match s with
  | c :: s' =>
      if (ord c =? 101) || (ord c =? 69) then
        let (sign, s'') :=
          match s' with
          | g :: t => if (ord g =? 45) || (ord g =? 43) then ([g], t) else ([], s')
          | [] => ([], s')
          end in
        match span_digits s'' with
        | ([], _) => ([], s)
        | (d, r) => (c :: sign ++ d, r)
        end
      else ([], s)
  | [] => ([], [])
  end.

Definition scan_number (s : str) : option (json * str) :=
  let (neg, s1) :=
    match s with
    | c :: t => if ord c =? 45 then (true, t) else (false, s)
    | [] => (false, s)
    end in
  match scan_int s1 with
  | Some (ds, r1) =>
      let (fr, r2) := scan_frac r1 in
      let (ex, r3) := scan_exp r2 in
      match fr, ex with
      | [], [] =>
          let n := Z_of_digits 0 ds in
          Some (JInt (if neg then (- n)%Z else n), r3)
      | _, _ =>
          Some (JFloat ((if neg then ["-"%char] else []) ++ ds ++ fr ++ ex), r3)
      end
  | None => None
  end.

Definition literal (p : string) (v : json) (s : str) : option (json * str) :=
  if startswith p s then Some (v, skipn (List.length (list_ascii_of_string p)) s)
  else None.

Definition first_of {A} (a b : option A) : option A :=
  match a with Some _ => a | None => b end.

(** A value at the head of [s]; [parse_elems] and [parse_members] read the
    rest of an array and of an object once positioned at an element and
    at the opening quote of a key. *)
Fixpoint parse_value (fuel : nat) (s : str) : option (json * str) :=
  match fuel with
  | O => None
  | S f =>
      match s with
      | [] => None
      | c :: s' =>
          let n := ord c in
          if n =? 34 then
            match scanstring s' with
            | Some (t, r) => Some (JStr t, r)
            | None => None
            end
          else if n =? 123 then
            match skip_ws s' with
            | q :: r =>
                if ord q =? 125 then Some (JDict [], r)
                else if ord q =? 34 then parse_members f r []
                else None
            | [] => None
            end
          else if n =? 91 then
            match skip_ws s' with
            | q :: r =>
                if ord q =? 93 then Some (JList [], r)
                else parse_elems f (q :: r) []
            | [] => None
            end
          else
            first_of (literal "null" JNull s)
            (first_of (literal "true" (JBool true) s)
            (first_of (literal "false" (JBool false) s)
            (first_of (scan_number s)
            (first_of (literal "NaN" (JFloat "NaN"%string) s)
            (first_of (literal "Infinity" (JFloat "Infinity"%string) s)
                      (literal "-Infinity" (JFloat "-Infinity"%string) s))))))
      end
  end
with parse_elems (fuel : nat) (s : str) (acc : list json)
  : option (json * str) :=
  match fuel with
  | O => None
  | S f =>
      match parse_value f s with
      | Some (v, r) =>
          match skip_ws r with
          | q :: r' =>
              if ord q =? 93 then Some (JList (rev (v :: acc)), r')
              else if ord q =? 44 then parse_elems f (skip_ws r') (v :: acc)
              else None
          | [] => None
          end
      | None => None
      end
  end
with parse_members (fuel : nat) (s : str) (acc : dict)
  : option (json * str) :=
  match fuel with
  | O => None
  | S f =>
      match scanstring s with
      | Some (k, r) =>
          match skip_ws r with
          | q :: r1 =>
              if ord q =? 58 then
                match parse_value f (skip_ws r1) with
                | Some (v, r2) =>
                    let acc' := Dict.set k v acc in
                    match skip_ws r2 with
                    | x :: r3 =>
                        if ord x =? 125 then Some (JDict acc', r3)
                        else if ord x =? 44 then
                          match skip_ws r3 with
                          | y :: r4 =>
                              if ord y =? 34 then parse_members f r4 acc'
                              else None
                          | [] => None
                          end
                        else None
                    | [] => None
                    end
                | None => None
                end
              else None
          | [] => None
          end
      | None => None
      end
  end.

(** [json.loads(s)]: one value between optional white space, and nothing
    after it. *)
Definition loads (s : str) : option json :=
  match parse_value (2 * List.length s + 2) (skip_ws s) with
  | Some (v, r) => match skip_ws r with [] => Some v | _ => None end
  | None => None
  end.

End JsonDecoder.

(* ===================================================================== *)
(** * External calls, and the monad of the pipeline *)
(* ===================================================================== *)

(** The values [EXTRACTION_PROMPT.format] is given.  The fixed text of the
    template is not reproduced: the completion service sees the fields. *)
Record prompt : Type := mkPrompt {
  p_platform : str;
  p_creator : str;
  p_title : str;
  p_description : str;
  p_transcript_section : str;
  p_duration : str;
  p_preferences : str
}.

(** One entry per request sent to an external service. *)
Inductive event : Type :=
| EvChatCompletion (p : prompt)
| EvTextSearch (query : str) (type : option str)
| EvPlaceDetails (place_id : json).

Section Effects.

Variable W : Type.

(** The state of a run: the external world and the calls made so far. *)
Record state : Type := mkState { world : W; trace : list event }.

Definition M (A : Type) : Type := state -> res A * state.

Definition ret {A} (a : A) : M A := fun st => (inr a, st).

Definition raise {A} (e : exn) : M A := fun st => (inl e, st).

Definition bind {A B} (c : M A) (k : A -> M B) : M B :=
  fun st =>
    match c st with
    | (inl e, st') => (inl e, st')
    | (inr a, st') => k a st'
    end.

(** A pure fallible computation inside [M]. *)
Definition lift {A} (r : res A) : M A := fun st => (r, st).

(** [try: c  except Exception as e: ...] with the outcome handed to the
    continuation: [attempt c] itself never raises. *)
Definition attempt {A} (c : M A) : M (res A) :=
  fun st => let (r, st') := c st in (inr r, st').

(** A request to an external service: the answer comes from the world,
    which may change, and the request is appended to the trace. *)
Definition call {R} (ev : event) (oracle : W -> res R * W) : M R :=
  fun st =>
    let (r, w') := oracle (world st) in
    (r, mkState w' (trace st ++ [ev])).

Fixpoint mapM {A B} (f : A -> M B) (l : list A) : M (list B) :=
  match l with
  | [] => ret []
  | x :: l' =>
      bind (f x) (fun y => bind (mapM f l') (fun ys => ret (y :: ys)))
  end.

End Effects.

Arguments ret {W A} a.
Arguments raise {W A} e.
Arguments lift {W A} r.

Declare Scope m_scope.
Delimit Scope m_scope with M.
Notation "x <~ c ;; k" := (bind c (fun x => k))
  (at level 61, c at next level, right associativity) : m_scope.

(* ===================================================================== *)
(** * Concrete worlds and inputs *)
(* ===================================================================== *)

(** Instances of what the pipeline is run against, used to execute it on
    concrete inputs. *)
Module Sample.

(** [str(v)] on the values the samples render: strings, [None], booleans
    and integers.  A float is rendered by its literal and a container by
    an ellipsis. *)
Definition str_of_value (v : json) : str :=
  match v with
  | JNull => list_ascii_of_string "None"
  | JBool true => list_ascii_of_string "True"
  | JBool false => list_ascii_of_string "False"
  | JInt n => str_of_Z n
  | JFloat lit => lit
  | JStr s => s
  | JList _ => list_ascii_of_string "[...]"
  | JDict _ => list_ascii_of_string "{...}"
  end.

(** The only float of the samples is the rating 4.6: it is not zero and
    not an integer. *)
Definition float_truthy (lit : str) : bool := true.
Definition float_int_value (lit : str) : option Z := None.

Definition places_key : option str :=
  Some (list_ascii_of_string "places-test").

(** A content record with creator "@x" and no transcript. *)
Definition content_dict : dict :=
  [ (list_ascii_of_string "platform", JStr "tiktok"%string);
    (list_ascii_of_string "title", JStr "Tokyo eats"%string);
    (list_ascii_of_string "description", JStr "..."%string);
    (list_ascii_of_string "transcript", JNull);
    (list_ascii_of_string "creator", JStr "@x"%string) ].

Definition content_record : json := JDict content_dict.

(** A completion service that answers every prompt with [text]. *)
Definition chat_says (text : str) (p : prompt) (w : unit)
  : res (option str) * unit :=
  (inr (Some text), w).

(** A word between double quotes. *)
Definition quoted (word : string) : str :=
  ascii_of_nat 34 :: list_ascii_of_string word ++ [ascii_of_nat 34].

(** The object with the single member "destination", as JSON text. *)
Definition object_text : str :=
  "{"%string ++ quoted "destination" ++ ": "%string
  ++ quoted "Paris, France" ++ "}"%string.

(** The same object after a sentence of prose: not JSON as a whole. *)
Definition chatty_text : str :=
  "Here is your itinerary: "%string ++ object_text.

Definition source : str := "https://tiktok.com/@x/video/1"%string.

(** A transcript in the WebVTT format. *)
Definition line_feed : str := [ascii_of_nat 10].
Definition webvtt : str :=
  "WEBVTT"%string ++ line_feed ++ line_feed
  ++ "1"%string ++ line_feed
  ++ "00:00:01.000 --> 00:00:04.000"%string ++ line_feed
  ++ "Welcome to Tokyo"%string ++ line_feed ++ line_feed
  ++ "2"%string ++ line_feed
  ++ "00:00:04.000 --> 00:00:08.000"%string ++ line_feed
  ++ "  first stop: Shibuya  "%string ++ line_feed.

(** A places directory over a world that counts the requests served.
    Its first text search fails with a network error; every later one
    finds the place "p1".  The details of "p1" carry an address and a map
    link, and neither a rating nor a price tier. *)
Definition search_answer : json :=
  JDict [ (list_ascii_of_string "status", JStr "OK"%string);
          (list_ascii_of_string "results",
           JList [ JDict [ (list_ascii_of_string "place_id",
                            JStr "p1"%string) ] ]) ].

Definition details_answer : json :=
  JDict [ (list_ascii_of_string "status", JStr "OK"%string);
          (list_ascii_of_string "result",
           JDict [ (list_ascii_of_string "formatted_address",
                    JStr "1-22-7 Jinnan, Shibuya City, Tokyo"%string);
                   (list_ascii_of_string "url",
                    JStr "https://maps.google.com/?cid=1"%string) ]) ].

Definition textsearch (query : str) (type : option str) (w : nat)
  : res json * nat :=
  match w with
  | O => (inl (ExternalError "connection timed out"%string), S w)
  | _ => (inr search_answer, S w)
  end.

Definition details (place_id : json) (w : nat) : res json * nat :=
  (inr details_answer, S w).

Definition location (name : string) (price : string) : json :=
  JDict [ (list_ascii_of_string "name", JStr (list_ascii_of_string name));
          (list_ascii_of_string "type", JStr "restaurant"%string);
          (list_ascii_of_string "address", JStr "Shibuya, Tokyo"%string);
          (list_ascii_of_string "rating", JFloat "4.6"%string);
          (list_ascii_of_string "price_level",
           JStr (list_ascii_of_string price)) ].

Definition day (n : Z) (locations : list json) : json :=
  JDict [ (list_ascii_of_string "day", JInt n);
          (list_ascii_of_string "title", JStr "Day"%string);
          (list_ascii_of_string "locations", JList locations) ].

Definition itinerary : json :=
  JDict [ (list_ascii_of_string "destination", JStr "Tokyo, Japan"%string);
          (list_ascii_of_string "days",
           JList [ day 1 [ location "Ichiran Ramen Shibuya" "$$";
                           location "Kanda Matsuya" "$" ];
                   day 2 [ location "Sushi Dai" "$$$" ] ]) ].

(** An environment in which only the OpenAI key is set. *)
Definition getenv (name : str) : option str :=
  if str_eqb name "OPENAI_API_KEY"%string
  then Some (list_ascii_of_string "sk-test")
  else None.

Definition found_content (url : str) : M unit json := ret content_record.

(** A places directory that is never reached. *)
Definition no_textsearch (query : str) (type : option str) (w : unit)
  : res json * unit :=
  (inl (ExternalError "unreachable"%string), w).
Definition no_details (place_id : json) (w : unit) : res json * unit :=
  (inl (ExternalError "unreachable"%string), w).

End Sample.

(* ===================================================================== *)
(** * Creator names in URLs *)
(* ===================================================================== *)

(** The class [[^/\?]]: every character but the slash and the question
    mark. *)
Definition name_char (c : ascii) : bool :=
  negb (chr_eqb c "/"%char || chr_eqb c "?"%char).

(** The longest prefix of [s] whose characters satisfy [keep]. *)
Fixpoint take_while (keep : ascii -> bool) (s : str) : str :=
  match s with
  | [] => []
  | c :: s' => if keep c then c :: take_while keep s' else []
  end.

(** The group [([^/\?]+)] matched at the start of [s]: greedy, and at
    least one character. *)
Definition name_at (s : str) : option str :=
  match take_while name_char s with
  | [] => None
  | g => Some g
  end.

(** [re.search(lit + r'([^/\?]+)', s)] for a literal text [lit]: group 1
    of the leftmost match, [None] when there is no match. *)
Fixpoint search_name (lit s : str) : option str :=
  match (if startswith lit s then name_at (skipn (List.length lit) s)
         else None) with
  | Some g => Some g
  | None =>
      match s with
      | [] => None
      | _ :: s' => search_name lit s'
      end
  end.

(** The first pattern of the list that matches somewhere in the URL. *)
Fixpoint first_match (patterns : list str) (url : str) : option str :=
  match patterns with
  | [] => None
  | lit :: rest =>
      match search_name lit url with
      | Some g => Some g
      | None => first_match rest url
      end
  end.

(** The literal parts of the patterns of [extract_creator_from_url]. *)
Definition creator_patterns : list str :=
  [ list_ascii_of_string "tiktok.com/@";
    list_ascii_of_string "instagram.com/";
    list_ascii_of_string "youtube.com/@";
    list_ascii_of_string "youtube.com/channel/" ].

(** [extract_creator_from_url(url)] of content_extractor.py. *)
Definition extract_creator_from_url (url : str) : str :=
  match first_match creator_patterns url with
  | Some g => "@"%char :: g
  | None => []
  end.

(** The literal parts of the patterns of [_extract_creator] in
    api/extract.py. *)
Definition api_creator_patterns : list str :=
  [ list_ascii_of_string "tiktok.com/@";
    list_ascii_of_string "instagram.com/";
    list_ascii_of_string "youtube.com/@" ].

(** [handler._extract_creator(url)] of api/extract.py; it returns [None]
    where the other returns the empty string. *)
Definition _extract_creator (url : str) : option str :=
  match first_match api_creator_patterns url with
  | Some g => Some ("@"%char :: g)
  | None => None
  end.

(** A creator as [extract_creator_from_url] finds it in [url]: the text
    after an occurrence of [lit], up to the next slash or question mark
    or to the end. *)
Definition name_after (lit url name : str) : Prop :=
  name <> [] /\
  forallb name_char name = true /\
  exists a b,
    url = a ++ lit ++ name ++ b /\
    match b with
    | [] => True
    | c :: _ => name_char c = false
    end.

(* ===================================================================== *)
(** * Requests outside the trace *)
(* ===================================================================== *)

(** A request whose answer comes from the world, which may change, and
    which is not entered in the trace: the trace follows the requests to
    the completion service and to the places directory that the endpoint
    makes. *)
Definition ask {W R : Type} (oracle : W -> res R * W) : M W R :=
  fun st =>
    let (r, w') := oracle (world st) in
    (r, mkState w' (trace st)).

(* ===================================================================== *)
(** * content_extractor.py: the platform extractors *)
(* ===================================================================== *)

Module ContentExtractor.

Section Extractors.

Local Open Scope m_scope.

Variable W : Type.
Variable float_truthy : str -> bool.

(** [json.loads]; [None] is [json.JSONDecodeError]. *)
Variable json_loads : str -> option json.

(** [subprocess.run(['yt-dlp', '--dump-json', '--no-download', url],
    capture_output=True, text=True, timeout=30)]: the return code and the
    standard output, or an exception such as [TimeoutExpired]. *)
Variable run_ytdlp : str -> W -> res (Z * str) * W.

(** [client.get(url, headers=..., timeout=...)]: the status code and the
    text of the response.  The second argument is the User-Agent header,
    if one is sent. *)
Variable http_get : json -> option str -> W -> res (Z * str) * W.

(** [BeautifulSoup(text, 'html.parser')] on the two questions asked of
    it: [script.string] for each script tag of type application/ld+json,
    in document order; and the first meta tag with a given attribute,
    as [None] when there is none and else as its 'content' attribute, if
    it has one. *)
Variable ld_json_scripts : str -> list (option str).
Variable find_meta : str -> str -> str -> option (option str).

Definition truthy (v : json) : bool := py_truthy float_truthy v.

Definition loads (text : str) : res json :=
  match json_loads text with
  | Some v => ok v
  | None => err JSONDecodeError
  end.

(** The formats [fetch_subtitles] reads. *)
Definition text_formats : list str :=
  [ list_ascii_of_string "vtt"; list_ascii_of_string "srt";
    list_ascii_of_string "txt"; list_ascii_of_string "json3" ].

(** [sub.get('ext') in ['vtt', 'srt', 'txt', 'json3']], with the format
    when the test holds. *)
Definition text_format (ext : json) : option str :=
  match ext with
  | JStr s => if existsb (str_eqb s) text_formats then Some s else None
  | _ => None
  end.

(** The loop of [fetch_subtitles]: the first track in a text format whose
    download is answered with 200 is cleaned and returned. *)
Fixpoint fetch_first (subtitle_info : list json) : M W json :=
  match subtitle_info with
  | [] => ret JNull
  | sub :: rest =>
      ext <~ lift (py_get sub "ext"%string JNull) ;;
      match text_format ext with
      | Some format =>
          url <~ lift (py_getitem sub "url"%string) ;;
          response <~ ask (http_get url None) ;;
          if (fst response =? 200)%Z
          then ret (JStr (clean_subtitles (snd response) format))
          else fetch_first rest
      | None => fetch_first rest
      end
  end.

(** [fetch_subtitles(subtitle_info)] *)
Definition fetch_subtitles (subtitle_info : json) : M W json :=
  r <~ attempt (subs <~ lift (py_iter subtitle_info) ;; fetch_first subs) ;;
  match r with
  | inr v => ret v
  | inl _ => ret JNull
  end.

(** [k in o] for a string [k]: a key of a dict, an item of a list, a
    substring of a string. *)
Definition py_contains (o : json) (k : str) : res bool :=
  match o with
  | JDict d => ok (Dict.has k d)
  | JList l => ok (existsb (fun v => py_eq_str v k) l)
  | JStr s => ok (contains k s)
  | _ => err TypeError
  end.

(** [for lang in langs: if lang in subs: ... subs[lang] ... break]: the
    track list of the first language present. *)
Fixpoint first_language (langs : list str) (subs : json)
  : res (option json) :=
  match langs with
  | [] => ok None
  | lang :: rest =>
      (present <- py_contains subs lang ;;
       if (present : bool)
       then info <- py_getitem subs lang ;; ok (Some info)
       else first_language rest subs)%res
  end.

(** The transcript of the first language present, [None] without one. *)
Definition transcript_of (langs : list str) (subs : json) : M W json :=
  found <~ lift (first_language langs subs) ;;
  match found with
  | Some info => fetch_subtitles info
  | None => ret JNull
  end.

Definition iphone_safari : str :=
  "Mozilla/5.0 (iPhone; CPU iPhone OS 14_6 like Mac OS X) AppleWebKit/605.1.15 (KHTML, like Gecko) Version/14.1.1 Mobile/15E148 Safari/604.1"%string.

Definition iphone_webkit : str :=
  "Mozilla/5.0 (iPhone; CPU iPhone OS 14_6 like Mac OS X) AppleWebKit/605.1.15"%string.

(** [tag.get('content', '')] for the tag [soup.find('meta', attrs)], and
    the empty string when there is no such tag. *)
Definition meta_text (html attribute value : str) : str :=
  match find_meta html attribute value with
  | Some (Some content) => content
  | _ => []
  end.

(** The body of the inner [try] of [extract_tiktok_fallback] for one
    script tag: the record when the tag holds a VideoObject, [None] to
    go on with the next tag. *)
Definition video_object (script : option str) : res (option json) :=
  match script with
  | None => err TypeError
  | Some text =>
      (data <- loads text ;;
       match data with
       | JDict _ =>
         type <- py_get data "@type"%string JNull ;;
         if py_eq_str type "VideoObject"%string then
           name <- py_get data "name"%string (JStr []) ;;
           description <- py_get data "description"%string (JStr []) ;;
           creator <- py_get data "creator"%string (JDict []) ;;
           creator_name <- py_get creator "name"%string (JStr []) ;;
           thumbnail <- py_get data "thumbnailUrl"%string (JStr []) ;;
           ok (Some (JDict
                 [ (list_ascii_of_string "platform", JStr "tiktok"%string);
                   (list_ascii_of_string "title", name);
                   (list_ascii_of_string "description", description);
                   (list_ascii_of_string "transcript", JNull);
                   (list_ascii_of_string "creator", creator_name);
                   (list_ascii_of_string "thumbnail", thumbnail) ]))
         else ok None
       | _ => ok None
       end)%res
  end.

(** The loop over the script tags: a tag that raises is skipped. *)
Fixpoint first_video_object (scripts : list (option str)) : option json :=
  match scripts with
  | [] => None
  | script :: rest =>
      match video_object script with
      | inr (Some record) => Some record
      | _ => first_video_object rest
      end
  end.

(** [extract_tiktok_fallback(url)] *)
Definition extract_tiktok_fallback (url : str) : M W json :=
  r <~ attempt
    (response <~ ask (http_get (JStr url) (Some iphone_safari)) ;;
     if negb (fst response =? 200)%Z then ret JNull
     else
       let html := snd response in
       match first_video_object (ld_json_scripts html) with
       | Some record => ret record
       | None =>
           let description := meta_text html "name"%string "description"%string in
           let title := meta_text html "property"%string "og:title"%string in
           ret (JDict
                  [ (list_ascii_of_string "platform", JStr "tiktok"%string);
                    (list_ascii_of_string "title", JStr title);
                    (list_ascii_of_string "description", JStr description);
                    (list_ascii_of_string "transcript", JNull);
                    (list_ascii_of_string "creator",
                     JStr (extract_creator_from_url url)) ])
       end) ;;
  match r with
  | inr v => ret v
  | inl _ => ret JNull
  end.

Definition tiktok_languages : list str :=
  [ list_ascii_of_string "en"; list_ascii_of_string "en-US";
    list_ascii_of_string "en-GB" ].

(** Lines 51-74 of [extract_tiktok], from the standard output on. *)
Definition tiktok_record (stdout : str) : M W json :=
  data <~ lift (loads stdout) ;;
  subtitles <~ lift (py_get data "subtitles"%string JNull) ;;
  transcript <~
    (if truthy subtitles
     then subs <~ lift (py_getitem data "subtitles"%string) ;;
          transcript_of tiktok_languages subs
     else ret JNull) ;;
  lift (title <- py_get data "title"%string (JStr []) ;;
        description <- py_get data "description"%string (JStr []) ;;
        creator' <- py_get data "creator"%string (JStr []) ;;
        creator <- py_get data "uploader"%string creator' ;;
        creator_id <- py_get data "uploader_id"%string (JStr []) ;;
        duration <- py_get data "duration"%string (JInt 0) ;;
        view_count <- py_get data "view_count"%string (JInt 0) ;;
        like_count <- py_get data "like_count"%string (JInt 0) ;;
        tags <- py_get data "tags"%string (JList []) ;;
        thumbnail <- py_get data "thumbnail"%string (JStr []) ;;
        ok (JDict
              [ (list_ascii_of_string "platform", JStr "tiktok"%string);
                (list_ascii_of_string "title", title);
                (list_ascii_of_string "description", description);
                (list_ascii_of_string "transcript", transcript);
                (list_ascii_of_string "creator", creator);
                (list_ascii_of_string "creator_id", creator_id);
                (list_ascii_of_string "duration", duration);
                (list_ascii_of_string "view_count", view_count);
                (list_ascii_of_string "like_count", like_count);
                (list_ascii_of_string "tags", tags);
                (list_ascii_of_string "thumbnail", thumbnail) ]))%res.

(** [extract_tiktok(url)]: both handlers go to the fallback. *)
Definition extract_tiktok (url : str) : M W json :=
  r <~ attempt
    (result <~ ask (run_ytdlp url) ;;
     if negb (fst result =? 0)%Z then extract_tiktok_fallback url
     else tiktok_record (snd result)) ;;
  match r with
  | inr v => ret v
  | inl _ => extract_tiktok_fallback url
  end.

(** The first [try] of [extract_instagram]: the record, or [None] when
    the return code is not 0 and the function goes on. *)
Definition instagram_record (url : str) : M W (option json) :=
  result <~ ask (run_ytdlp url) ;;
  if (fst result =? 0)%Z then
    lift (data <- loads (snd result) ;;
          title <- py_get data "title"%string (JStr []) ;;
          description <- py_get data "description"%string (JStr []) ;;
          creator <- py_get data "uploader"%string (JStr []) ;;
          creator_id <- py_get data "uploader_id"%string (JStr []) ;;
          ok (Some (JDict
                [ (list_ascii_of_string "platform", JStr "instagram"%string);
                  (list_ascii_of_string "title", title);
                  (list_ascii_of_string "description", description);
                  (list_ascii_of_string "transcript", JNull);
                  (list_ascii_of_string "creator", creator);
                  (list_ascii_of_string "creator_id", creator_id) ])))%res
  else ret None.

(** The second [try] of [extract_instagram]: the page and its meta
    tags. *)
Definition instagram_page (url : str) : M W json :=
  r <~ attempt
    (response <~ ask (http_get (JStr url) (Some iphone_webkit)) ;;
     let html := snd response in
     let description := meta_text html "property"%string "og:description"%string in
     let title := meta_text html "property"%string "og:title"%string in
     ret (JDict
            [ (list_ascii_of_string "platform", JStr "instagram"%string);
              (list_ascii_of_string "title", JStr title);
              (list_ascii_of_string "description", JStr description);
              (list_ascii_of_string "transcript", JNull);
              (list_ascii_of_string "creator",
               JStr (extract_creator_from_url url)) ])) ;;
  match r with
  | inr v => ret v
  | inl _ => ret JNull
  end.

(** [extract_instagram(url)] *)
Definition extract_instagram (url : str) : M W json :=
  r <~ attempt (instagram_record url) ;;
  match r with
  | inr (Some record) => ret record
  | _ => instagram_page url
  end.

Definition youtube_languages : list str :=
  [ list_ascii_of_string "en"; list_ascii_of_string "en-US";
    list_ascii_of_string "en-GB"; list_ascii_of_string "a.en" ].

(** [a or b] *)
Definition py_or (a b : json) : json := if truthy a then a else b.

(** Lines 218-241 of [extract_youtube], from the standard output on. *)
Definition youtube_record (stdout : str) : M W json :=
  data <~ lift (loads stdout) ;;
  subtitles <~ lift (py_get data "subtitles"%string JNull) ;;
  captions <~ lift (py_get data "automatic_captions"%string JNull) ;;
  transcript <~
    (if truthy (py_or subtitles captions)
     then s <~ lift (py_get data "subtitles"%string (JDict [])) ;;
          c <~ lift (py_get data "automatic_captions"%string (JDict [])) ;;
          transcript_of youtube_languages (py_or s c)
     else ret JNull) ;;
  lift (title <- py_get data "title"%string (JStr []) ;;
        description <- py_get data "description"%string (JStr []) ;;
        channel <- py_get data "channel"%string (JStr []) ;;
        creator <- py_get data "uploader"%string channel ;;
        channel_id <- py_get data "channel_id"%string (JStr []) ;;
        creator_id <- py_get data "uploader_id"%string channel_id ;;
        duration <- py_get data "duration"%string (JInt 0) ;;
        view_count <- py_get data "view_count"%string (JInt 0) ;;
        like_count <- py_get data "like_count"%string (JInt 0) ;;
        tags <- py_get data "tags"%string (JList []) ;;
        thumbnail <- py_get data "thumbnail"%string (JStr []) ;;
        ok (JDict
              [ (list_ascii_of_string "platform", JStr "youtube"%string);
                (list_ascii_of_string "title", title);
                (list_ascii_of_string "description", description);
                (list_ascii_of_string "transcript", transcript);
                (list_ascii_of_string "creator", creator);
                (list_ascii_of_string "creator_id", creator_id);
                (list_ascii_of_string "duration", duration);
                (list_ascii_of_string "view_count", view_count);
                (list_ascii_of_string "like_count", like_count);
                (list_ascii_of_string "tags", tags);
                (list_ascii_of_string "thumbnail", thumbnail) ]))%res.

(** [extract_youtube(url)] *)
Definition extract_youtube (url : str) : M W json :=
  r <~ attempt
    (result <~ ask (run_ytdlp url) ;;
     if negb (fst result =? 0)%Z then ret JNull
     else youtube_record (snd result)) ;;
  match r with
  | inr v => ret v
  | inl _ => ret JNull
  end.

(** ** Shapes of content records *)

(** What an extractor hands to the endpoint: [None], or a record of the
    platform with the five entries the prompt is built from. *)
Definition content_record_of (platform : string) (v : json) : Prop :=
  v = JNull \/
  exists d,
    v = JDict d /\
    Dict.get "platform"%string d
    = Some (JStr (list_ascii_of_string platform)) /\
    Dict.has "title"%string d = true /\
    Dict.has "description"%string d = true /\
    Dict.has "transcript"%string d = true /\
    Dict.has "creator"%string d = true.

(** A transcript: [None] or a text on one line. *)
Definition transcript_ok (v : json) : Prop :=
  v = JNull \/ exists text, v = JStr text /\ ~ In newline text.

(** A track the loop of [fetch_subtitles] passes over. *)
Definition not_text_track (sub : json) : Prop :=
  forall ext,
    py_get sub "ext"%string JNull = inr ext -> text_format ext = None.

End Extractors.

End ContentExtractor.

(* ===================================================================== *)
(** * The pipeline *)
(* ===================================================================== *)

Section Pipeline.

Local Open Scope m_scope.

(** ** What the pipeline is run against *)

Variable W : Type.

(** The Python runtime on the points the model leaves open: [str(v)] as
    an f-string renders a value, and the two questions asked of a float. *)
Variable py_str : json -> str.
Variable float_truthy : str -> bool.
Variable float_int_value : str -> option Z.

(** [json.loads]; [None] is [json.JSONDecodeError]. *)
Variable json_loads : str -> option json.

(** [os.getenv] at request time, and the module constant
    [GOOGLE_PLACES_API_KEY] of places_enrichment.py, read at import. *)
Variable getenv : str -> option str.
Variable GOOGLE_PLACES_API_KEY : option str.

(** [client.chat.completions.create(...)] up to
    [response.choices[0].message.content]. *)
Variable chat_completions_create : prompt -> W -> res (option str) * W.

(** [client.get(.../textsearch/json, params)] and [response.json()]. *)
Variable places_textsearch : str -> option str -> W -> res json * W.

(** [client.get(.../details/json, params)] and [response.json()]. *)
Variable places_details : json -> W -> res json * W.

(** The three platform extractors of content_extractor.py.  What they do
    (a subprocess, a page fetch) is left open; each returns a content
    record or [None], here [JNull]. *)
Variable extract_tiktok : str -> M W json.
Variable extract_instagram : str -> M W json.
Variable extract_youtube : str -> M W json.

(** [bool(v)] with the runtime's answer for floats. *)
Definition truthy (v : json) : bool := py_truthy float_truthy v.

(** [if KEY:] for a value of [os.getenv]. *)
Definition env_set (v : option str) : bool :=
  match v with
  | Some s => nonempty s
  | None => false
  end.

(** ** content_extractor.py *)

(** [extract_content_from_url(url)] *)
Definition extract_content_from_url (url : str) : M W json :=
  let url_lower := lower url in
  if contains "tiktok.com"%string url_lower
     || contains "vm.tiktok.com"%string url_lower
  then extract_tiktok url
  else if contains "instagram.com"%string url_lower
  then extract_instagram url
  else if contains "youtube.com"%string url_lower
          || contains "youtu.be"%string url_lower
  then extract_youtube url
  else ret JNull.

(** ** ai_pipeline.py *)

Definition generation_failed : str := "AI generation failed: "%string.
Definition parse_failed : str :=
  "Failed to parse AI response as JSON: "%string.

(** Lines 135-136 and 158-159: the two stamps. *)
Definition stamp_source (content_data : json) (source_url : str)
    (result : json) : res json :=
  (r1 <- py_setitem result "source_url"%string (JStr source_url) ;;
   creator <- py_get content_data "creator"%string (JStr []) ;;
   py_setitem r1 "source_creator"%string creator)%res.

(** Lines 139-146: "Ensure required fields exist". *)
Definition ensure_required_fields (result : json) : res json :=
  (r1 <- (if negb (py_has_key result "days"%string)
          then py_setitem result "days"%string (JList [])
          else ok result) ;;
   r2 <- (if negb (py_has_key r1 "duration_days"%string)
          then days <- py_getitem r1 "days"%string ;;
               n <- py_len days ;;
               py_setitem r1 "duration_days"%string (JInt n)
          else ok r1) ;;
   r3 <- (if negb (py_has_key r2 "packing_tips"%string)
          then py_setitem r2 "packing_tips"%string (JList [])
          else ok r2) ;;
   if negb (py_has_key r3 "local_phrases"%string)
   then py_setitem r3 "local_phrases"%string (JList [])
   else ok r3)%res.

(** [if duration_override:] *)
Definition duration_instruction (duration_override : option Z) : str :=
  match duration_override with
  | Some n =>
      if (n =? 0)%Z
      then "Infer appropriate duration from content (typically 3-7 days)"%string
      else "Create a "%string ++ str_of_Z n ++ "-day itinerary"%string
  | None => "Infer appropriate duration from content (typically 3-7 days)"%string
  end.

(** [if preferences:] *)
Definition preferences_instruction (preferences : option str) : str :=
  match preferences with
  | Some (c :: p) => "Style preferences: "%string ++ (c :: p)
  | _ => "Match the style/vibe of the original content"%string
  end.

(** The statements before the [try]: they build the prompt. *)
Definition build_prompt (content_data : json)
    (duration_override : option Z) (preferences : option str) : res prompt :=
  (tr <- py_get content_data "transcript"%string JNull ;;
   transcript_section <-
     (if truthy tr
      then t <- py_getitem content_data "transcript"%string ;;
           ok ("Transcript/Captions:"%string ++ [newline] ++ py_str t)
      else ok []) ;;
   platform <- py_get content_data "platform"%string (JStr "unknown"%string) ;;
   creator <- py_get content_data "creator"%string (JStr "unknown"%string) ;;
   title <- py_get content_data "title"%string (JStr []) ;;
   description <- py_get content_data "description"%string (JStr []) ;;
   ok (mkPrompt (py_str platform) (py_str creator) (py_str title)
         (py_str description) transcript_section
         (duration_instruction duration_override)
         (preferences_instruction preferences)))%res.

(** Lines 132-161, from the text of the response on: the strict parse
    with its post-processing, and the handler of [json.JSONDecodeError]
    with the recovery.  What is raised inside that handler leaves the
    function as it is; what the post-processing raises is caught by the
    second handler and wrapped. *)
Definition parse_response (content_data : json) (source_url : str)
    (raw_content : str) : res json :=
  match json_loads raw_content with
  | Some result =>
      match (r <- stamp_source content_data source_url result ;;
             ensure_required_fields r)%res with
      | inr r => ok r
      | inl e => err (ValueError generation_failed (Some e))
      end
  | None =>
      (* except json.JSONDecodeError *)
      match Re.search_braces raw_content with
      | Some group =>
          match json_loads group with
          | Some result => stamp_source content_data source_url result
          | None => err JSONDecodeError
          end
      | None => err (ValueError parse_failed (Some JSONDecodeError))
      end
  end.

(** [generate_itinerary(content_data, source_url, duration_override,
    preferences)].  The [try] has two handlers: one for
    [json.JSONDecodeError], one for every other exception. *)
Definition generate_itinerary (content_data : json) (source_url : str)
    (duration_override : option Z) (preferences : option str) : M W json :=
  p <~ lift (build_prompt content_data duration_override preferences) ;;
  response <~ attempt (call (EvChatCompletion p) (chat_completions_create p)) ;;
  match response with
  | inl e =>
      (* the call raised, [response] is not bound *)
      if is_JSONDecodeError e then raise UnboundLocalError
      else raise (ValueError generation_failed (Some e))
  | inr None =>
      (* json.loads(None) *)
      raise (ValueError generation_failed (Some TypeError))
  | inr (Some raw_content) =>
      lift (parse_response content_data source_url raw_content)
  end.

(** ** places_enrichment.py *)

Definition PLACES_BASE_URL : str :=
  "https://maps.googleapis.com/maps/api/place"%string.

Definition key_configured : bool := env_set GOOGLE_PLACES_API_KEY.

(** The dict [mapping] of [convert_price_level]. *)
Definition price_mapping : list (Z * str) :=
  [ (0%Z, list_ascii_of_string "Free");
    (1%Z, list_ascii_of_string "$");
    (2%Z, list_ascii_of_string "$$");
    (3%Z, list_ascii_of_string "$$$");
    (4%Z, list_ascii_of_string "$$$$") ].

(** [mapping.get(k, None)] *)
Fixpoint mapping_get (k : Z) (mapping : list (Z * str)) : option str :=
  match mapping with
  | [] => None
  | (k', v) :: rest => if (k =? k')%Z then Some v else mapping_get k rest
  end.

(** [convert_price_level(google_price_level)] *)
Definition convert_price_level (google_price_level : option Z)
  : option str :=
  match google_price_level with
  | None => None
  | Some n => mapping_get n price_mapping
  end.

Definition json_of_option (o : option str) : json :=
  match o with
  | Some s => JStr s
  | None => JNull
  end.

(** The same function on whatever [details.get('price_level')] yields: a
    bool or a float is looked up as the integer it equals, a string is
    not a key of the table, a list or a dict cannot be hashed. *)
Definition convert_price_level_py (v : json) : res json :=
  match v with
  | JNull => ok (json_of_option (convert_price_level None))
  | JInt n => ok (json_of_option (convert_price_level (Some n)))
  | JBool b =>
      ok (json_of_option (convert_price_level (Some (if b then 1 else 0)%Z)))
  | JFloat lit =>
      ok (match float_int_value lit with
          | Some n => json_of_option (convert_price_level (Some n))
          | None => JNull
          end)
  | JStr _ => ok JNull
  | JList _ | JDict _ => err TypeError
  end.

(** [get_photo_url(photo_reference)] with [max_width] at its default. *)
Definition get_photo_url (photo_reference : json) : str :=
  PLACES_BASE_URL ++ "/photo?maxwidth="%string ++ str_of_Z 800
  ++ "&photo_reference="%string ++ py_str photo_reference
  ++ "&key="%string
  ++ match GOOGLE_PLACES_API_KEY with
     | Some k => k
     | None => list_ascii_of_string "None"
     end.

Definition type_mapping : list (str * str) :=
  [ (list_ascii_of_string "restaurant", list_ascii_of_string "restaurant");
    (list_ascii_of_string "attraction", list_ascii_of_string "tourist_attraction");
    (list_ascii_of_string "hotel", list_ascii_of_string "lodging");
    (list_ascii_of_string "activity", list_ascii_of_string "point_of_interest");
    (list_ascii_of_string "neighborhood", list_ascii_of_string "neighborhood") ].

Fixpoint lookup (k : str) (m : list (str * str)) : option str :=
  match m with
  | [] => None
  | (k', v) :: m' => if str_eqb k k' then Some v else lookup k m'
  end.

(** [if location_type and location_type in type_mapping:] and the value
    put under ['type']. *)
Definition type_param (location_type : json) : res (option str) :=
  if truthy location_type then
    match location_type with
    | JStr s => ok (lookup s type_mapping)
    | JList _ | JDict _ => err TypeError
    | _ => ok None
    end
  else ok None.

(** [search_place(query, location_type)] *)
Definition search_place (query : str) (location_type : json) : M W json :=
  if negb key_configured then ret JNull
  else
    r <~ attempt
      (ty <~ lift (type_param location_type) ;;
       data <~ call (EvTextSearch query ty) (places_textsearch query ty) ;;
       status <~ lift (py_get data "status"%string JNull) ;;
       if py_eq_str status "OK"%string then
         results <~ lift (py_get data "results"%string JNull) ;;
         if truthy results then
           lift (rs <- py_getitem data "results"%string ;; py_index0 rs)%res
         else ret JNull
       else ret JNull) ;;
    match r with
    | inr v => ret v
    | inl _ => ret JNull
    end.

(** [get_place_details(place_id)] *)
Definition get_place_details (place_id : json) : M W json :=
  if negb key_configured || negb (truthy place_id) then ret JNull
  else
    r <~ attempt
      (data <~ call (EvPlaceDetails place_id) (places_details place_id) ;;
       status <~ lift (py_get data "status"%string JNull) ;;
       if py_eq_str status "OK"%string
       then lift (py_get data "result"%string JNull)
       else ret JNull) ;;
    match r with
    | inr v => ret v
    | inl _ => ret JNull
    end.

(** The assignments of lines 53-70, one function per statement; each
    takes the location as it stands and returns it updated, or raises. *)
Definition set_address (details location : json) : res json :=
  (current <- py_get location "address"%string JNull ;;
   v <- py_get details "formatted_address"%string current ;;
   py_setitem location "address"%string v)%res.

Definition set_coordinates (details location : json) : res json :=
  (g <- py_get details "geometry"%string (JDict []) ;;
   l <- py_get g "location"%string (JDict []) ;;
   lat <- py_get l "lat"%string JNull ;;
   g' <- py_get details "geometry"%string (JDict []) ;;
   l' <- py_get g' "location"%string (JDict []) ;;
   lng <- py_get l' "lng"%string JNull ;;
   py_setitem location "coordinates"%string
     (JDict [ (list_ascii_of_string "lat", lat);
              (list_ascii_of_string "lng", lng) ]))%res.

Definition set_rating (details location : json) : res json :=
  (v <- py_get details "rating"%string JNull ;;
   py_setitem location "rating"%string v)%res.

Definition set_price_level (details location : json) : res json :=
  (v <- py_get details "price_level"%string JNull ;;
   p <- convert_price_level_py v ;;
   py_setitem location "price_level"%string p)%res.

Definition set_google_maps_url (details location : json) : res json :=
  (v <- py_get details "url"%string JNull ;;
   py_setitem location "google_maps_url"%string v)%res.

Definition set_image_url (details location : json) : res json :=
  (photos <- py_get details "photos"%string JNull ;;
   if truthy photos then
     ps <- py_getitem details "photos"%string ;;
     first <- py_index0 ps ;;
     photo_ref <- py_get first "photo_reference"%string JNull ;;
     if truthy photo_ref
     then py_setitem location "image_url"%string (JStr (get_photo_url photo_ref))
     else ok location
   else ok location)%res.

Definition set_opening_hours (details location : json) : res json :=
  (oh <- py_get details "opening_hours"%string JNull ;;
   if truthy oh then
     o <- py_getitem details "opening_hours"%string ;;
     w <- py_get o "weekday_text"%string (JList []) ;;
     py_setitem location "opening_hours"%string w
   else ok location)%res.

Definition update_steps (details : json) : list (json -> res json) :=
  [ set_address details; set_coordinates details; set_rating details;
    set_price_level details; set_google_maps_url details;
    set_image_url details; set_opening_hours details ].

(** Statements run in order on a location that is mutated in place: when
    one raises, the earlier assignments stay. *)
Fixpoint run_steps (steps : list (json -> res json)) (location : json)
  : json * option exn :=
  match steps with
  | [] => (location, None)
  | step :: rest =>
      match step location with
      | inr location' => run_steps rest location'
      | inl e => (location, Some e)
      end
  end.

(** Lines 42-49: the search and the details fetch; nothing is assigned
    yet. *)
Definition find_details (location destination : json) : M W json :=
  name <~ lift (py_get location "name"%string JNull) ;;
  ty <~ lift (py_get location "type"%string JNull) ;;
  place_data <~
    search_place (py_str name ++ " "%string ++ py_str destination) ty ;;
  if truthy place_data then
    place_id <~ lift (py_get place_data "place_id"%string JNull) ;;
    get_place_details place_id
  else ret JNull.

(** The handler of line 74: it prints [location.get('name')] and returns
    the location. *)
Definition on_error (location : json) : M W json :=
  _ <~ lift (py_get location "name"%string JNull) ;;
  ret location.

(** [enrich_single_location(location, destination)] *)
Definition enrich_single_location (location destination : json)
  : M W json :=
  if negb key_configured then ret location
  else
    r <~ attempt (find_details location destination) ;;
    match r with
    | inl _ => on_error location
    | inr details =>
        if truthy details then
          match run_steps (update_steps details) location with
          | (location', None) => ret location'
          | (location', Some _) => on_error location'
          end
        else ret location
    end.

(** The body of [for day in ...]: the inner loop and the assignment
    [day['locations'] = enriched_locations]. *)
Definition enrich_day (destination day : json) : M W json :=
  locations <~ lift (l <- py_get day "locations"%string (JList []) ;;
                     py_iter l)%res ;;
  enriched_locations <~
    mapM (fun location => enrich_single_location location destination)
         locations ;;
  lift (py_setitem day "locations"%string (JList enriched_locations)).

(** The days are mutated in place: when the itinerary holds a list under
    ['days'], that list now holds the updated days; in every other case
    in which the loop ends, it had nothing to visit. *)
Definition store_days (itinerary : json) (days' : list json) : json :=
  match itinerary with
  | JDict d =>
      match Dict.get "days"%string d with
      | Some (JList _) => JDict (Dict.set "days"%string (JList days') d)
      | _ => itinerary
      end
  | _ => itinerary
  end.

(** [enrich_locations(itinerary)] *)
Definition enrich_locations (itinerary : json) : M W json :=
  if negb key_configured then ret itinerary
  else
    destination <~ lift (py_get itinerary "destination"%string (JStr [])) ;;
    days <~ lift (d <- py_get itinerary "days"%string (JList []) ;;
                  py_iter d)%res ;;
    days' <~ mapM (enrich_day destination) days ;;
    ret (store_days itinerary days').

(** ** main.py *)

Record TripRequest : Type := mkTripRequest {
  url : str;
  trip_duration : option Z;
  preferences : option str
}.

Definition valid_domains : list str :=
  [ list_ascii_of_string "tiktok.com"; list_ascii_of_string "instagram.com";
    list_ascii_of_string "youtube.com"; list_ascii_of_string "vm.tiktok.com" ].

Definition invalid_url_detail : str :=
  "Please provide a valid TikTok, Instagram, or YouTube URL"%string.
Definition no_key_detail : str :=
  "OpenAI API key not configured. Please set OPENAI_API_KEY environment variable."%string.
Definition no_content_detail : str :=
  "Could not extract content from this URL. The video might be private or unavailable."%string.
Definition processing_error : str := "Error processing content: "%string.

(** [extract_itinerary(request)], the handler of POST /api/extract. *)
Definition extract_itinerary (request : TripRequest) : M W json :=
  if negb (existsb (fun domain => contains domain (lower (url request)))
                   valid_domains)
  then raise (HTTPException 400 invalid_url_detail None)
  else if negb (env_set (getenv "OPENAI_API_KEY"%string))
  then raise (HTTPException 500 no_key_detail None)
  else
    r <~ attempt
      (content_data <~ extract_content_from_url (url request) ;;
       if negb (truthy content_data)
       then raise (HTTPException 422 no_content_detail None)
       else
         itinerary <~ generate_itinerary content_data (url request)
                        (trip_duration request) (preferences request) ;;
         if env_set (getenv "GOOGLE_PLACES_API_KEY"%string)
         then enrich_locations itinerary
         else ret itinerary) ;;
    match r with
    | inr itinerary => ret itinerary
    | inl e =>
        if is_HTTPException e then raise e
        else raise (HTTPException 500 processing_error (Some e))
    end.

(** ** api/extract.py, the serverless variant of the same endpoint *)

Definition api_valid_domains : list str :=
  [ list_ascii_of_string "tiktok.com"; list_ascii_of_string "instagram.com";
    list_ascii_of_string "youtube.com"; list_ascii_of_string "vm.tiktok.com";
    list_ascii_of_string "youtu.be" ].

(** The test of [do_POST] that decides between the 400 answer and the
    rest of the handler. *)
Definition api_url_accepted (u : str) : bool :=
  existsb (fun domain => contains domain (lower u)) api_valid_domains.

(** ** The resolver's classification, as the specification words it *)

Inductive platform : Type := ShortVideo | SecondPlatform | LongVideo.

(** The domain substrings of each platform. *)
Definition platform_domains (p : platform) : list str :=
  match p with
  | ShortVideo =>
      [ list_ascii_of_string "tiktok.com"; list_ascii_of_string "vm.tiktok.com" ]
  | SecondPlatform => [ list_ascii_of_string "instagram.com" ]
  | LongVideo =>
      [ list_ascii_of_string "youtube.com"; list_ascii_of_string "youtu.be" ]
  end.

(** "in order: short-video platform domains, then the second platform's
    domains, then the long-video platform's domains". *)
Definition platform_order : list platform :=
  [ ShortVideo; SecondPlatform; LongVideo ].

Definition platform_matches (u : str) (p : platform) : bool :=
  existsb (fun domain => contains domain (lower u)) (platform_domains p).

(** The first platform of the order with a domain inside the lowercased
    URL; [None] when no platform matches. *)
Definition spec_classify (u : str) : option platform :=
  find (platform_matches u) platform_order.

Definition platform_extractor (p : platform) : str -> M W json :=
  match p with
  | ShortVideo => extract_tiktok
  | SecondPlatform => extract_instagram
  | LongVideo => extract_youtube
  end.

(** ** Shapes of itineraries *)

Definition is_dict (v : json) : bool :=
  match v with JDict _ => true | _ => false end.

(** [v.get(k)] read as an optional field; [None] also when [v] is not a
    dict. *)
Definition field (k : string) (v : json) : option json :=
  match v with
  | JDict d => Dict.get (list_ascii_of_string k) d
  | _ => None
  end.

(** The list under key [k], empty when there is none. *)
Definition items (k : string) (v : json) : list json :=
  match field k v with
  | Some (JList l) => l
  | _ => []
  end.

Definition days_of (itinerary : json) : list json := items "days" itinerary.
Definition locations_of (day : json) : list json := items "locations" day.

Definition destination_of (itinerary : json) : json :=
  match field "destination" itinerary with
  | Some v => v
  | None => JStr []
  end.

(** A dict whose entry [k], if any, is a list of values satisfying [ok]. *)
Definition list_field (k : string) (ok : json -> bool) (v : json) : bool :=
  match v with
  | JDict d =>
      match Dict.get (list_ascii_of_string k) d with
      | None => true
      | Some (JList l) => forallb ok l
      | Some _ => false
      end
  | _ => false
  end.

(** An itinerary of the data model: a dict whose days are dicts whose
    locations are dicts. *)
Definition wf_day (day : json) : bool := list_field "locations" is_dict day.
Definition wf_itinerary (itinerary : json) : bool :=
  list_field "days" wf_day itinerary.

(** A parsed object on which line 142 can take [len(result['days'])]. *)
Definition days_sized (d : dict) : bool :=
  match Dict.get "days"%string d with
  | None => true
  | Some v =>
      Dict.has "duration_days"%string d
      || match py_len v with inr _ => true | inl _ => false end
  end.

(** ** The post-processing, as the specification words it *)

(** [content_data.get('creator', '')] on a content record. *)
Definition creator_of (cd : dict) : json :=
  match Dict.get "creator"%string cd with
  | Some c => c
  | None => JStr []
  end.

(** "stamps source_url and source_creator (creator from content record)
    onto the result". *)
Definition stamped (cd : dict) (source_url : str) (d : dict) : dict :=
  Dict.set "source_creator"%string (creator_of cd)
    (Dict.set "source_url"%string (JStr source_url) d).

(** "if [k] is absent, defaults to [v]". *)
Definition set_default (k : string) (v : json) (d : dict) : dict :=
  if Dict.has (list_ascii_of_string k) d then d
  else Dict.set (list_ascii_of_string k) v d.

(** The length of ['days'], 0 when it has none. *)
Definition days_length (d : dict) : Z :=
  match Dict.get "days"%string d with
  | Some v => match py_len v with inr n => n | inl _ => 0%Z end
  | None => 0%Z
  end.

(** "if days is absent, defaults to empty sequence; if duration_days is
    absent, defaults to the length of days; if packing_tips or
    local_phrases are absent, default to empty sequences". *)
Definition with_required_fields (d : dict) : dict :=
  let d1 := set_default "days" (JList []) d in
  let d2 := set_default "duration_days" (JInt (days_length d1)) d1 in
  let d3 := set_default "packing_tips" (JList []) d2 in
  set_default "local_phrases" (JList []) d3.

(** ** Runs of the enricher *)

(** The search and the details fetch for [location], started in state
    [st], end in an error or without details. *)
Definition lookup_failed (location destination : json) (st : state W)
  : bool :=
  match fst (find_details location destination st) with
  | inl _ => true
  | inr details => negb (truthy details)
  end.

(** [l'] is what [enrich_single_location] returns for [l] in some state
    of the world; when the lookup fails there, [l'] is [l]. *)
Definition enriched_from (destination l l' : json) : Prop :=
  exists s1 s2,
    enrich_single_location l destination s1 = (inr l', s2) /\
    (lookup_failed l destination s1 = true -> l' = l).

(** [v.get(k)] for a key given as a [str]. *)
Definition get_field (k : str) (v : json) : option json :=
  match v with
  | JDict d => Dict.get k d
  | _ => None
  end.

(** The arguments of [search_place] for a location. *)
Definition name_of (d : dict) : json :=
  match Dict.get "name"%string d with Some v => v | None => JNull end.
Definition type_of (d : dict) : json :=
  match Dict.get "type"%string d with Some v => v | None => JNull end.
Definition query_of (d : dict) (destination : json) : str :=
  py_str (name_of d) ++ " "%string ++ py_str destination.

(** [l'] is the enrichment of [l], and has its name. *)
Definition location_enriched (destination l l' : json) : Prop :=
  enriched_from destination l l' /\ field "name" l' = field "name" l.

(** [day'] is [day] with each location enriched, in the same order; every
    other entry of the day is as it was. *)
Definition day_enriched (destination day day' : json) : Prop :=
  (forall k, k <> list_ascii_of_string "locations" ->
             get_field k day' = get_field k day) /\
  Forall2 (location_enriched destination)
          (locations_of day) (locations_of day').

(** An assignment to a location that keeps it a dict and keeps its name. *)
Definition keeps_name (step : json -> res json) : Prop :=
  forall d l',
    step (JDict d) = inr l' ->
    exists d', l' = JDict d' /\
               Dict.get "name"%string d' = Dict.get "name"%string d.

(** ** The run of the two loops *)

(** [locations_run destination st ls ls' st']: started in state [st], the
    inner loop visits the locations [ls] in order, appends [ls'] and ends
    in state [st'].  Each location is handed to [enrich_single_location]
    in the state the loop has reached, the result is what is appended,
    and it is the location unchanged when the lookup failed in that
    state. *)
Inductive locations_run (destination : json)
  : state W -> list json -> list json -> state W -> Prop :=
| locations_done (st : state W) : locations_run destination st [] [] st
| locations_step (st st1 st2 : state W) (l l' : json) (ls ls' : list json) :
    enrich_single_location l destination st = (inr l', st1) ->
    (lookup_failed l destination st = true -> l' = l) ->
    locations_run destination st1 ls ls' st2 ->
    locations_run destination st (l :: ls) (l' :: ls') st2.

(** [days_run destination st days days' st']: the outer loop over [days],
    started in [st] and ended in [st']; the locations of each day of
    [days'] are those the inner loop appended for the day at the same
    place, in the state the outer loop had reached. *)
Inductive days_run (destination : json)
  : state W -> list json -> list json -> state W -> Prop :=
| days_done (st : state W) : days_run destination st [] [] st
| days_step (st st1 st2 : state W) (day day' : json)
    (days days' : list json) :
    locations_run destination st (locations_of day) (locations_of day') st1 ->
    days_run destination st1 days days' st2 ->
    days_run destination st (day :: days) (day' :: days') st2.

(** A link in the short form of the long-video platform. *)
Definition youtu_be_url : str := "https://youtu.be/dQw4w9WgXcQ"%string.

(** ** Lines of cleaned text *)

(** A string whose first and last characters are not white space. *)
Definition edge_ok (s : str) : Prop :=
  match s with
  | [] => False
  | c :: _ => isspace c = false
  end.

Definition trimmed (s : str) : Prop := edge_ok s /\ edge_ok (rev s).

(** A line the loop keeps as it is: trimmed, not skipped, and free of
    markup. *)
Record plain (l : str) : Prop := mkPlain {
  plain_trimmed : trimmed l;
  plain_arrow : contains "-->"%string l = false;
  plain_header : startswith "WEBVTT"%string l = false;
  plain_digits : isdigit l = false;
  plain_time : Re.match_timestamp l = false;
  plain_lt : ~ In "<"%char l;
  plain_nbsp : contains Re.nbsp l = false
}.

(** ** What the enricher writes *)

(** The keys assigned by lines 53-70. *)
Definition enriched_keys : list str :=
  [ list_ascii_of_string "address"; list_ascii_of_string "coordinates";
    list_ascii_of_string "rating"; list_ascii_of_string "price_level";
    list_ascii_of_string "google_maps_url"; list_ascii_of_string "image_url";
    list_ascii_of_string "opening_hours" ].

(** An assignment that keeps a location a dict and changes no entry but
    that of [key]. *)
Definition writes_only (key : str) (step : json -> res json) : Prop :=
  forall d l',
    step (JDict d) = inr l' ->
    exists d', l' = JDict d' /\
               forall k, k <> key -> Dict.get k d' = Dict.get k d.

(** The labels of the price tiers. *)
Definition price_labels : list str := map snd price_mapping.

(** A value [convert_price_level] can return. *)
Definition is_price_label (v : json) : Prop :=
  v = JNull \/ exists l, In l price_labels /\ v = JStr l.

(** The requests a state has seen since an earlier one. *)
Definition requests_since (st st' : state W) (evs : list event) : Prop :=
  trace st' = trace st ++ evs.

(** The number of locations of an itinerary. *)
Definition total_locations (itinerary : json) : nat :=
  list_sum (map (fun day => List.length (locations_of day))
                (days_of itinerary)).

(** The URL test of [extract_itinerary]. *)
Definition url_accepted (u : str) : bool :=
  existsb (fun domain => contains domain (lower u)) valid_domains.

(** A computation that sends no request and leaves the world as it is. *)
Definition silent {A : Type} (c : M W A) : Prop :=
  forall st, snd (c st) = st.

(** A request to the places directory. *)
Definition places_request (ev : event) : Prop :=
  match ev with
  | EvChatCompletion _ => False
  | EvTextSearch _ _ | EvPlaceDetails _ => True
  end.

(** The items of a list, none for any other value. *)
Definition listed (v : json) : list json :=
  match v with
  | JList l => l
  | _ => []
  end.

(** The requests the enrichment of one location may send: two for a dict,
    none for any other value. *)
Definition location_cost (location : json) : nat :=
  if is_dict location then 2 else 0.

(** ** Helpers outside the request pipeline *)

(** The functions below are not reached from POST /api/extract; their
    requests are made with [ask]. *)

(** [client.get(.../nearbysearch/json, params)] and [response.json()],
    given the values under 'location', 'radius' and 'type'. *)
Variable places_nearbysearch : str -> json -> json -> W -> res json * W.

(** The completion request of [enhance_location], given the destination,
    the name, the type and the current description as the message renders
    them; the answer is [response.choices[0].message.content]. *)
Variable chat_enhance : str -> str -> str -> str -> W -> res (option str) * W.

(** The completion request of [generate_summary_from_itinerary], given
    the destination, the duration, the vibe and the highlights as the
    message renders them. *)
Variable chat_summary : str -> str -> str -> str -> W -> res (option str) * W.

(** [o[:5]]: a list or a string has a slice, nothing else has. *)
Definition py_slice5 (o : json) : res json :=
  match o with
  | JList l => ok (JList (firstn 5 l))
  | JStr s => ok (JStr (firstn 5 s))
  | _ => err TypeError
  end.

(** [get_nearby_places(lat, lng, place_type, radius)] of
    places_enrichment.py. *)
Definition get_nearby_places (lat lng place_type radius : json)
  : M W json :=
  if negb key_configured then ret (JList [])
  else
    r <~ attempt
      (data <~ ask (places_nearbysearch
                      (py_str lat ++ ","%string ++ py_str lng)
                      radius place_type) ;;
       status <~ lift (py_get data "status"%string JNull) ;;
       if py_eq_str status "OK"%string
       then lift (results <- py_get data "results"%string (JList []) ;;
                  py_slice5 results)%res
       else ret (JList [])) ;;
    match r with
    | inr v => ret v
    | inl _ => ret (JList [])
    end.

(** [location.update({k: v for k, v in enhancements.items() if v})] on a
    dict [location]: the entries with a true value are assigned in the
    order of [enhancements]. *)
Definition update_truthy (location enhancements : dict) : dict :=
  fold_left (fun d kv => if truthy (snd kv) then Dict.set (fst kv) (snd kv) d
                         else d)
            enhancements location.

Definition py_update_truthy (location enhancements : json) : res json :=
  match enhancements with
  | JDict e =>
      match location with
      | JDict d => ok (JDict (update_truthy d e))
      | _ => err AttributeError
      end
  | _ => err AttributeError
  end.

(** [json.loads(response.choices[0].message.content)] *)
Definition loads_content (content : option str) : res json :=
  match content with
  | None => err TypeError
  | Some text =>
      match json_loads text with
      | Some v => ok v
      | None => err JSONDecodeError
      end
  end.

(** [enhance_location(location, destination)] of ai_pipeline.py. *)
Definition enhance_location (location destination : json) : M W json :=
  r <~ attempt
    (name <~ lift (py_get location "name"%string JNull) ;;
     ty <~ lift (py_get location "type"%string JNull) ;;
     description <~ lift (py_get location "description"%string (JStr [])) ;;
     content <~ ask (chat_enhance (py_str destination) (py_str name)
                       (py_str ty) (py_str description)) ;;
     lift (enhancements <- loads_content content ;;
           py_update_truthy location enhancements)%res) ;;
  match r with
  | inr location' => ret location'
  | inl _ => ret location
  end.







(** ** api/extract.py: the handler of the serverless endpoint *)

(** [int(s)] on a header value; [None] is [ValueError]. *)
Variable py_int : str -> option Z.

(** [client.chat.completions.create(...)] of api/extract.py up to
    [response.choices[0].message.content], given the URL, the duration
    text and the preferences text the prompt is formatted with. *)
Variable api_chat_completions_create :
  str -> str -> str -> W -> res (option str) * W.












(** The value the extractors of a platform store under 'platform'. *)
Definition platform_name (p : platform) : string :=
  match p with
  | ShortVideo => "tiktok"
  | SecondPlatform => "instagram"
  | LongVideo => "youtube"
  end.

(* ===================================================================== *)
(** * Properties *)
(* ===================================================================== *)

Unset Implicit Arguments.

(** ** Characters and substrings *)

Lemma chr_eqb_eq (a b : ascii) : chr_eqb a b = true <-> a = b.
Proof. unfold chr_eqb. apply Ascii.eqb_eq. Qed.

Lemma chr_eqb_neq (a b : ascii) : chr_eqb a b = false <-> a <> b.
Proof. unfold chr_eqb. apply Ascii.eqb_neq. Qed.

Lemma startswith_app (p s t : str) :
  startswith p s = true -> startswith p (s ++ t) = true.
Proof.
  revert s. induction p as [|a p IH]; intros [|b s]; simpl; try congruence.
  intros H. apply andb_true_iff in H as [H1 H2].
  rewrite H1. simpl. now apply IH.
Qed.

Lemma contains_app_l (p s t : str) :
  contains p s = true -> contains p (s ++ t) = true.
Proof.
  induction s as [|c s IH]; simpl.
  - rewrite orb_false_r. intros H.
    destruct p; [destruct t; reflexivity | destruct p; discriminate].
  - intros H. apply orb_true_iff in H as [H|H].
    + change (c :: s ++ t) with ((c :: s) ++ t).
      rewrite (startswith_app _ _ t H). reflexivity.
    + rewrite (IH H). apply orb_true_r.
Qed.

Lemma contains_app_r (p s t : str) :
  contains p s = true -> contains p (t ++ s) = true.
Proof.
  intros H. induction t as [|c t IH]; simpl; [exact H|].
  rewrite IH. apply orb_true_r.
Qed.

Lemma contains_infix (p a s b : str) :
  contains p (a ++ s ++ b) = false -> contains p s = false.
Proof.
  intros H. destruct (contains p s) eqn:E; [|reflexivity].
  rewrite (contains_app_r _ _ a (contains_app_l _ _ b E)) in H. discriminate.
Qed.

(** A pattern that does not hold the character [c] cannot lie across an
    occurrence of [c]. *)
Lemma startswith_before (p a b : str) (c : ascii) :
  ~ In c p -> startswith p (a ++ c :: b) = true -> startswith p a = true.
Proof.
  revert a. induction p as [|x p IH]; intros a Hc; [reflexivity|].
  destruct a as [|y a]; simpl.
  - intros H. apply andb_true_iff in H as [H _].
    apply chr_eqb_eq in H. subst. exfalso. apply Hc. now left.
  - intros H. apply andb_true_iff in H as [H1 H2]. rewrite H1. simpl.
    apply IH; [|exact H2]. intros Hin. apply Hc. now right.
Qed.

Lemma contains_across (p a b : str) (c : ascii) :
  ~ In c p -> contains p (a ++ c :: b) = true ->
  contains p a = true \/ contains p b = true.
Proof.
  intros Hc. induction a as [|y a IH]; simpl.
  - intros H. apply orb_true_iff in H as [H|H]; [|now right].
    left. rewrite (startswith_before _ [] _ _ Hc H). reflexivity.
  - intros H. apply orb_true_iff in H as [H|H].
    + left. change (y :: a ++ c :: b) with ((y :: a) ++ c :: b) in H.
      rewrite (startswith_before _ _ _ _ Hc H). reflexivity.
    + destruct (IH H) as [H'|H']; [left|now right].
      rewrite H'. apply orb_true_r.
Qed.

(** ** [split] and [join] *)

Lemma split_nonempty (sep : ascii) (s : str) : split sep s <> [].
Proof.
  destruct s as [|c s]; simpl; [discriminate|].
  destruct (chr_eqb c sep); [discriminate|].
  destruct (split sep s); discriminate.
Qed.

Lemma split_head (sep : ascii) (t l0 : str) (ls : list str) :
  split sep t = l0 :: ls -> exists r, t = l0 ++ r.
Proof.
  revert l0 ls. induction t as [|x t IH]; simpl; intros l0 ls E.
  - inversion E. now exists [].
  - destruct (chr_eqb x sep).
    + inversion E. now exists (x :: t).
    + destruct (split sep t) as [|l1 ls1] eqn:E1.
      * now destruct (split_nonempty _ _ E1).
      * destruct (IH _ _ eq_refl) as [r Hr].
        inversion E; subst l0 ls. exists r. simpl. now f_equal.
Qed.

Lemma split_infix (sep : ascii) (s l : str) :
  In l (split sep s) -> exists a b, s = a ++ l ++ b.
Proof.
  revert l. induction s as [|c s IH]; simpl; intros l H.
  - destruct H as [<-|[]]. now exists [], [].
  - destruct (chr_eqb c sep).
    + destruct H as [<-|H].
      * now exists [], (c :: s).
      * destruct (IH _ H) as (a & b & ->). now exists (c :: a), b.
    + destruct (split sep s) as [|l0 ls] eqn:E.
      * now destruct (split_nonempty _ _ E).
      * destruct H as [<-|H].
        -- destruct (split_head _ _ _ _ E) as [r ->].
           now exists [], r.
        -- destruct (IH _ (or_intror H)) as (a & b & ->).
           now exists (c :: a), b.
Qed.

Lemma split_no_sep (sep : ascii) (s l : str) :
  In l (split sep s) -> ~ In sep l.
Proof.
  revert l. induction s as [|c s IH]; simpl; intros l H.
  - destruct H as [<-|[]]. intros [].
  - destruct (chr_eqb c sep) eqn:Ec.
    + destruct H as [<-|H]; [intros []|now apply IH].
    + destruct (split sep s) as [|l0 ls] eqn:E.
      * now destruct (split_nonempty _ _ E).
      * destruct H as [<-|H].
        -- intros [->|Hin].
           ++ apply chr_eqb_neq in Ec. now apply Ec.
           ++ now apply (IH l0 (or_introl eq_refl)).
        -- apply IH. now right.
Qed.

Lemma split_single (sep : ascii) (s : str) :
  ~ In sep s -> split sep s = [s].
Proof.
  induction s as [|c s IH]; simpl; intros H; [reflexivity|].
  destruct (chr_eqb c sep) eqn:Ec.
  - apply chr_eqb_eq in Ec. subst. exfalso. apply H. now left.
  - rewrite IH; [reflexivity|]. intros Hin. apply H. now right.
Qed.

Lemma join_In (sep : str) (ls : list str) (c : ascii) :
  In c (join sep ls) -> In c sep \/ exists l, In l ls /\ In c l.
Proof.
  induction ls as [|l ls IH]; simpl; [intros []|].
  destruct ls as [|l' ls'].
  - intros H. right. exists l. auto.
  - intros H. apply in_app_or in H as [H|H].
    + right. exists l. auto.
    + apply in_app_or in H as [H|H]; [now left|].
      destruct (IH H) as [H'|(l0 & H1 & H2)]; [now left|].
      right. exists l0. split; [now right|exact H2].
Qed.

(** ** [strip] *)

Lemma lstrip_suffix (s : str) : exists t, s = t ++ lstrip s.
Proof.
  induction s as [|c s [t Ht]]; simpl.
  - now exists [].
  - destruct (isspace c).
    + exists (c :: t). simpl. now f_equal.
    + now exists [].
Qed.

Lemma strip_infix (s : str) : exists a b, s = a ++ strip s ++ b.
Proof.
  unfold strip, rstrip.
  destruct (lstrip_suffix s) as [a Ha].
  destruct (lstrip_suffix (rev (lstrip s))) as [b Hb].
  exists a, (rev b).
  rewrite <- rev_app_distr, <- Hb, rev_involutive. exact Ha.
Qed.

Lemma lstrip_edge (s : str) : lstrip s = [] \/ edge_ok (lstrip s).
Proof.
  induction s as [|c s IH]; simpl; [now left|].
  destruct (isspace c) eqn:E; [exact IH|]. right. exact E.
Qed.

Lemma edge_ok_lstrip (s : str) : edge_ok s -> lstrip s = s.
Proof. destruct s as [|c s]; simpl; [intros []|]. now intros ->. Qed.

Lemma edge_ok_app (s t : str) : edge_ok s -> edge_ok (s ++ t).
Proof. destruct s; simpl; [intros []|auto]. Qed.

Lemma trimmed_strip (s : str) : trimmed s -> strip s = s.
Proof.
  intros [H1 H2]. unfold strip, rstrip.
  rewrite (edge_ok_lstrip _ H1), (edge_ok_lstrip _ H2).
  apply rev_involutive.
Qed.

Lemma strip_trimmed (s : str) : strip s <> [] -> trimmed (strip s).
Proof.
  unfold strip, rstrip. set (u := lstrip s). intros Hne.
  assert (Hr : edge_ok (lstrip (rev u))).
  { destruct (lstrip_edge (rev u)) as [E|E]; [|exact E].
    rewrite E in Hne. now destruct Hne. }
  split; [|now rewrite rev_involutive].
  destruct (lstrip_suffix (rev u)) as [t Ht].
  assert (Hu : u = rev (lstrip (rev u)) ++ rev t).
  { rewrite <- rev_app_distr, <- Ht. symmetry. apply rev_involutive. }
  destruct (lstrip_edge s) as [E|E]; fold u in E.
  - rewrite E in Hne. simpl in Hne. now destruct Hne.
  - destruct (rev (lstrip (rev u))) as [|c w] eqn:Ew; [now destruct Hne|].
    rewrite Hu in E. exact E.
Qed.

(** ** The two substitutions *)

Lemma sub_tags_aux_In (inside : bool) (s : str) (c : ascii) :
  In c (Re.sub_tags_aux inside s) -> In c s.
Proof.
  revert inside. induction s as [|x s IH]; intros inside; simpl; [auto|].
  destruct inside.
  - destruct (Re.is_gt x); intros H; right; eapply IH; exact H.
  - destruct (Re.is_lt x && Re.tag_opens s).
    + intros H. right. eapply IH; exact H.
    + intros [H|H]; [now left|]. right. eapply IH; exact H.
Qed.

Lemma sub_literal_aux_In (p r : str) (k : nat) (s : str) (c : ascii) :
  In c (Re.sub_literal_aux p r k s) -> In c s \/ In c r.
Proof.
  revert k. induction s as [|x s IH]; intros k; simpl; [auto|].
  destruct k as [|k].
  - destruct (startswith p (x :: s)).
    + intros H. apply in_app_or in H as [H|H]; [now right|].
      destruct (IH _ H); auto.
    + intros [H|H]; [now left; left|]. destruct (IH _ H); auto.
  - intros H. destruct (IH _ H); auto.
Qed.

Lemma sub_tags_no_lt (s : str) :
  ~ In "<"%char s -> Re.sub_tags s = s.
Proof.
  unfold Re.sub_tags. induction s as [|x s IH]; simpl; [reflexivity|].
  intros H. destruct (Re.is_lt x) eqn:E.
  - apply chr_eqb_eq in E. subst. exfalso. apply H. now left.
  - simpl. f_equal. apply IH. intros Hin. apply H. now right.
Qed.

Lemma sub_literal_absent (p r s : str) :
  contains p s = false -> Re.sub_literal_aux p r 0 s = s.
Proof.
  induction s as [|x s IH]; simpl; [reflexivity|].
  intros H. apply orb_false_iff in H as [H1 H2].
  change (match p with [] => true | a :: p' => chr_eqb a x && startswith p' s end)
    with (startswith p (x :: s)) in H1 |- *.
  rewrite H1. f_equal. now apply IH.
Qed.

(** ** [clean_subtitles] *)

Lemma clean_line_In (line l : str) (c : ascii) :
  clean_line line = Some l -> In c l -> In c line \/ c = " "%char.
Proof.
  unfold clean_line. 
  destruct (negb (nonempty (strip line))); [discriminate|].
  destruct (contains _ (strip line)); [discriminate|].
  destruct (startswith _ (strip line)); [discriminate|].
  destruct (isdigit (strip line)); [discriminate|].
  destruct (Re.match_timestamp (strip line)); [discriminate|].
  destruct (nonempty _); [|discriminate].
  intros [= <-] H. unfold Re.sub_nbsp in H.
  apply sub_literal_aux_In in H as [H|H].
  - left. apply sub_tags_aux_In in H.
    destruct (strip_infix line) as (a & b & E). rewrite E.
    apply in_or_app. right. apply in_or_app. now left.
  - right. destruct H as [H|[]]. now symmetry.
Qed.

Lemma text_lines_of_In (lines : list str) (l : str) :
  In l (text_lines_of lines) ->
  exists line, In line lines /\ clean_line line = Some l.
Proof.
  induction lines as [|x lines IH]; simpl; [intros []|].
  destruct (clean_line x) as [l0|] eqn:E.
  - intros [<-|H].
    + exists x. auto.
    + destruct (IH H) as (line & H1 & H2). exists line. auto.
  - intros H. destruct (IH H) as (line & H1 & H2). exists line. auto.
Qed.

(** No step of the cleaning brings a newline in. *)
Lemma cleaned_lines_no_newline (content : str) :
  ~ In newline (join " "%string (text_lines_of (split newline content))).
Proof.
  intros H.
  apply join_In in H as [H|(l & Hl & Hc)].
  - destruct H as [H|[]]. discriminate H.
  - apply text_lines_of_In in Hl as (line & Hline & Hclean).
    destruct (clean_line_In _ _ _ Hclean Hc) as [H|H].
    + exact (split_no_sep _ _ _ Hline H).
    + discriminate H.
Qed.

(** C10. For every text and every format argument, the cleaned text holds
    no newline character: the surviving lines are joined into one line. *)
Theorem clean_subtitles_no_newline (content format : str) :
  ~ In newline (clean_subtitles content format).
Proof. unfold clean_subtitles. apply cleaned_lines_no_newline. Qed.

Lemma plain_clean_line (l : str) : plain l -> clean_line l = Some l.
Proof.
  intros [Ht Ha Hh Hd Htm Hl Hn]. unfold clean_line.
  rewrite (trimmed_strip _ Ht).
  assert (Hne : nonempty l = true).
  { destruct Ht as [Ht _]. destruct l; [destruct Ht|reflexivity]. }
  rewrite Hne, Ha, Hh, Hd, Htm. simpl.
  rewrite (sub_tags_no_lt _ Hl). unfold Re.sub_nbsp.
  rewrite (sub_literal_absent _ _ _ Hn). now rewrite Hne.
Qed.

Lemma clean_line_plain (line l : str) :
  ~ In "<"%char line -> contains Re.nbsp line = false ->
  clean_line line = Some l -> plain l.
Proof.
  intros Hl Hn. unfold clean_line.
  destruct (strip_infix line) as (a & b & E).
  assert (Hl' : ~ In "<"%char (strip line)).
  { intros H. apply Hl. rewrite E. apply in_or_app. right.
    apply in_or_app. now left. }
  assert (Hn' : contains Re.nbsp (strip line) = false).
  { rewrite E in Hn. exact (contains_infix _ _ _ _ Hn). }
  destruct (nonempty (strip line)) eqn:Hne; cbn [negb];
    [|intros H; discriminate H].
  destruct (contains "-->"%string (strip line)) eqn:Ha;
    [intros H; discriminate H|].
  destruct (startswith "WEBVTT"%string (strip line)) eqn:Hh;
    [intros H; discriminate H|].
  destruct (isdigit (strip line)) eqn:Hd; [intros H; discriminate H|].
  destruct (Re.match_timestamp (strip line)) eqn:Htm;
    [intros H; discriminate H|].
  rewrite (sub_tags_no_lt _ Hl'). unfold Re.sub_nbsp.
  rewrite (sub_literal_absent _ _ _ Hn'). rewrite Hne.
  intros [= <-]. constructor; auto.
  apply strip_trimmed. destruct (strip line); [discriminate|discriminate].
Qed.

(** Joining plain lines with single spaces gives a plain line. *)
Lemma space_not_in (p : string) :
  forallb (fun c => negb (chr_eqb " "%char c)) (list_ascii_of_string p) = true ->
  ~ In " "%char (list_ascii_of_string p).
Proof.
  intros H Hin. rewrite forallb_forall in H. specialize (H _ Hin).
  unfold chr_eqb in H. now rewrite Ascii.eqb_refl in H.
Qed.

Lemma match_timestamp_before (a b : str) :
  Re.match_timestamp (a ++ " "%char :: b) = true ->
  Re.match_timestamp a = true.
Proof.
  destruct a as [|a1 [|a2 [|a3 [|a4 [|a5 a]]]]];
    try (intros H; exact H);
    destruct b as [|b1 [|b2 [|b3 [|b4 b]]]];
    cbn [app Re.match_timestamp];
    try (intros H; discriminate H);
    try change (is_decimal " "%char) with false;
    try change (chr_eqb " "%char ":"%char) with false;
    rewrite ?andb_false_r; cbn [andb]; intros H; discriminate H.
Qed.

Lemma isdigit_space (a b : str) : isdigit (a ++ " "%char :: b) = false.
Proof.
  unfold isdigit. destruct (a ++ " "%char :: b) eqn:E.
  - now destruct a.
  - rewrite <- E. rewrite forallb_app. simpl. apply andb_false_r.
Qed.

Lemma join_plain (l : str) (ls : list str) :
  plain l -> Forall plain ls -> plain (join " "%string (l :: ls)).
Proof.
  revert l. induction ls as [|l' ls IH]; intros l Hl Hls; [exact Hl|].
  inversion Hls as [|? ? Hl' Hls']; subst.
  specialize (IH l' Hl' Hls').
  change (join " "%string (l :: l' :: ls))
    with (l ++ " "%char :: join " "%string (l' :: ls)).
  set (y := join " "%string (l' :: ls)) in *.
  destruct Hl as [[Ht1 Ht2] Ha Hh Hd Htm Hlt Hn].
  destruct IH as [[Ht1' Ht2'] Ha' Hh' Hd' Htm' Hlt' Hn'].
  constructor.
  - split; [now apply edge_ok_app|].
    rewrite rev_app_distr. simpl. rewrite <- app_assoc.
    apply edge_ok_app. exact Ht2'.
  - destruct (contains _ (l ++ _)) eqn:E; [|reflexivity].
    apply contains_across in E as [E|E]; [congruence|congruence|].
    now apply space_not_in.
  - destruct (startswith _ (l ++ _)) eqn:E; [|reflexivity].
    apply startswith_before in E; [congruence|]. now apply space_not_in.
  - apply isdigit_space.
  - destruct (Re.match_timestamp (l ++ _)) eqn:E; [|reflexivity].
    apply match_timestamp_before in E. congruence.
  - intros H. apply in_app_or in H as [H|[H|H]]; auto. discriminate H.
  - destruct (contains Re.nbsp (l ++ _)) eqn:E; [|reflexivity].
    apply contains_across in E as [E|E]; [congruence|congruence|].
    now apply (space_not_in "&nbsp;").
Qed.

Lemma text_lines_plain (lines : list str) :
  Forall (fun line => ~ In "<"%char line /\ contains Re.nbsp line = false)
         lines ->
  Forall plain (text_lines_of lines).
Proof.
  induction lines as [|x lines IH]; simpl; intros H; [constructor|].
  inversion H as [|? ? [H1 H2] H']; subst.
  destruct (clean_line x) as [l|] eqn:E; [|now apply IH].
  constructor; [|now apply IH]. exact (clean_line_plain _ _ H1 H2 E).
Qed.

(** C5, as amended. On a text that holds no '<' and no entity "&nbsp;"
    cleaning is idempotent, whatever the format arguments: cleaning the
    cleaned text gives the cleaned text. *)
Theorem clean_subtitles_idempotent_plain (content format format' : str) :
  ~ In "<"%char content ->
  contains "&nbsp;"%string content = false ->
  clean_subtitles (clean_subtitles content format) format'
  = clean_subtitles content format.
Proof.
  intros Hlt Hn.
  pose proof (cleaned_lines_no_newline content) as Hnl.
  unfold clean_subtitles at 1. unfold clean_subtitles.
  rewrite (split_single _ _ Hnl).
  assert (Hp : Forall plain (text_lines_of (split newline content))).
  { apply text_lines_plain. apply Forall_forall. intros line Hline.
    destruct (split_infix _ _ _ Hline) as (a & b & E). split.
    - intros H. apply Hlt. rewrite E. apply in_or_app. right.
      apply in_or_app. now left.
    - rewrite E in Hn. exact (contains_infix _ _ _ _ Hn). }
  destruct (text_lines_of (split newline content)) as [|l ls].
  - reflexivity.
  - inversion Hp as [|? ? Hl Hls]; subst.
    cbn [text_lines_of].
    rewrite (plain_clean_line _ (join_plain _ _ Hl Hls)). reflexivity.
Qed.


(** ** Dicts *)

Lemma str_eqb_eq (a b : str) : str_eqb a b = true <-> a = b.
Proof.
  unfold str_eqb. destruct (list_eq_dec ascii_dec a b); split; congruence.
Qed.

Lemma str_eqb_refl (a : str) : str_eqb a a = true.
Proof. now apply str_eqb_eq. Qed.

Lemma str_eqb_neq (a b : str) : a <> b -> str_eqb a b = false.
Proof.
  intros H. destruct (str_eqb a b) eqn:E; [|reflexivity].
  apply str_eqb_eq in E. contradiction.
Qed.

Lemma get_set_same (k : str) (v : json) (d : dict) :
  Dict.get k (Dict.set k v d) = Some v.
Proof.
  induction d as [|[k' v'] d IH]; simpl.
  - now rewrite str_eqb_refl.
  - destruct (str_eqb k k') eqn:E; simpl; rewrite E; [reflexivity|exact IH].
Qed.

Lemma get_set_other (k k' : str) (v : json) (d : dict) :
  k <> k' -> Dict.get k (Dict.set k' v d) = Dict.get k d.
Proof.
  intros Hk. induction d as [|[k0 v0] d IH]; simpl.
  - now rewrite (str_eqb_neq _ _ Hk).
  - destruct (str_eqb k' k0) eqn:E; simpl.
    + apply str_eqb_eq in E. subst k0.
      now rewrite (str_eqb_neq _ _ Hk).
    + destruct (str_eqb k k0); [reflexivity|exact IH].
Qed.

(** ** C8: the order of the platform tests *)

(** C8. For every URL the resolver hands the URL to the extractor of the
    first platform, in the order short-video, second platform, long-video,
    one of whose domains occurs in the lowercased URL, and returns [None]
    without calling an extractor when no platform matches. *)
Theorem extract_content_from_url_order (u : str) :
  extract_content_from_url u =
  match spec_classify u with
  | Some p => platform_extractor p u
  | None => ret JNull
  end.
Proof.
  unfold extract_content_from_url, spec_classify, platform_order.
  unfold find, platform_matches, platform_domains, existsb.
  rewrite !orb_false_r.
  destruct (contains "tiktok.com"%string (lower u)
            || contains "vm.tiktok.com"%string (lower u)); [reflexivity|].
  destruct (contains "instagram.com"%string (lower u)); [reflexivity|].
  destruct (contains "youtube.com"%string (lower u)
            || contains "youtu.be"%string (lower u)); reflexivity.
Qed.

(** A URL matching several platforms goes to the first of the order. *)
Lemma spec_classify_short (u : str) :
  platform_matches u ShortVideo = true ->
  spec_classify u = Some ShortVideo.
Proof. unfold spec_classify, platform_order, find. now intros ->. Qed.

Lemma spec_classify_second (u : str) :
  platform_matches u ShortVideo = false ->
  platform_matches u SecondPlatform = true ->
  spec_classify u = Some SecondPlatform.
Proof. unfold spec_classify, platform_order, find. now intros -> ->. Qed.

Lemma spec_classify_long (u : str) :
  platform_matches u ShortVideo = false ->
  platform_matches u SecondPlatform = false ->
  platform_matches u LongVideo = true ->
  spec_classify u = Some LongVideo.
Proof. unfold spec_classify, platform_order, find. now intros -> -> ->. Qed.

(** A URL matching no platform yields [None] and leaves the world and the
    trace untouched. *)
Lemma extract_content_from_url_no_match (u : str) (st : state W) :
  (forall p, platform_matches u p = false) ->
  extract_content_from_url u st = (inr JNull, st).
Proof.
  intros H. unfold extract_content_from_url.
  pose proof (H ShortVideo) as H1. pose proof (H SecondPlatform) as H2.
  pose proof (H LongVideo) as H3.
  unfold platform_matches, platform_domains, existsb in H1, H2, H3.
  rewrite orb_false_r in H1, H2, H3.
  now rewrite H1, H2, H3.
Qed.

(** ** C1: the URL test of the endpoint *)

(** A URL none of whose substrings is one of the four domains of main.py
    is answered with 400, and neither the world nor the trace changes. *)
Lemma extract_itinerary_invalid_url (request : TripRequest) (st : state W) :
  existsb (fun domain => contains domain (lower (url request))) valid_domains
  = false ->
  extract_itinerary request st
  = (inl (HTTPException 400 invalid_url_detail None), st).
Proof. intros H. unfold extract_itinerary. now rewrite H. Qed.

(** So is a URL in which the resolver recognises no platform. *)
Lemma extract_itinerary_unrecognized (request : TripRequest)
    (st : state W) :
  (forall p, platform_matches (url request) p = false) ->
  extract_itinerary request st
  = (inl (HTTPException 400 invalid_url_detail None), st).
Proof.
  intros H. apply extract_itinerary_invalid_url.
  pose proof (H ShortVideo) as H1. pose proof (H SecondPlatform) as H2.
  pose proof (H LongVideo) as H3.
  unfold platform_matches, platform_domains, existsb in H1, H2, H3.
  rewrite orb_false_r in H1, H2, H3.
  apply orb_false_iff in H1 as [H1 H1'].
  apply orb_false_iff in H3 as [H3 H3'].
  unfold valid_domains, existsb.
  now rewrite H1, H1', H2, H3.
Qed.

(** C1, at the failing input. The short domain of the long-video platform
    is recognised by the resolver and by the serverless variant of the
    endpoint, and yet the endpoint of main.py answers it with 400. *)
Theorem extract_itinerary_rejects_youtu_be
    (d : option Z) (p : option str) (st : state W) :
  spec_classify youtu_be_url = Some LongVideo /\
  extract_content_from_url youtu_be_url = extract_youtube youtu_be_url /\
  api_url_accepted youtu_be_url = true /\
  extract_itinerary (mkTripRequest youtu_be_url d p) st
  = (inl (HTTPException 400 invalid_url_detail None), st).
Proof.
  repeat split; reflexivity.
Qed.

(** ** C6: the price tiers *)

(** C6. The conversion maps 0 to "Free", 1 to "$", 2 to "$$", 3 to "$$$",
    4 to "$$$$", and an absent value or any other integer to [None]. *)
Theorem convert_price_level_table :
  convert_price_level (Some 0%Z) = Some (list_ascii_of_string "Free") /\
  convert_price_level (Some 1%Z) = Some (list_ascii_of_string "$") /\
  convert_price_level (Some 2%Z) = Some (list_ascii_of_string "$$") /\
  convert_price_level (Some 3%Z) = Some (list_ascii_of_string "$$$") /\
  convert_price_level (Some 4%Z) = Some (list_ascii_of_string "$$$$") /\
  convert_price_level None = None /\
  forall n : Z, (n < 0 \/ 4 < n)%Z -> convert_price_level (Some n) = None.
Proof.
  repeat split; try reflexivity.
  intros n Hn. unfold convert_price_level, price_mapping.
  cbn [mapping_get].
  repeat match goal with
         | |- context [(n =? ?k)%Z] => destruct (Z.eqb_spec n k); [lia|]
         end.
  reflexivity.
Qed.

(** ** ai_pipeline.py: parsing, recovery and post-processing *)

Lemma get_set (k k' : str) (v : json) (d : dict) :
  Dict.get k (Dict.set k' v d)
  = if str_eqb k k' then Some v else Dict.get k d.
Proof.
  destruct (str_eqb k k') eqn:E.
  - apply str_eqb_eq in E. subst. apply get_set_same.
  - apply get_set_other. intros ->. now rewrite str_eqb_refl in E.
Qed.

Lemma has_set (k k' : str) (v : json) (d : dict) :
  Dict.has k (Dict.set k' v d) = str_eqb k k' || Dict.has k d.
Proof. unfold Dict.has. rewrite get_set. now destruct (str_eqb k k'). Qed.

Lemma has_get_none (k : str) (d : dict) :
  Dict.has k d = false <-> Dict.get k d = None.
Proof. unfold Dict.has. destruct (Dict.get k d); split; congruence. Qed.

(** Comparisons of literal keys are decided by evaluation. *)
Ltac keys :=
  repeat match goal with
  | |- context [str_eqb ?a ?b] =>
      let v := eval vm_compute in (str_eqb a b) in
      match v with
      | true => change (str_eqb a b) with true
      | false => change (str_eqb a b) with false
      end
  end.

Lemma build_prompt_dict (content_data : json) (d : option Z)
    (p : option str) (pr : prompt) :
  build_prompt content_data d p = inr pr -> is_dict content_data = true.
Proof. destruct content_data; simpl; try discriminate. reflexivity. Qed.

Lemma stamp_source_dict (cd : dict) (source_url : str) (d0 : dict) :
  stamp_source (JDict cd) source_url (JDict d0)
  = inr (JDict (stamped cd source_url d0)).
Proof. reflexivity. Qed.

Lemma stamp_source_not_dict (content_data : json) (source_url : str)
    (v : json) :
  is_dict v = false ->
  stamp_source content_data source_url v = inl TypeError.
Proof. destruct v; simpl; try reflexivity. discriminate. Qed.

Lemma stamped_source_url (cd : dict) (source_url : str) (d0 : dict) :
  Dict.get "source_url"%string (stamped cd source_url d0)
  = Some (JStr source_url).
Proof. unfold stamped. rewrite !get_set. keys. reflexivity. Qed.

Lemma stamped_source_creator (cd : dict) (source_url : str) (d0 : dict) :
  Dict.get "source_creator"%string (stamped cd source_url d0)
  = Some (creator_of cd).
Proof. unfold stamped. rewrite !get_set. keys. reflexivity. Qed.

Lemma stamped_other (cd : dict) (source_url : str) (d0 : dict) (k : str) :
  k <> list_ascii_of_string "source_url" ->
  k <> list_ascii_of_string "source_creator" ->
  Dict.get k (stamped cd source_url d0) = Dict.get k d0.
Proof.
  intros N1 N2. unfold stamped. rewrite !get_set.
  now rewrite (str_eqb_neq _ _ N1), (str_eqb_neq _ _ N2).
Qed.

Lemma set_default_get (k : string) (v : json) (d : dict) (k' : str) :
  Dict.get k' (set_default k v d)
  = match Dict.get k' d with
    | Some x => Some x
    | None => if str_eqb k' (list_ascii_of_string k) then Some v else None
    end.
Proof.
  unfold set_default. destruct (Dict.has _ d) eqn:H.
  - destruct (Dict.get k' d) eqn:E; [reflexivity|].
    destruct (str_eqb k' (list_ascii_of_string k)) eqn:E'; [|reflexivity].
    apply str_eqb_eq in E'. subst k'. apply has_get_none in E. congruence.
  - rewrite get_set.
    destruct (str_eqb k' (list_ascii_of_string k)) eqn:E'.
    + apply str_eqb_eq in E'. subst k'. apply has_get_none in H.
      now rewrite H.
    + now destruct (Dict.get k' d).
Qed.

(** Nothing the response held is lost or changed by the defaults. *)
Lemma with_required_fields_keeps (d : dict) (k : str) (v : json) :
  Dict.get k d = Some v -> Dict.get k (with_required_fields d) = Some v.
Proof.
  intros H. unfold with_required_fields. cbv zeta.
  rewrite !set_default_get. now rewrite H.
Qed.

(** The four keys are present afterwards; an absent one has its default. *)
Lemma with_required_fields_defaults (d : dict) :
  (Dict.get "days"%string d = None ->
   Dict.get "days"%string (with_required_fields d) = Some (JList [])) /\
  (Dict.get "duration_days"%string d = None ->
   Dict.get "duration_days"%string (with_required_fields d)
   = Some (JInt (days_length (set_default "days" (JList []) d)))) /\
  (Dict.get "packing_tips"%string d = None ->
   Dict.get "packing_tips"%string (with_required_fields d) = Some (JList [])) /\
  (Dict.get "local_phrases"%string d = None ->
   Dict.get "local_phrases"%string (with_required_fields d)
   = Some (JList [])).
Proof.
  unfold with_required_fields. cbv zeta.
  repeat split; intros H; rewrite !set_default_get, H; keys; reflexivity.
Qed.

Lemma days_length_default (d : dict) :
  Dict.get "days"%string d = None ->
  days_length (set_default "days" (JList []) d) = 0%Z.
Proof.
  intros H. unfold days_length. rewrite set_default_get, H. keys.
  reflexivity.
Qed.

Lemma set_default_sized (d : dict) :
  days_sized d = true ->
  Dict.has "duration_days"%string (set_default "days" (JList []) d) = false ->
  exists v,
    Dict.get "days"%string (set_default "days" (JList []) d) = Some v /\
    py_len v = inr (days_length (set_default "days" (JList []) d)).
Proof.
  unfold days_sized, days_length. intros Hs Hu.
  assert (Hu' : Dict.has "duration_days"%string d = false).
  { apply has_get_none. apply has_get_none in Hu. revert Hu.
    rewrite set_default_get.
    destruct (Dict.get "duration_days"%string d);
      [intros H; discriminate H|reflexivity]. }
  rewrite set_default_get.
  destruct (Dict.get "days"%string d) as [v|] eqn:E.
  - exists v. split; [reflexivity|]. rewrite Hu' in Hs. simpl in Hs.
    now destruct (py_len v).
  - keys. exists (JList []). split; reflexivity.
Qed.

(** Lines 139-146 compute what the specification words. *)
Lemma ensure_required_fields_eq (d : dict) :
  days_sized d = true ->
  ensure_required_fields (JDict d) = inr (JDict (with_required_fields d)).
Proof.
  intros Hs. unfold ensure_required_fields, with_required_fields.
  cbv zeta. cbn [py_has_key].
  assert (E1 : (if negb (Dict.has "days"%string d)
                then py_setitem (JDict d) "days"%string (JList [])
                else ok (JDict d))
               = inr (JDict (set_default "days" (JList []) d))).
  { unfold set_default. now destruct (Dict.has _ d). }
  rewrite E1. cbn [rbind py_has_key]. clear E1.
  set (d1 := set_default "days" (JList []) d) in *.
  assert (E2 : (if negb (Dict.has "duration_days"%string d1)
                then (days <- py_getitem (JDict d1) "days"%string ;;
                      n <- py_len days ;;
                      py_setitem (JDict d1) "duration_days"%string (JInt n))%res
                else ok (JDict d1))
               = inr (JDict (set_default "duration_days"
                               (JInt (days_length d1)) d1))).
  { unfold set_default at 1.
    change (list_ascii_of_string "duration_days") with ("duration_days"%string : str).
    destruct (Dict.has "duration_days"%string d1) eqn:Hu; [reflexivity|].
    destruct (set_default_sized d Hs Hu) as (v & Hv & Hl). fold d1 in Hv, Hl.
    cbn [negb py_getitem]. rewrite Hv. cbn [rbind ok]. rewrite Hl.
    reflexivity. }
  rewrite E2. cbn [rbind py_has_key]. clear E2.
  set (d2 := set_default "duration_days" _ d1).
  unfold set_default at 1 2.
  destruct (Dict.has "packing_tips"%string d2);
    cbn [negb rbind ok py_setitem py_has_key];
    match goal with |- context [Dict.has (list_ascii_of_string "local_phrases") ?x] =>
      destruct (Dict.has (list_ascii_of_string "local_phrases") x) end;
    reflexivity.
Qed.

Lemma py_len_error (v : json) (e : exn) : py_len v = inl e -> e = TypeError.
Proof. destruct v; unfold py_len, ok, err; congruence. Qed.

Lemma ensure_required_fields_unsized (d : dict) :
  days_sized d = false ->
  ensure_required_fields (JDict d) = inl TypeError.
Proof.
  unfold days_sized. intros Hs.
  destruct (Dict.get "days"%string d) as [v|] eqn:E; [|discriminate].
  apply orb_false_iff in Hs as [Hu Hl].
  unfold ensure_required_fields. cbn [py_has_key].
  unfold Dict.has at 1. rewrite E. cbn [negb rbind ok py_has_key].
  rewrite Hu. cbn [negb py_getitem]. rewrite E. cbn [rbind ok].
  destruct (py_len v) as [e|n] eqn:Hv; [|discriminate].
  now rewrite (py_len_error _ _ Hv).
Qed.

Lemma days_sized_stamped (cd : dict) (source_url : str) (d0 : dict) :
  days_sized (stamped cd source_url d0) = days_sized d0.
Proof.
  unfold days_sized, Dict.has.
  rewrite !stamped_other; [reflexivity| | | |];
    intros H; vm_compute in H; discriminate H.
Qed.

(** Once the prompt is built and the service has answered with a text, the
    outcome is that of [parse_response] on the text. *)
Lemma generate_itinerary_response (content_data : json) (source_url : str)
    (d : option Z) (p : option str) (pr : prompt) (raw : str)
    (st : state W) (w' : W) :
  build_prompt content_data d p = inr pr ->
  chat_completions_create pr (world st) = (inr (Some raw), w') ->
  generate_itinerary content_data source_url d p st
  = (parse_response content_data source_url raw,
     mkState w' (trace st ++ [EvChatCompletion pr])).
Proof.
  intros Hp Hc. unfold generate_itinerary, bind, lift, attempt, call.
  rewrite Hp, Hc. reflexivity.
Qed.

Lemma upto_last_rbrace_none (s : str) :
  ~ In "}"%char s -> Re.upto_last_rbrace s = None.
Proof.
  induction s as [|c s IH]; simpl; [reflexivity|]. intros H.
  rewrite IH by (intros Hin; apply H; now right).
  destruct (Re.is_rbrace c) eqn:E; [|reflexivity].
  apply chr_eqb_eq in E. subst. exfalso. apply H. now left.
Qed.

(** A text without an opening or without a closing brace has no match. *)
Lemma search_braces_none (raw : str) :
  ~ In "{"%char raw \/ ~ In "}"%char raw -> Re.search_braces raw = None.
Proof.
  induction raw as [|c s IH]; simpl; [reflexivity|]. intros H.
  destruct (Re.is_lbrace c) eqn:E.
  - apply chr_eqb_eq in E. subst c. destruct H as [H|H].
    + exfalso. apply H. now left.
    + rewrite upto_last_rbrace_none; [reflexivity|].
      intros Hin. apply H. now right.
  - apply IH. destruct H as [H|H]; [left|right];
      intros Hin; apply H; now right.
Qed.

Lemma upto_last_rbrace_some (s : str) :
  In "}"%char s -> Re.upto_last_rbrace s <> None.
Proof.
  induction s as [|c s IH]; cbn [Re.upto_last_rbrace]; [intros []|].
  intros [->|H].
  - destruct (Re.upto_last_rbrace s); [discriminate|].
    change (Re.is_rbrace "}"%char) with true. discriminate.
  - destruct (Re.upto_last_rbrace s); [discriminate|]. now destruct (IH H).
Qed.

Lemma upto_last_rbrace_span (s t : str) :
  Re.upto_last_rbrace s = Some t ->
  exists body post,
    t = body ++ ["}"%char] /\ s = t ++ post /\ ~ In "}"%char post.
Proof.
  revert t. induction s as [|c s IH]; cbn [Re.upto_last_rbrace]; intros t;
    [discriminate|].
  destruct (Re.upto_last_rbrace s) as [t'|] eqn:E.
  - intros [= <-]. destruct (IH t' eq_refl) as (body & post & -> & Hs & Hp).
    exists (c :: body), post. repeat split; [|exact Hp].
    cbn [app]. f_equal. exact Hs.
  - destruct (Re.is_rbrace c) eqn:Ec; [|discriminate].
    intros [= <-]. apply chr_eqb_eq in Ec. subst c.
    exists [], s. repeat split.
    intros H. now apply (upto_last_rbrace_some _ H).
Qed.

(** What the pattern finds: the text from the first opening brace to the
    last closing brace. *)
Lemma search_braces_span (raw group : str) :
  Re.search_braces raw = Some group ->
  exists pre body post,
    raw = pre ++ group ++ post /\
    group = "{"%char :: body ++ ["}"%char] /\
    ~ In "{"%char pre /\ ~ In "}"%char post.
Proof.
  revert group. induction raw as [|c s IH]; cbn [Re.search_braces];
    intros group; [discriminate|].
  destruct (Re.is_lbrace c) eqn:Ec.
  - apply chr_eqb_eq in Ec. subst c.
    destruct (Re.upto_last_rbrace s) as [t|] eqn:E; [|discriminate].
    intros [= <-].
    destruct (upto_last_rbrace_span _ _ E) as (body & post & -> & Hs & Hp).
    exists [], body, post. repeat split; [|auto|exact Hp].
    cbn [app]. f_equal. exact Hs.
  - intros H. destruct (IH _ H) as (pre & body & post & -> & Hg & Hpre & Hp).
    exists (c :: pre), body, post. repeat split; [exact Hg| |exact Hp].
    intros [->|Hin]; [|now apply Hpre].
    unfold Re.is_lbrace, chr_eqb in Ec. now rewrite Ascii.eqb_refl in Ec.
Qed.

(** C4. For a content record and a text returned by the completion
    service: when the text parses, the outcome is built from the parsed
    value (the object with its stamps and defaults, or the wrapped error
    when the value cannot take them) and no recovery is attempted; when
    it does not parse and the pattern finds a brace-delimited substring
    that parses to an object, that object is returned with its stamps;
    when the pattern finds nothing or the substring does not parse, the
    call fails with a [ValueError] ([json.JSONDecodeError] is one); the
    substring runs from the first opening brace of the text to its last
    closing brace, and a text without braces has none. *)
Theorem generate_itinerary_parse_recover (cd : dict) (source_url : str)
    (d : option Z) (p : option str) (pr : prompt) (raw : str)
    (st : state W) (w' : W) :
  build_prompt (JDict cd) d p = inr pr ->
  chat_completions_create pr (world st) = (inr (Some raw), w') ->
  let outcome := fst (generate_itinerary (JDict cd) source_url d p st) in
  (forall v, json_loads raw = Some v ->
     outcome =
     match v with
     | JDict d0 =>
         if days_sized d0
         then inr (JDict (with_required_fields (stamped cd source_url d0)))
         else inl (ValueError generation_failed (Some TypeError))
     | _ => inl (ValueError generation_failed (Some TypeError))
     end) /\
  (json_loads raw = None ->
   forall group d0,
     Re.search_braces raw = Some group ->
     json_loads group = Some (JDict d0) ->
     outcome = inr (JDict (stamped cd source_url d0))) /\
  (json_loads raw = None ->
   Re.search_braces raw = None \/
   (exists group,
      Re.search_braces raw = Some group /\ json_loads group = None) ->
   exists e, outcome = inl e /\ is_ValueError e = true) /\
  (forall group,
     Re.search_braces raw = Some group ->
     exists pre body post,
       raw = pre ++ group ++ post /\
       group = "{"%char :: body ++ ["}"%char] /\
       ~ In "{"%char pre /\ ~ In "}"%char post) /\
  (~ In "{"%char raw \/ ~ In "}"%char raw -> Re.search_braces raw = None).
Proof.
  intros Hp Hc outcome. subst outcome.
  rewrite (generate_itinerary_response _ _ _ _ _ _ _ _ Hp Hc).
  cbn [fst]. unfold parse_response. repeat split.
  - intros v Hv. rewrite Hv.
    destruct v as [| | | | | |d0];
      try (rewrite stamp_source_not_dict by reflexivity; reflexivity).
    rewrite stamp_source_dict. cbn [rbind].
    rewrite <- (days_sized_stamped cd source_url d0).
    destruct (days_sized (stamped cd source_url d0)) eqn:Hs.
    + now rewrite (ensure_required_fields_eq _ Hs).
    + now rewrite (ensure_required_fields_unsized _ Hs).
  - intros Hn group d0 Hg Hd. rewrite Hn, Hg, Hd. apply stamp_source_dict.
  - intros Hn [Hg|(group & Hg & Hd)]; rewrite Hn, Hg.
    + eexists. split; reflexivity.
    + rewrite Hd. eexists. split; reflexivity.
  - apply search_braces_span.
  - apply search_braces_none.
Qed.

(** ** places_enrichment.py: one location *)

Lemma search_place_returns (query : str) (t : json) (st : state W) :
  exists v st', search_place query t st = (inr v, st').
Proof.
  unfold search_place. destruct (negb key_configured).
  - now exists JNull, st.
  - unfold bind at 1. unfold attempt.
    match goal with |- context [let (r, st') := ?c st in _] =>
      destruct (c st) as [[e|v] st1] end.
    + now exists JNull, st1.
    + now exists v, st1.
Qed.

Lemma get_place_details_returns (place_id : json) (st : state W) :
  exists v st', get_place_details place_id st = (inr v, st').
Proof.
  unfold get_place_details.
  destruct (negb key_configured || negb (truthy place_id)).
  - now exists JNull, st.
  - unfold bind at 1. unfold attempt.
    match goal with |- context [let (r, st') := ?c st in _] =>
      destruct (c st) as [[e|v] st1] end.
    + now exists JNull, st1.
    + now exists v, st1.
Qed.

(** Each assignment of lines 53-70 writes a key other than ['name']. *)
Ltac step_cases :=
  repeat match goal with
  | |- context [rbind ?c _] =>
      let r := fresh "r" in
      destruct c as [?|r] eqn:?; cbn [rbind];
      [intros H; discriminate H|]
  | |- context [if ?b then _ else _] => destruct b
  end.

Ltac step_done :=
  try (intros H; discriminate H);
  unfold py_setitem, ok;
  intros H; injection H as <-; eexists; split;
  [reflexivity | try rewrite get_set; keys; reflexivity].

Lemma set_address_keeps (details : json) : keeps_name (set_address details).
Proof. intros d l'. unfold set_address. step_cases; step_done. Qed.

Lemma set_coordinates_keeps (details : json) :
  keeps_name (set_coordinates details).
Proof. intros d l'. unfold set_coordinates. step_cases; step_done. Qed.

Lemma set_rating_keeps (details : json) : keeps_name (set_rating details).
Proof. intros d l'. unfold set_rating. step_cases; step_done. Qed.

Lemma set_price_level_keeps (details : json) :
  keeps_name (set_price_level details).
Proof. intros d l'. unfold set_price_level. step_cases; step_done. Qed.

Lemma set_google_maps_url_keeps (details : json) :
  keeps_name (set_google_maps_url details).
Proof. intros d l'. unfold set_google_maps_url. step_cases; step_done. Qed.

Lemma set_image_url_keeps (details : json) :
  keeps_name (set_image_url details).
Proof. intros d l'. unfold set_image_url. step_cases; step_done. Qed.

Lemma set_opening_hours_keeps (details : json) :
  keeps_name (set_opening_hours details).
Proof. intros d l'. unfold set_opening_hours. step_cases; step_done. Qed.

Lemma update_steps_keep (details : json) :
  Forall keeps_name (update_steps details).
Proof.
  unfold update_steps.
  repeat constructor;
    auto using set_address_keeps, set_coordinates_keeps, set_rating_keeps,
      set_price_level_keeps, set_google_maps_url_keeps, set_image_url_keeps,
      set_opening_hours_keeps.
Qed.

Lemma run_steps_keep (steps : list (json -> res json)) :
  Forall keeps_name steps ->
  forall d, exists d' e,
    run_steps steps (JDict d) = (JDict d', e) /\
    Dict.get "name"%string d' = Dict.get "name"%string d.
Proof.
  induction 1 as [|step steps Hs _ IH]; intros d; cbn [run_steps].
  - now exists d, None.
  - destruct (step (JDict d)) as [e|l'] eqn:E.
    + now exists d, (Some e).
    + destruct (Hs _ _ E) as (d1 & -> & Hn).
      destruct (IH d1) as (d' & e & Hr & Hn').
      exists d', e. split; [exact Hr|]. rewrite Hn'. exact Hn.
Qed.

Lemma on_error_dict (d : dict) (st : state W) :
  on_error (JDict d) st = (inr (JDict d), st).
Proof. reflexivity. Qed.

(** On a dict the function returns, whatever the directory answers; the
    result is a dict of the same name. *)
Lemma enrich_single_location_returns (d : dict) (destination : json)
    (st : state W) :
  exists d' st',
    enrich_single_location (JDict d) destination st = (inr (JDict d'), st') /\
    Dict.get "name"%string d' = Dict.get "name"%string d.
Proof.
  unfold enrich_single_location. destruct (negb key_configured).
  - now exists d, st.
  - unfold bind at 1. unfold attempt.
    destruct (find_details (JDict d) destination st) as [[e|details] st1].
    + rewrite on_error_dict. now exists d, st1.
    + destruct (truthy details); [|now exists d, st1].
      destruct (run_steps_keep _ (update_steps_keep details) d)
        as (d' & e & Hr & Hn).
      rewrite Hr. destruct e as [e|].
      * rewrite on_error_dict. now exists d', st1.
      * now exists d', st1.
Qed.

(** A lookup that fails leaves the location as it was. *)
Lemma enrich_single_location_lookup_failed (d : dict) (destination : json)
    (st : state W) :
  lookup_failed (JDict d) destination st = true ->
  enrich_single_location (JDict d) destination st
  = (inr (JDict d),
     if key_configured then snd (find_details (JDict d) destination st)
     else st).
Proof.
  unfold lookup_failed, enrich_single_location.
  destruct key_configured; [|reflexivity]. cbn [negb].
  unfold bind at 1. unfold attempt.
  destruct (find_details (JDict d) destination st) as [[e|details] st1];
    cbn [fst snd].
  - intros _. apply on_error_dict.
  - intros H. apply negb_true_iff in H. now rewrite H.
Qed.

(** An error of the text search, or of the details request, makes the
    lookup fail. *)
Lemma textsearch_error_lookup_failed (d : dict) (destination : json)
    (st : state W) (ty : option str) (e : exn) (w' : W) :
  key_configured = true ->
  type_param (type_of d) = inr ty ->
  places_textsearch (query_of d destination) ty (world st) = (inl e, w') ->
  lookup_failed (JDict d) destination st = true.
Proof.
  intros Hk Ht Hs. unfold lookup_failed, find_details.
  cbn [py_get]. fold (name_of d). fold (type_of d).
  unfold bind at 1. unfold lift at 1. unfold ok.
  unfold bind at 1. unfold lift at 1.
  fold (query_of d destination).
  unfold bind at 1. unfold search_place. rewrite Hk. cbn [negb].
  unfold bind at 1. unfold attempt.
  unfold bind at 1. unfold lift at 1. rewrite Ht.
  unfold bind at 1. unfold call. rewrite Hs. reflexivity.
Qed.

Lemma details_error_lookup_failed (d : dict) (destination : json)
    (st st1 : state W) (place_data place_id : json) (e : exn) (w2 : W) :
  search_place (query_of d destination) (type_of d) st
  = (inr place_data, st1) ->
  py_get place_data "place_id"%string JNull = inr place_id ->
  places_details place_id (world st1) = (inl e, w2) ->
  lookup_failed (JDict d) destination st = true.
Proof.
  intros Hs Hp Hd. unfold lookup_failed, find_details.
  cbn [py_get]. fold (name_of d). fold (type_of d).
  unfold bind at 1. unfold lift at 1. unfold ok.
  unfold bind at 1. unfold lift at 1.
  fold (query_of d destination).
  unfold bind at 1. rewrite Hs.
  destruct (truthy place_data); [|reflexivity].
  unfold bind at 1. unfold lift at 1. rewrite Hp.
  unfold get_place_details.
  destruct (negb key_configured || negb (truthy place_id)); [reflexivity|].
  unfold bind at 1. unfold attempt.
  unfold bind at 1. unfold call. rewrite Hd. reflexivity.
Qed.

(** ** places_enrichment.py: the two loops *)

Lemma mapM_returns {A B : Type} (f : A -> M W B) (R : A -> B -> Prop)
    (l : list A) :
  (forall x, In x l -> forall st, exists y st',
      f x st = (inr y, st') /\ R x y) ->
  forall st, exists ys st', mapM f l st = (inr ys, st') /\ Forall2 R l ys.
Proof.
  induction l as [|x l IH]; intros Hf st; cbn [mapM].
  - exists [], st. split; [reflexivity|constructor].
  - destruct (Hf x (or_introl eq_refl) st) as (y & st1 & Ey & Ry).
    destruct (IH (fun z Hz => Hf z (or_intror Hz)) st1)
      as (ys & st2 & Eys & Rys).
    exists (y :: ys), st2. split; [|now constructor].
    unfold bind at 1. rewrite Ey. unfold bind at 1. rewrite Eys.
    reflexivity.
Qed.

Lemma Forall2_nth_error {A B : Type} (R : A -> B -> Prop)
    (l : list A) (l' : list B) :
  Forall2 R l l' ->
  forall i x, nth_error l i = Some x ->
  exists y, nth_error l' i = Some y /\ R x y.
Proof.
  induction 1 as [|a b l l' Hab _ IH]; intros [|i] x; cbn [nth_error];
    try discriminate.
  - intros [= <-]. now exists b.
  - apply IH.
Qed.

Lemma Forall2_same_length {A B : Type} (R : A -> B -> Prop)
    (l : list A) (l' : list B) :
  Forall2 R l l' -> List.length l' = List.length l.
Proof. induction 1; cbn [List.length]; congruence. Qed.

Lemma enrich_day_returns (destination day : json) (st : state W) :
  wf_day day = true ->
  exists day' st',
    enrich_day destination day st = (inr day', st') /\
    day_enriched destination day day'.
Proof.
  unfold wf_day, list_field. destruct day as [| | | | | |dd]; try discriminate.
  intros Hwf.
  assert (Hl : (l <- py_get (JDict dd) "locations"%string (JList []) ;;
                py_iter l)%res = inr (locations_of (JDict dd)) /\
               forallb is_dict (locations_of (JDict dd)) = true).
  { unfold locations_of, items, field. cbn [py_get rbind ok].
    change (list_ascii_of_string "locations") with ("locations"%string : str) in *.
    destruct (Dict.get "locations"%string dd) as [[| | | | |l|]|];
      try discriminate; split; try reflexivity; exact Hwf. }
  destruct Hl as [Hl Hd].
  destruct (mapM_returns
              (fun location => enrich_single_location location destination)
              (location_enriched destination)
              (locations_of (JDict dd))) with (st := st)
    as (ys & st' & Ey & Ry).
  { intros x Hx st0. rewrite forallb_forall in Hd. specialize (Hd x Hx).
    destruct x as [| | | | | |d]; try discriminate.
    destruct (enrich_single_location_returns d destination st0)
      as (d' & st1 & E & Hn).
    exists (JDict d'), st1. split; [exact E|]. split; [|exact Hn].
    exists st0, st1. split; [exact E|]. intros Hf.
    rewrite (enrich_single_location_lookup_failed _ _ _ Hf) in E.
    congruence. }
  exists (JDict (Dict.set "locations"%string (JList ys) dd)), st'.
  split.
  - unfold enrich_day. unfold bind at 1. unfold lift at 1. rewrite Hl.
    unfold bind at 1. rewrite Ey. reflexivity.
  - split.
    + intros k Hk. cbn [get_field]. now apply get_set_other.
    + unfold locations_of at 2. unfold items, field.
      change (list_ascii_of_string "locations") with ("locations"%string : str).
      rewrite get_set_same. exact Ry.
Qed.

Lemma Forall2_diag {A : Type} (R : A -> A -> Prop) (l : list A) :
  (forall x, In x l -> R x x) -> Forall2 R l l.
Proof.
  induction l as [|x l IH]; intros H; constructor.
  - apply H. now left.
  - apply IH. intros y Hy. apply H. now right.
Qed.

(** Without a credential nothing is looked up and nothing changes. *)
Lemma location_enriched_no_key (destination l : json) (st : state W) :
  key_configured = false -> location_enriched destination l l.
Proof.
  intros Hk. split; [|reflexivity].
  exists st, st. split; [|reflexivity].
  unfold enrich_single_location. now rewrite Hk.
Qed.

Lemma store_days_days_of (itinerary : json) (days' : list json) :
  wf_itinerary itinerary = true ->
  List.length days' = List.length (days_of itinerary) ->
  days_of (store_days itinerary days') = days'.
Proof.
  unfold wf_itinerary, list_field, days_of, items, field, store_days.
  destruct itinerary as [| | | | | |d]; try discriminate.
  change (list_ascii_of_string "days") with ("days"%string : str).
  destruct (Dict.get "days"%string d) as [[| | | | |l|]|] eqn:E;
    try discriminate; intros _ Hlen.
  - now rewrite get_set_same.
  - rewrite E. destruct days'; [reflexivity|discriminate].
Qed.

Lemma enrich_locations_returns (itinerary : json) (st : state W) :
  wf_itinerary itinerary = true ->
  exists itinerary' st',
    enrich_locations itinerary st = (inr itinerary', st') /\
    Forall2 (day_enriched (destination_of itinerary))
            (days_of itinerary) (days_of itinerary').
Proof.
  intros Hwf. unfold enrich_locations.
  destruct key_configured eqn:Hk; cbn [negb].
  - assert (Hshape : exists d, itinerary = JDict d).
    { destruct itinerary; try discriminate. now eexists. }
    destruct Hshape as [d ->].
    assert (Hdays : (x <- py_get (JDict d) "days"%string (JList []) ;;
                     py_iter x)%res = inr (days_of (JDict d)) /\
                    forallb wf_day (days_of (JDict d)) = true).
    { revert Hwf. unfold wf_itinerary, list_field, days_of, items, field.
      cbn [py_get rbind ok].
      change (list_ascii_of_string "days") with ("days"%string : str).
      destruct (Dict.get "days"%string d) as [[| | | | |l|]|];
        try discriminate; intros Hwf; split; try reflexivity; exact Hwf. }
    destruct Hdays as [Hdays Hall].
    destruct (mapM_returns (enrich_day (destination_of (JDict d)))
                (day_enriched (destination_of (JDict d)))
                (days_of (JDict d))) with (st := st)
      as (days' & st' & Ed & Rd).
    { intros x Hx st0. rewrite forallb_forall in Hall.
      apply enrich_day_returns. now apply Hall. }
    exists (store_days (JDict d) days'), st'. split.
    + change (py_get (JDict d) "destination"%string (JStr []))
        with (inr (destination_of (JDict d)) : res json).
      unfold bind at 1. unfold lift at 1.
      unfold bind at 1. unfold lift at 1. rewrite Hdays.
      unfold bind at 1. rewrite Ed. reflexivity.
    + rewrite store_days_days_of; [exact Rd|exact Hwf|].
      apply (Forall2_same_length _ _ _ Rd).
  - exists itinerary, st. split; [reflexivity|].
    apply Forall2_diag. intros day _. split; [reflexivity|].
    apply Forall2_diag. intros l _.
    now apply (location_enriched_no_key _ _ st).
Qed.

(** The inner loop on locations that are dicts: it ends, and its run is
    the one [locations_run] describes. *)
Lemma locations_loop_run (destination : json) (ls : list json)
    (st : state W) :
  forallb is_dict ls = true ->
  exists ls' st',
    mapM (fun location => enrich_single_location location destination) ls st
    = (inr ls', st') /\
    locations_run destination st ls ls' st'.
Proof.
  revert st. induction ls as [|l ls IH]; intros st Hd; cbn [mapM].
  - exists [], st. split; [reflexivity|constructor].
  - cbn [forallb] in Hd. apply andb_true_iff in Hd as [Hl Hd].
    destruct l as [| | | | | |d]; try discriminate Hl.
    destruct (enrich_single_location_returns d destination st)
      as (d' & st1 & E & _).
    destruct (IH st1 Hd) as (ls' & st2 & Els & Rls).
    exists (JDict d' :: ls'), st2. split.
    + unfold bind at 1. rewrite E. unfold bind at 1. rewrite Els.
      reflexivity.
    + apply (locations_step E); [|exact Rls].
      intros Hf.
      rewrite (enrich_single_location_lookup_failed _ _ _ Hf) in E.
      congruence.
Qed.

Lemma enrich_day_run (destination day : json) (st : state W) :
  wf_day day = true ->
  exists day' st',
    enrich_day destination day st = (inr day', st') /\
    locations_run destination st (locations_of day) (locations_of day') st'.
Proof.
  unfold wf_day, list_field. destruct day as [| | | | | |dd]; try discriminate.
  intros Hwf.
  assert (Hl : (l <- py_get (JDict dd) "locations"%string (JList []) ;;
                py_iter l)%res = inr (locations_of (JDict dd)) /\
               forallb is_dict (locations_of (JDict dd)) = true).
  { unfold locations_of, items, field. cbn [py_get rbind ok].
    change (list_ascii_of_string "locations") with ("locations"%string : str) in *.
    destruct (Dict.get "locations"%string dd) as [[| | | | |l|]|];
      try discriminate; split; try reflexivity; exact Hwf. }
  destruct Hl as [Hl Hd].
  destruct (locations_loop_run destination _ st Hd) as (ys & st' & Ey & Ry).
  exists (JDict (Dict.set "locations"%string (JList ys) dd)), st'.
  split.
  - unfold enrich_day. unfold bind at 1. unfold lift at 1. rewrite Hl.
    unfold bind at 1. rewrite Ey. reflexivity.
  - unfold locations_of at 2. unfold items, field.
    change (list_ascii_of_string "locations") with ("locations"%string : str).
    rewrite get_set_same. exact Ry.
Qed.

Lemma days_loop_run (destination : json) (days : list json)
    (st : state W) :
  forallb wf_day days = true ->
  exists days' st',
    mapM (enrich_day destination) days st = (inr days', st') /\
    days_run destination st days days' st'.
Proof.
  revert st. induction days as [|day days IH]; intros st Hd; cbn [mapM].
  - exists [], st. split; [reflexivity|constructor].
  - cbn [forallb] in Hd. apply andb_true_iff in Hd as [Hday Hd].
    destruct (enrich_day_run destination day st Hday)
      as (day' & st1 & E & R).
    destruct (IH st1 Hd) as (days' & st2 & Eds & Rds).
    exists (day' :: days'), st2. split.
    + unfold bind at 1. rewrite E. unfold bind at 1. rewrite Eds.
      reflexivity.
    + exact (days_step R Rds).
Qed.

Lemma days_run_length (destination : json) (st st' : state W)
    (days days' : list json) :
  days_run destination st days days' st' ->
  List.length days' = List.length days.
Proof. induction 1; cbn [List.length]; congruence. Qed.

(** Without a credential the two loops are not entered; the run that
    visits every location and returns it is the run of
    [enrich_single_location] all the same. *)
Lemma locations_run_no_key (destination : json) (ls : list json)
    (st : state W) :
  key_configured = false -> locations_run destination st ls ls st.
Proof.
  intros Hk. induction ls as [|l ls IH]; [constructor|].
  apply (@locations_step destination st st st l l ls ls); [|reflexivity|exact IH].
  unfold enrich_single_location. now rewrite Hk.
Qed.

Lemma days_run_no_key (destination : json) (days : list json)
    (st : state W) :
  key_configured = false -> days_run destination st days days st.
Proof.
  intros Hk. induction days as [|day days IH]; [constructor|].
  apply (@days_step destination st st st day day days days); [|exact IH].
  now apply locations_run_no_key.
Qed.

(** C7. For every itinerary of the data model, and whatever the places
    directory answers or raises: the enrichment returns (it never
    raises), and its result is the outcome of the run of the two loops
    from the state it was started in.  In that run every location, in the
    order of the days and of their locations, is handed to
    [enrich_single_location] in the state the run has reached; the
    location stored at its place is what that call returned, and is the
    location unchanged whenever the lookup failed in that state; the run
    goes on with the next location from the state the call ended in.  An
    error raised by the text search or by the details request of a
    location, in whatever state, makes its lookup fail in that state. *)
Theorem enrich_locations_isolates_failures (itinerary : json)
    (st : state W) :
  wf_itinerary itinerary = true ->
  (exists itinerary' st',
     enrich_locations itinerary st = (inr itinerary', st') /\
     days_run (destination_of itinerary) st
       (days_of itinerary) (days_of itinerary') st') /\
  (forall d destination s ty e w',
     key_configured = true ->
     type_param (type_of d) = inr ty ->
     places_textsearch (query_of d destination) ty (world s) = (inl e, w') ->
     lookup_failed (JDict d) destination s = true) /\
  (forall d destination s s1 place_data place_id e w2,
     search_place (query_of d destination) (type_of d) s
     = (inr place_data, s1) ->
     py_get place_data "place_id"%string JNull = inr place_id ->
     places_details place_id (world s1) = (inl e, w2) ->
     lookup_failed (JDict d) destination s = true).
Proof.
  intros Hwf. split; [|split].
  - unfold enrich_locations.
    destruct key_configured eqn:Hk; cbn [negb].
    + assert (Hshape : exists d, itinerary = JDict d).
      { destruct itinerary; try discriminate. now eexists. }
      destruct Hshape as [d ->].
      assert (Hdays : (x <- py_get (JDict d) "days"%string (JList []) ;;
                       py_iter x)%res = inr (days_of (JDict d)) /\
                      forallb wf_day (days_of (JDict d)) = true).
      { revert Hwf. unfold wf_itinerary, list_field, days_of, items, field.
        cbn [py_get rbind ok].
        change (list_ascii_of_string "days") with ("days"%string : str).
        destruct (Dict.get "days"%string d) as [[| | | | |l|]|];
          try discriminate; intros Hwf; split; try reflexivity; exact Hwf. }
      destruct Hdays as [Hdays Hall].
      destruct (days_loop_run (destination_of (JDict d)) _ st Hall)
        as (days' & st' & Ed & Rd).
      exists (store_days (JDict d) days'), st'. split.
      * change (py_get (JDict d) "destination"%string (JStr []))
          with (inr (destination_of (JDict d)) : res json).
        unfold bind at 1. unfold lift at 1.
        unfold bind at 1. unfold lift at 1. rewrite Hdays.
        unfold bind at 1. rewrite Ed. reflexivity.
      * rewrite store_days_days_of; [exact Rd|exact Hwf|].
        apply (days_run_length _ _ _ _ _ Rd).
    + exists itinerary, st. split; [reflexivity|].
      now apply days_run_no_key.
  - intros. eapply textsearch_error_lookup_failed; eassumption.
  - intros. eapply details_error_lookup_failed; eassumption.
Qed.

(** C9. For every itinerary of the data model the enrichment returns an
    itinerary with as many days, in which the i-th day has every entry of
    the i-th day of the input other than its locations, and as many
    locations, the j-th of which is the enrichment of the j-th location
    of that day and bears its name. *)
Theorem enrich_locations_preserves_order (itinerary : json)
    (st : state W) :
  wf_itinerary itinerary = true ->
  exists itinerary' st',
    enrich_locations itinerary st = (inr itinerary', st') /\
    List.length (days_of itinerary') = List.length (days_of itinerary) /\
    forall i day,
      nth_error (days_of itinerary) i = Some day ->
      exists day',
        nth_error (days_of itinerary') i = Some day' /\
        (forall k, k <> list_ascii_of_string "locations" ->
                   get_field k day' = get_field k day) /\
        List.length (locations_of day') = List.length (locations_of day) /\
        forall j l,
          nth_error (locations_of day) j = Some l ->
          exists l',
            nth_error (locations_of day') j = Some l' /\
            enriched_from (destination_of itinerary) l l' /\
            field "name" l' = field "name" l.
Proof.
  intros Hwf.
  destruct (enrich_locations_returns itinerary st Hwf)
    as (it' & st' & E & R).
  exists it', st'. split; [exact E|]. split.
  - apply (Forall2_same_length _ _ _ R).
  - intros i day Hi.
    destruct (Forall2_nth_error _ _ _ R i day Hi) as (day' & Hi' & Hk & Hl).
    exists day'. split; [exact Hi'|]. split; [exact Hk|]. split.
    + apply (Forall2_same_length _ _ _ Hl).
    + intros j l Hj.
      destruct (Forall2_nth_error _ _ _ Hl j l Hj) as (l' & Hj' & He & Hn).
      exists l'. auto.
Qed.


(* ===================================================================== *)
(** * Further properties of the pipeline *)
(* ===================================================================== *)

(** ** places_enrichment.py: what one enrichment writes *)

Ltac frame_done :=
  try (intros H; discriminate H);
  unfold py_setitem, ok;
  intros H; injection H as <-; eexists; split;
  [reflexivity
  | intros k Hk; try (rewrite get_set_other by exact Hk); reflexivity].

Lemma set_address_writes (details : json) :
  writes_only "address"%string (set_address details).
Proof. intros d l'. unfold set_address. step_cases; frame_done. Qed.

Lemma set_coordinates_writes (details : json) :
  writes_only "coordinates"%string (set_coordinates details).
Proof. intros d l'. unfold set_coordinates. step_cases; frame_done. Qed.

Lemma set_rating_writes (details : json) :
  writes_only "rating"%string (set_rating details).
Proof. intros d l'. unfold set_rating. step_cases; frame_done. Qed.

Lemma set_price_level_writes (details : json) :
  writes_only "price_level"%string (set_price_level details).
Proof. intros d l'. unfold set_price_level. step_cases; frame_done. Qed.

Lemma set_google_maps_url_writes (details : json) :
  writes_only "google_maps_url"%string (set_google_maps_url details).
Proof. intros d l'. unfold set_google_maps_url. step_cases; frame_done. Qed.

Lemma set_image_url_writes (details : json) :
  writes_only "image_url"%string (set_image_url details).
Proof. intros d l'. unfold set_image_url. step_cases; frame_done. Qed.

Lemma set_opening_hours_writes (details : json) :
  writes_only "opening_hours"%string (set_opening_hours details).
Proof. intros d l'. unfold set_opening_hours. step_cases; frame_done. Qed.

(** A run of assignments keeps what every one of them keeps. *)
Lemma run_steps_invariant (P : dict -> Prop)
    (steps : list (json -> res json)) :
  Forall (fun step => forall d l', P d -> step (JDict d) = inr l' ->
                                   exists d', l' = JDict d' /\ P d') steps ->
  forall d, P d ->
  exists d' e, run_steps steps (JDict d) = (JDict d', e) /\ P d'.
Proof.
  induction 1 as [|step steps Hs _ IH]; intros d Hd; cbn [run_steps].
  - now exists d, None.
  - destruct (step (JDict d)) as [e|l'] eqn:E.
    + now exists d, (Some e).
    + destruct (Hs _ _ Hd E) as (d1 & -> & Hd1). now apply IH.
Qed.

Lemma writes_only_invariant (key : str) (step : json -> res json)
    (P : dict -> Prop) :
  writes_only key step ->
  (forall d d', P d -> (forall k, k <> key -> Dict.get k d' = Dict.get k d) ->
                P d') ->
  forall d l', P d -> step (JDict d) = inr l' ->
               exists d', l' = JDict d' /\ P d'.
Proof.
  intros Hw HP d l' Hd E. destruct (Hw _ _ E) as (d' & -> & Hk).
  exists d'. split; [reflexivity|]. now apply (HP d).
Qed.

(** What [enrich_single_location] returns on a dict, in terms of the run
    of the assignments. *)
Lemma enrich_single_location_invariant (P : dict -> Prop) (d : dict)
    (destination : json) (st : state W) :
  P d ->
  (forall details,
      Forall (fun step => forall d l', P d -> step (JDict d) = inr l' ->
                                       exists d', l' = JDict d' /\ P d')
             (update_steps details)) ->
  exists d' st',
    enrich_single_location (JDict d) destination st = (inr (JDict d'), st') /\
    P d'.
Proof.
  intros Hd Hsteps. unfold enrich_single_location.
  destruct (negb key_configured).
  - now exists d, st.
  - unfold bind at 1. unfold attempt.
    destruct (find_details (JDict d) destination st) as [[e|details] st1].
    + rewrite on_error_dict. now exists d, st1.
    + destruct (truthy details); [|now exists d, st1].
      destruct (run_steps_invariant P _ (Hsteps details) d Hd)
        as (d' & e & Hr & Hd').
      rewrite Hr. destruct e as [e|].
      * rewrite on_error_dict. now exists d', st1.
      * now exists d', st1.
Qed.

Lemma not_enriched_key (k key : str) :
  ~ In k enriched_keys -> In key enriched_keys -> k <> key.
Proof. intros Hk Hkey ->. contradiction. Qed.

(** X1. Whatever the places directory answers, the enrichment of a
    location changes no entry but those of the seven keys it assigns:
    the name, the type, the description, the tips and every other entry
    are returned as they were. *)
Theorem enrich_single_location_frame (d : dict) (destination : json)
    (st : state W) :
  exists d' st',
    enrich_single_location (JDict d) destination st = (inr (JDict d'), st') /\
    forall k, ~ In k enriched_keys -> Dict.get k d' = Dict.get k d.
Proof.
  apply (enrich_single_location_invariant
           (fun d' => forall k, ~ In k enriched_keys ->
                                Dict.get k d' = Dict.get k d)).
  - reflexivity.
  - intros details. unfold update_steps.
    repeat constructor;
      (eapply writes_only_invariant;
       [first [apply set_address_writes | apply set_coordinates_writes
              | apply set_rating_writes | apply set_price_level_writes
              | apply set_google_maps_url_writes | apply set_image_url_writes
              | apply set_opening_hours_writes]
       | intros d1 d2 H1 H2 k Hk; rewrite H2; [now apply H1|];
         apply (not_enriched_key _ _ Hk); unfold enriched_keys;
         cbn [In]; auto 10]).
Qed.

Lemma mapping_get_label (n : Z) (l : str) :
  mapping_get n price_mapping = Some l -> In l price_labels.
Proof.
  unfold price_labels, price_mapping. cbn [mapping_get].
  repeat match goal with
         | |- context [(n =? ?k)%Z] => destruct (n =? k)%Z
         end;
    intros H; try discriminate H; injection H as <-;
    cbn [map snd In]; auto 10.
Qed.

Lemma json_of_option_label (n : option Z) :
  is_price_label (json_of_option (convert_price_level n)).
Proof.
  destruct n as [n|]; cbn [convert_price_level]; [|now left].
  destruct (mapping_get n price_mapping) as [l|] eqn:E; [|now left].
  right. exists l. split; [now apply (mapping_get_label n)|reflexivity].
Qed.

Lemma convert_price_level_py_label (v p : json) :
  convert_price_level_py v = inr p -> is_price_label p.
Proof.
  destruct v as [| b | n | lit | s | l | d]; cbn [convert_price_level_py];
    unfold ok, err; intros H; try discriminate H;
    match type of H with
    | inr ?x = inr _ =>
        assert (Hp : p = x) by (now injection H); rewrite Hp; clear H Hp
    end;
    try apply json_of_option_label; try (now left).
  destruct (float_int_value lit); [apply json_of_option_label|now left].
Qed.

Lemma set_price_level_label (details : json) (d : dict) (l' : json) :
  set_price_level details (JDict d) = inr l' ->
  exists d' v, l' = JDict d' /\
               Dict.get "price_level"%string d' = Some v /\
               is_price_label v.
Proof.
  unfold set_price_level.
  destruct (py_get details "price_level"%string JNull) as [e|v];
    cbn [rbind]; [intros H; discriminate H|].
  destruct (convert_price_level_py v) as [e|p] eqn:E;
    cbn [rbind]; [intros H; discriminate H|].
  unfold py_setitem, ok. intros H; injection H as <-.
  eexists; exists p. split; [reflexivity|]. split.
  - apply get_set_same.
  - now apply (convert_price_level_py_label v).
Qed.

(** X2. After the enrichment of a location its price level is the one it
    had, or a value of the price table: None, 'Free' or one to four
    dollar signs.  No answer of the places directory makes it anything
    else. *)
Theorem enrich_single_location_price_level (d : dict) (destination : json)
    (st : state W) :
  exists d' st',
    enrich_single_location (JDict d) destination st = (inr (JDict d'), st') /\
    (Dict.get "price_level"%string d' = Dict.get "price_level"%string d \/
     exists v, Dict.get "price_level"%string d' = Some v /\
               is_price_label v).
Proof.
  apply (enrich_single_location_invariant
           (fun d' =>
              Dict.get "price_level"%string d'
              = Dict.get "price_level"%string d \/
              exists v, Dict.get "price_level"%string d' = Some v /\
                        is_price_label v)).
  - now left.
  - intros details. unfold update_steps.
    assert (Hkeep : forall key step,
               key <> list_ascii_of_string "price_level" ->
               writes_only key step ->
               forall d0 l',
                 (Dict.get "price_level"%string d0
                  = Dict.get "price_level"%string d \/
                  exists v, Dict.get "price_level"%string d0 = Some v /\
                            is_price_label v) ->
                 step (JDict d0) = inr l' ->
                 exists d', l' = JDict d' /\
                   (Dict.get "price_level"%string d'
                    = Dict.get "price_level"%string d \/
                    exists v, Dict.get "price_level"%string d' = Some v /\
                              is_price_label v)).
    { intros key step Hkey Hw d0 l' H0 E.
      destruct (Hw _ _ E) as (d' & -> & Hk).
      exists d'. split; [reflexivity|].
      rewrite (Hk (list_ascii_of_string "price_level"));
        [exact H0|congruence]. }
    repeat constructor.
    + eapply Hkeep; [|apply set_address_writes]; discriminate.
    + eapply Hkeep; [|apply set_coordinates_writes]; discriminate.
    + eapply Hkeep; [|apply set_rating_writes]; discriminate.
    + intros d0 l' _ E.
      destruct (set_price_level_label _ _ _ E) as (d' & v & -> & Hg & Hv).
      exists d'. split; [reflexivity|]. right. now exists v.
    + eapply Hkeep; [|apply set_google_maps_url_writes]; discriminate.
    + eapply Hkeep; [|apply set_image_url_writes]; discriminate.
    + eapply Hkeep; [|apply set_opening_hours_writes]; discriminate.
Qed.

(** ** places_enrichment.py: the requests sent *)

Lemma silent_ret {A : Type} (a : A) : silent (ret a : M W A).
Proof. intros st. reflexivity. Qed.

Lemma silent_raise {A : Type} (e : exn) : silent (raise e : M W A).
Proof. intros st. reflexivity. Qed.

Lemma silent_lift {A : Type} (r : res A) : silent (lift r : M W A).
Proof. intros st. reflexivity. Qed.

Lemma silent_bind {A B : Type} (c : M W A) (k : A -> M W B) :
  silent c -> (forall a, silent (k a)) -> silent (bind c k).
Proof.
  intros Hc Hk st. unfold bind. specialize (Hc st).
  destruct (c st) as [[e|a] st1]; cbn [snd] in *; subst st1;
    [reflexivity|apply Hk].
Qed.

Ltac silence :=
  repeat first
    [ apply silent_ret | apply silent_raise | apply silent_lift
    | apply silent_bind
    | match goal with
      | |- forall _, _ => intro
      | |- silent (if ?b then _ else _) => destruct b
      | |- silent (match ?x with _ => _ end) => destruct x
      end ].

(** A request followed by code that sends none. *)
Lemma bind_call_trace {R B : Type} (ev : event)
    (oracle : W -> res R * W) (k : R -> M W B) (st : state W) :
  (forall a, silent (k a)) ->
  trace (snd (bind (call ev oracle) k st)) = trace st ++ [ev].
Proof.
  intros Hk. unfold bind, call.
  destruct (oracle (world st)) as [[e|a] w']; [reflexivity|].
  now rewrite Hk.
Qed.

(** A guarded block followed by code that sends no request. *)
Lemma bind_attempt_snd {A B : Type} (c : M W A) (k : res A -> M W B)
    (st : state W) :
  (forall r, silent (k r)) ->
  snd (bind (attempt c) k st) = snd (c st).
Proof.
  intros Hk. unfold bind, attempt.
  destruct (c st) as [r st1]. cbn [snd]. apply Hk.
Qed.

Lemma requests_since_nil (st : state W) : requests_since st st [].
Proof. unfold requests_since. now rewrite app_nil_r. Qed.

Lemma requests_since_trans (st st1 st2 : state W) (e1 e2 : list event) :
  requests_since st st1 e1 -> requests_since st1 st2 e2 ->
  requests_since st st2 (e1 ++ e2).
Proof.
  unfold requests_since. intros H1 H2. now rewrite H2, H1, app_assoc.
Qed.

Lemma lookup_In (s v : str) (m : list (str * str)) :
  lookup s m = Some v -> In (s, v) m.
Proof.
  induction m as [|[k w] m IH]; cbn [lookup]; [discriminate|].
  destruct (str_eqb s k) eqn:E.
  - apply str_eqb_eq in E. intros H; injection H as ->. subst k. now left.
  - intros H. right. now apply IH.
Qed.

Lemma lookup_None (s : str) (m : list (str * str)) :
  lookup s m = None -> ~ In s (map fst m).
Proof.
  induction m as [|[k w] m IH]; cbn [lookup map fst In]; [tauto|].
  destruct (str_eqb s k) eqn:E; [discriminate|].
  intros H [Hk|Hin]; [|now apply IH].
  subst k. now rewrite str_eqb_refl in E.
Qed.

(** What [search_place] sends. *)
Lemma search_place_requests (query : str) (t : json) (st : state W) :
  search_place query t st = (inr JNull, st) \/
  exists ty, type_param t = inr ty /\
             requests_since st (snd (search_place query t st))
               [EvTextSearch query ty].
Proof.
  unfold search_place. destruct (negb key_configured).
  - now left.
  - destruct (type_param t) as [e|ty] eqn:Et.
    + now left.
    + rewrite bind_attempt_snd by silence.
      right. exists ty. split; [reflexivity|].
      unfold bind at 1. unfold lift at 1. unfold requests_since.
      apply bind_call_trace. silence.
Qed.

(** What [get_place_details] sends. *)
Lemma get_place_details_requests (place_id : json) (st : state W) :
  requests_since st (snd (get_place_details place_id st)) [] \/
  truthy place_id = true /\
  requests_since st (snd (get_place_details place_id st))
    [EvPlaceDetails place_id].
Proof.
  unfold get_place_details. destruct (negb key_configured); cbn [orb].
  - left. apply requests_since_nil.
  - destruct (truthy place_id); cbn [negb].
    + right. split; [reflexivity|].
      rewrite bind_attempt_snd by silence.
      unfold requests_since. apply bind_call_trace. silence.
    + left. apply requests_since_nil.
Qed.

(** What the search and the details fetch of a location send. *)
Lemma find_details_requests (d : dict) (destination : json)
    (st : state W) :
  requests_since st (snd (find_details (JDict d) destination st)) [] \/
  exists ty, type_param (type_of d) = inr ty /\
    (requests_since st (snd (find_details (JDict d) destination st))
       [EvTextSearch (query_of d destination) ty] \/
     exists place_id, truthy place_id = true /\
       requests_since st (snd (find_details (JDict d) destination st))
         [EvTextSearch (query_of d destination) ty;
          EvPlaceDetails place_id]).
Proof.
  remember (find_details (JDict d) destination st) as out eqn:Eout.
  unfold find_details in Eout. cbn [py_get] in Eout. unfold ok in Eout.
  unfold bind at 1 in Eout. unfold lift at 1 in Eout.
  unfold bind at 1 in Eout. unfold lift at 1 in Eout.
  fold (name_of d) in Eout. fold (type_of d) in Eout.
  fold (query_of d destination) in Eout.
  unfold bind at 1 in Eout.
  destruct (search_place_requests (query_of d destination) (type_of d) st)
    as [H0|(ty & Hty & H1)].
  { rewrite H0 in Eout. cbn in Eout. subst out. left.
    apply requests_since_nil. }
  destruct (search_place (query_of d destination) (type_of d) st)
    as [[e|place_data] st1]; cbn [snd] in *.
  { subst out. right. exists ty. split; [exact Hty|]. now left. }
  right. exists ty. split; [exact Hty|].
  destruct (truthy place_data); [|subst out; now left].
  unfold bind at 1 in Eout. unfold lift at 1 in Eout.
  destruct (py_get place_data "place_id"%string JNull) as [e|place_id].
  { subst out. now left. }
  subst out.
  destruct (get_place_details_requests place_id st1) as [H2|[Ht H2]].
  - left. apply (requests_since_trans _ _ _ _ _ H1 H2).
  - right. exists place_id. split; [exact Ht|].
    apply (requests_since_trans _ _ _ _ _ H1 H2).
Qed.

Lemma silent_on_error (location : json) : silent (on_error location).
Proof. unfold on_error. silence. Qed.

(** The requests of [enrich_single_location] are those of its search and
    details fetch. *)
Lemma enrich_single_location_snd (location destination : json)
    (st : state W) :
  key_configured = true ->
  snd (enrich_single_location location destination st)
  = snd (find_details location destination st).
Proof.
  intros Hk. unfold enrich_single_location. rewrite Hk. cbn [negb].
  apply bind_attempt_snd. intros r.
  destruct r as [e|details]; [apply silent_on_error|].
  destruct (truthy details); [|apply silent_ret].
  destruct (run_steps (update_steps details) location) as [l' [e|]];
    [apply silent_on_error|apply silent_ret].
Qed.

(** X3. The enrichment of a location sends at most two requests, in this
    order: one text search, for the name of the location followed by a
    space and the destination and with the type filter of its type; then
    one details request, for a place id that is not empty.  It never asks
    twice, and never asks for details without a search before. *)
Theorem enrich_single_location_requests (d : dict) (destination : json)
    (st : state W) :
  let st' := snd (enrich_single_location (JDict d) destination st) in
  requests_since st st' [] \/
  exists ty, type_param (type_of d) = inr ty /\
    (requests_since st st' [EvTextSearch (query_of d destination) ty] \/
     exists place_id, truthy place_id = true /\
       requests_since st st'
         [EvTextSearch (query_of d destination) ty;
          EvPlaceDetails place_id]).
Proof.
  cbn zeta. destruct key_configured eqn:Hk.
  - rewrite (enrich_single_location_snd _ _ _ Hk).
    apply find_details_requests.
  - left. unfold enrich_single_location. rewrite Hk. cbn [negb].
    apply requests_since_nil.
Qed.

Lemma type_param_table (t : json) (ty : option str) :
  type_param t = inr ty ->
  match ty with
  | Some v => exists s, t = JStr s /\ In (s, v) type_mapping
  | None => forall s, t = JStr s -> ~ In s (map fst type_mapping)
  end.
Proof.
  intros H. destruct ty as [v|].
  - unfold type_param in H.
    destruct (truthy t); [|unfold ok in H; congruence].
    destruct t as [| b | n | lit | s | l | dd]; unfold ok, err in H;
      try congruence.
    exists s. split; [reflexivity|]. apply lookup_In. congruence.
  - intros s ->. unfold type_param, truthy, py_truthy in H.
    destruct s as [|c s]; cbn [nonempty] in H.
    + unfold type_mapping. cbn [map fst In]. intuition discriminate.
    + apply lookup_None. unfold ok in H. congruence.
Qed.

(** X4. A text search carries a type filter exactly when the type of the
    location is one of restaurant, attraction, hotel, activity and
    neighborhood, and the filter is then the entry of the table for that
    type; for every other type the search is sent without a filter. *)
Theorem search_place_type_filter (query : str) (t : json) (st : state W) :
  search_place query t st = (inr JNull, st) \/
  exists ty,
    requests_since st (snd (search_place query t st))
      [EvTextSearch query ty] /\
    match ty with
    | Some v => exists s, t = JStr s /\ In (s, v) type_mapping
    | None => forall s, t = JStr s -> ~ In s (map fst type_mapping)
    end.
Proof.
  destruct (search_place_requests query t st) as [H|(ty & Hty & H)];
    [now left|].
  right. exists ty. split; [exact H|]. now apply type_param_table.
Qed.

Lemma mapM_requests {A B : Type} (f : A -> M W B) (c : A -> nat)
    (Q : event -> Prop) :
  (forall x st, exists evs,
      requests_since st (snd (f x st)) evs /\
      List.length evs <= c x /\ Forall Q evs) ->
  forall l st, exists evs,
      requests_since st (snd (mapM f l st)) evs /\
      List.length evs <= list_sum (map c l) /\ Forall Q evs.
Proof.
  intros Hf. induction l as [|x l IH]; intros st; cbn [mapM].
  - exists []. split; [apply requests_since_nil|].
    split; [apply Nat.le_0_l|constructor].
  - change (list_sum (map c (x :: l))) with (c x + list_sum (map c l)).
    unfold bind at 1.
    destruct (Hf x st) as (e1 & H1 & L1 & Q1).
    destruct (f x st) as [[e|y] st1]; cbn [snd] in *.
    + exists e1. split; [exact H1|]. split; [lia|exact Q1].
    + unfold bind at 1.
      destruct (IH st1) as (e2 & H2 & L2 & Q2).
      destruct (mapM f l st1) as [[e|ys] st2]; cbn [snd] in *.
      * exists (e1 ++ e2). split; [now apply (requests_since_trans _ st1)|].
        split; [rewrite length_app; lia|now apply Forall_app].
      * exists (e1 ++ e2). split; [now apply (requests_since_trans _ st1)|].
        split; [rewrite length_app; lia|now apply Forall_app].
Qed.

Lemma enrich_single_location_cost (location destination : json)
    (st : state W) :
  exists evs,
    requests_since st (snd (enrich_single_location location destination st))
      evs /\
    List.length evs <= location_cost location /\
    Forall places_request evs.
Proof.
  destruct key_configured eqn:Hk.
  - rewrite (enrich_single_location_snd _ _ _ Hk).
    destruct location as [| b | n | lit | s | l | d];
      try (exists []; split; [apply requests_since_nil|];
           split; [apply Nat.le_0_l|constructor]).
    destruct (find_details_requests d destination st)
      as [H|(ty & _ & [H|(place_id & _ & H)])].
    + exists []. split; [exact H|]. split; [apply Nat.le_0_l|constructor].
    + eexists. split; [exact H|].
      split; [cbn; lia|repeat constructor].
    + eexists. split; [exact H|].
      split; [cbn; lia|repeat constructor].
  - exists []. unfold enrich_single_location. rewrite Hk. cbn [negb].
    split; [apply requests_since_nil|].
    split; [apply Nat.le_0_l|constructor].
Qed.

Lemma items_listed (k : string) (d : dict) :
  items k (JDict d)
  = listed (match Dict.get (list_ascii_of_string k) d with
            | Some v => v
            | None => JList []
            end).
Proof.
  unfold items, field.
  destruct (Dict.get (list_ascii_of_string k) d) as [v|]; [|reflexivity].
  now destruct v.
Qed.

Lemma list_sum_zero {A : Type} (c : A -> nat) (l : list A) :
  (forall x, In x l -> c x = 0) -> list_sum (map c l) = 0.
Proof.
  induction l as [|x l IH]; intros H; [reflexivity|].
  change (list_sum (map c (x :: l))) with (c x + list_sum (map c l)).
  rewrite (H x (or_introl eq_refl)), IH; [reflexivity|].
  intros y Hy. apply H. now right.
Qed.

Lemma list_sum_bound {A : Type} (c : A -> nat) (n : nat) (l : list A) :
  (forall x, c x <= n) -> list_sum (map c l) <= n * List.length l.
Proof.
  intros H. induction l as [|x l IH]; [cbn; lia|].
  change (list_sum (map c (x :: l))) with (c x + list_sum (map c l)).
  cbn [List.length]. specialize (H x). lia.
Qed.

Lemma list_sum_scale {A : Type} (c : A -> nat) (n : nat) (l : list A) :
  list_sum (map (fun x => n * c x) l) = n * list_sum (map c l).
Proof.
  induction l as [|x l IH]; [cbn; lia|].
  change (list_sum (map (fun x => n * c x) (x :: l)))
    with (n * c x + list_sum (map (fun x => n * c x) l)).
  change (list_sum (map c (x :: l))) with (c x + list_sum (map c l)).
  lia.
Qed.

(** What a loop visits costs nothing unless it visits the items of a
    list. *)
Lemma py_iter_cost (c : json -> nat) (v : json) (l : list json) :
  (forall s, c (JStr s) = 0) ->
  py_iter v = inr l ->
  list_sum (map c l) <= list_sum (map c (listed v)).
Proof.
  intros Hc. destruct v as [| b | n | lit | s | l0 | d]; cbn [py_iter listed];
    unfold ok, err; intros H; try discriminate H; injection H as <-.
  - rewrite list_sum_zero; [apply Nat.le_0_l|].
    intros x Hx. apply in_map_iff in Hx. destruct Hx as (a & <- & _).
    apply Hc.
  - apply Nat.le_refl.
  - rewrite list_sum_zero; [apply Nat.le_0_l|].
    intros x Hx. apply in_map_iff in Hx. destruct Hx as (a & <- & _).
    apply Hc.
Qed.

Lemma enrich_day_cost (destination day : json) (st : state W) :
  exists evs,
    requests_since st (snd (enrich_day destination day st)) evs /\
    List.length evs <= 2 * List.length (locations_of day) /\
    Forall places_request evs.
Proof.
  unfold enrich_day.
  destruct day as [| b | n | lit | s | l | d];
    try (exists []; split; [apply requests_since_nil|];
         split; [apply Nat.le_0_l|constructor]).
  unfold locations_of. rewrite items_listed.
  cbn [py_get]. unfold ok. cbn [rbind].
  set (v := match Dict.get (list_ascii_of_string "locations") d with
            | Some v => v
            | None => JList []
            end).
  unfold bind at 1. unfold lift at 1.
  destruct (py_iter v) as [e|locations] eqn:Ei.
  - exists []. split; [apply requests_since_nil|].
    split; [apply Nat.le_0_l|constructor].
  - unfold bind at 1.
    destruct (mapM_requests
                (fun location => enrich_single_location location destination)
                location_cost places_request
                (fun x st0 => enrich_single_location_cost x destination st0)
                locations st) as (evs & H & L & Q).
    assert (Lv : List.length evs <= 2 * List.length (listed v)).
    { eapply Nat.le_trans; [exact L|].
      eapply Nat.le_trans;
        [apply (py_iter_cost location_cost v _ (fun s => eq_refl) Ei)|].
      apply list_sum_bound. intros x. unfold location_cost.
      destruct (is_dict x); lia. }
    destruct (mapM _ locations st) as [[e|ls] st1]; cbn [snd] in *.
    + now exists evs.
    + exists evs. split; [|now split].
      unfold lift. cbn [snd]. exact H.
Qed.

(** X5. The enrichment of an itinerary sends at most two requests for
    each location of its days, all of them to the places directory: no
    location is looked up again after a failure, and the completion
    service is not called. *)
Theorem enrich_locations_request_bound (itinerary : json) (st : state W) :
  exists evs,
    requests_since st (snd (enrich_locations itinerary st)) evs /\
    List.length evs <= 2 * total_locations itinerary /\
    Forall places_request evs.
Proof.
  unfold enrich_locations.
  destruct (negb key_configured).
  { exists []. split; [apply requests_since_nil|].
    split; [apply Nat.le_0_l|constructor]. }
  destruct itinerary as [| b | n | lit | s | l | d];
    try (exists []; split; [apply requests_since_nil|];
         split; [apply Nat.le_0_l|constructor]).
  unfold total_locations, days_of. rewrite items_listed.
  cbn [py_get]. unfold ok. cbn [rbind].
  set (v := match Dict.get (list_ascii_of_string "days") d with
            | Some v => v
            | None => JList []
            end).
  set (destination :=
         match Dict.get (list_ascii_of_string "destination") d with
         | Some v => v
         | None => JStr []
         end).
  unfold bind at 1. unfold lift at 1.
  unfold bind at 1. unfold lift at 1.
  destruct (py_iter v) as [e|days] eqn:Ei.
  - exists []. split; [apply requests_since_nil|].
    split; [apply Nat.le_0_l|constructor].
  - unfold bind at 1.
    destruct (mapM_requests (enrich_day destination)
                (fun day => 2 * List.length (locations_of day))
                places_request
                (fun x st0 => enrich_day_cost destination x st0)
                days st) as (evs & H & L & Q).
    assert (Lv : List.length evs
                 <= 2 * list_sum (map (fun day =>
                                         List.length (locations_of day))
                                      (listed v))).
    { eapply Nat.le_trans; [exact L|].
      rewrite <- list_sum_scale.
      apply (py_iter_cost (fun day => 2 * List.length (locations_of day))
               v _ (fun s => eq_refl) Ei). }
    destruct (mapM _ days st) as [[e|ds] st1]; cbn [snd] in *.
    + now exists evs.
    + now exists evs.
Qed.

Lemma store_days_other (itinerary : json) (days' : list json) (k : str) :
  k <> list_ascii_of_string "days" ->
  get_field k (store_days itinerary days') = get_field k itinerary.
Proof.
  intros Hk. unfold store_days.
  destruct itinerary as [| b | n | lit | s | l | d]; try reflexivity.
  destruct (Dict.get "days"%string d) as [[| b | n | lit | s | l | dd]|];
    try reflexivity.
  cbn [get_field]. now apply get_set_other.
Qed.

Lemma enrich_locations_result (itinerary itinerary' : json)
    (st : state W) :
  fst (enrich_locations itinerary st) = inr itinerary' ->
  itinerary' = itinerary \/
  exists days', itinerary' = store_days itinerary days'.
Proof.
  unfold enrich_locations. destruct (negb key_configured).
  - cbn. intros H. injection H as <-. now left.
  - unfold bind at 1. unfold lift at 1.
    destruct (py_get itinerary "destination"%string (JStr []))
      as [e|destination]; [intros H; discriminate H|].
    unfold bind at 1. unfold lift at 1.
    destruct (d <- py_get itinerary "days"%string (JList []);; py_iter d)%res
      as [e|days]; [intros H; discriminate H|].
    unfold bind at 1.
    destruct (mapM (enrich_day destination) days st) as [[e|days'] st1];
      [intros H; discriminate H|].
    cbn. intros H. injection H as <-. right. now exists days'.
Qed.

(** X6. Whatever the enrichment of an itinerary returns has every
    top-level entry of the input other than the days: the destination,
    the summary, the source stamps and the rest are passed through. *)
Theorem enrich_locations_frame (itinerary itinerary' : json)
    (st : state W) :
  fst (enrich_locations itinerary st) = inr itinerary' ->
  forall k, k <> list_ascii_of_string "days" ->
            get_field k itinerary' = get_field k itinerary.
Proof.
  intros H k Hk.
  destruct (enrich_locations_result _ _ _ H) as [->|(days' & ->)];
    [reflexivity|now apply store_days_other].
Qed.

(** ** ai_pipeline.py *)

(** The prompt is built for every content record that is a dict. *)
Lemma build_prompt_total (cd : dict) (d : option Z) (p : option str) :
  exists pr, build_prompt (JDict cd) d p = inr pr.
Proof.
  unfold build_prompt. cbn [py_get py_getitem]. unfold ok. cbn [rbind].
  destruct (Dict.get "transcript"%string cd) as [v|] eqn:E.
  - destruct (truthy v); cbn [rbind]; eexists; reflexivity.
  - replace (truthy JNull) with false by reflexivity.
    cbn [rbind]. eexists; reflexivity.
Qed.

Lemma build_prompt_error (content_data : json) (d : option Z)
    (p : option str) (e : exn) :
  build_prompt content_data d p = inl e ->
  is_dict content_data = false /\ e = AttributeError.
Proof.
  destruct content_data as [| b | n | lit | s | l | cd];
    try (cbn; intros H; injection H as <-; now split).
  destruct (build_prompt_total cd d p) as (pr & ->). discriminate.
Qed.

(** X7. [generate_itinerary] calls the completion service exactly once
    when the content record is a dict, with the prompt built from it, and
    whatever the service answers: there is no second attempt after a
    response that does not parse.  For any other content record it fails
    before any request is sent. *)
Theorem generate_itinerary_one_request (content_data : json)
    (source_url : str) (d : option Z) (p : option str) (st : state W) :
  match build_prompt content_data d p with
  | inr pr =>
      is_dict content_data = true /\
      requests_since st
        (snd (generate_itinerary content_data source_url d p st))
        [EvChatCompletion pr]
  | inl e =>
      is_dict content_data = false /\
      generate_itinerary content_data source_url d p st = (inl e, st)
  end.
Proof.
  destruct (build_prompt content_data d p) as [e|pr] eqn:Hp.
  - split; [apply (build_prompt_error _ _ _ _ Hp)|].
    unfold generate_itinerary. now rewrite Hp.
  - split; [apply (build_prompt_dict _ _ _ _ Hp)|].
    unfold generate_itinerary. rewrite Hp.
    unfold bind at 1. unfold lift at 1.
    rewrite bind_attempt_snd.
    + unfold requests_since, call.
      now destruct (chat_completions_create pr (world st)) as [r w'].
    + intros [e|[raw|]]; silence.
Qed.

Lemma parse_response_stamped (cd : dict) (source_url raw : str)
    (r : json) :
  parse_response (JDict cd) source_url raw = inr r ->
  exists rd, r = JDict rd /\
             Dict.get "source_url"%string rd = Some (JStr source_url) /\
             Dict.get "source_creator"%string rd = Some (creator_of cd).
Proof.
  assert (Hrec : forall result,
             stamp_source (JDict cd) source_url result = inr r ->
             exists rd, r = JDict rd /\
               Dict.get "source_url"%string rd = Some (JStr source_url) /\
               Dict.get "source_creator"%string rd = Some (creator_of cd)).
  { intros result. destruct (is_dict result) eqn:Hd.
    - destruct result; try discriminate Hd. rewrite stamp_source_dict.
      intros H; injection H as <-. eexists. split; [reflexivity|].
      split; [apply stamped_source_url|apply stamped_source_creator].
    - rewrite (stamp_source_not_dict _ _ _ Hd). discriminate. }
  unfold parse_response. destruct (json_loads raw) as [result|].
  - destruct (is_dict result) eqn:Hd.
    + destruct result as [| | | | | |d0]; try discriminate Hd.
      rewrite stamp_source_dict. cbn [rbind].
      destruct (days_sized (stamped cd source_url d0)) eqn:Hs.
      * rewrite (ensure_required_fields_eq _ Hs). unfold ok.
        intros H; injection H as <-. eexists. split; [reflexivity|].
        split; apply with_required_fields_keeps;
          [apply stamped_source_url|apply stamped_source_creator].
      * rewrite (ensure_required_fields_unsized _ Hs). discriminate.
    + rewrite (stamp_source_not_dict _ _ _ Hd). cbn [rbind]. discriminate.
  - destruct (Re.search_braces raw) as [group|]; [|discriminate].
    destruct (json_loads group) as [result|]; [|discriminate].
    apply Hrec.
Qed.

(** X8. Every itinerary [generate_itinerary] returns, by the strict parse
    or by the recovery, is a dict that carries the URL of the request
    under 'source_url' and the creator of the content record, or the
    empty string when it has none, under 'source_creator'. *)
Theorem generate_itinerary_stamps (content_data : json) (source_url : str)
    (d : option Z) (p : option str) (st : state W) (r : json) :
  fst (generate_itinerary content_data source_url d p st) = inr r ->
  exists cd rd,
    content_data = JDict cd /\ r = JDict rd /\
    Dict.get "source_url"%string rd = Some (JStr source_url) /\
    Dict.get "source_creator"%string rd = Some (creator_of cd).
Proof.
  unfold generate_itinerary. unfold bind at 1. unfold lift at 1.
  destruct (build_prompt content_data d p) as [e|pr] eqn:Hp;
    [intros H; discriminate H|].
  pose proof (build_prompt_dict _ _ _ _ Hp) as Hd.
  destruct content_data as [| | | | | |cd]; try discriminate Hd.
  unfold bind, attempt, call.
  destruct (chat_completions_create pr (world st)) as [[e|[raw|]] w'].
  - destruct (is_JSONDecodeError e); intros H; discriminate H.
  - unfold lift. cbn [fst]. intros H.
    destruct (parse_response_stamped _ _ _ _ H) as (rd & -> & H1 & H2).
    now exists cd, rd.
  - intros H; discriminate H.
Qed.

(** ** main.py: what the endpoint answers *)

Lemma py_get_error (o : json) (k : str) (v : json) (e : exn) :
  py_get o k v = inl e -> is_HTTPException e = false.
Proof. destruct o; cbn; intros H; inversion H; reflexivity. Qed.

Lemma py_setitem_error (o : json) (k : str) (v : json) (e : exn) :
  py_setitem o k v = inl e -> is_HTTPException e = false.
Proof. destruct o; cbn; intros H; inversion H; reflexivity. Qed.

Lemma py_iter_error (o : json) (e : exn) :
  py_iter o = inl e -> is_HTTPException e = false.
Proof. destruct o; cbn; intros H; inversion H; reflexivity. Qed.

Lemma stamp_source_error (content_data : json) (source_url : str)
    (result : json) (e : exn) :
  stamp_source content_data source_url result = inl e ->
  is_HTTPException e = false.
Proof.
  unfold stamp_source.
  destruct (py_setitem result "source_url"%string (JStr source_url))
    as [e1|r1] eqn:E1; cbn [rbind].
  { intros H; injection H as <-. now apply py_setitem_error in E1. }
  destruct (py_get content_data "creator"%string (JStr [])) as [e2|c] eqn:E2;
    cbn [rbind].
  { intros H; injection H as <-. now apply py_get_error in E2. }
  apply py_setitem_error.
Qed.

Lemma parse_response_error (content_data : json) (source_url raw : str)
    (e : exn) :
  parse_response content_data source_url raw = inl e ->
  is_HTTPException e = false.
Proof.
  unfold parse_response. destruct (json_loads raw) as [result|].
  - destruct (r <- stamp_source content_data source_url result;;
              ensure_required_fields r)%res; unfold ok, err;
      intros H; inversion H; reflexivity.
  - destruct (Re.search_braces raw) as [group|].
    + destruct (json_loads group) as [result|].
      * apply stamp_source_error.
      * unfold err. intros H; inversion H; reflexivity.
    + unfold err. intros H; inversion H; reflexivity.
Qed.

Lemma generate_itinerary_error (content_data : json) (source_url : str)
    (d : option Z) (p : option str) (st : state W) (e : exn) :
  fst (generate_itinerary content_data source_url d p st) = inl e ->
  is_HTTPException e = false.
Proof.
  unfold generate_itinerary. unfold bind at 1. unfold lift at 1.
  destruct (build_prompt content_data d p) as [e0|pr] eqn:Hp.
  { cbn [fst]. intros H; injection H as <-.
    now destruct (build_prompt_error _ _ _ _ Hp) as [_ ->]. }
  unfold bind, attempt, call.
  destruct (chat_completions_create pr (world st)) as [[e0|[raw|]] w'].
  - destruct (is_JSONDecodeError e0); cbn; intros H; inversion H;
      reflexivity.
  - unfold lift. cbn [fst]. apply parse_response_error.
  - cbn. intros H; inversion H; reflexivity.
Qed.

Lemma on_error_error (location : json) (st : state W) (e : exn) :
  fst (on_error location st) = inl e -> is_HTTPException e = false.
Proof.
  unfold on_error, bind, lift.
  destruct (py_get location "name"%string JNull) as [e0|v] eqn:E.
  - cbn [fst]. intros H; injection H as <-. now apply py_get_error in E.
  - discriminate.
Qed.

Lemma enrich_single_location_error (location destination : json)
    (st : state W) (e : exn) :
  fst (enrich_single_location location destination st) = inl e ->
  is_HTTPException e = false.
Proof.
  unfold enrich_single_location. destruct (negb key_configured).
  { discriminate. }
  unfold bind, attempt.
  destruct (find_details location destination st) as [[e0|details] st1].
  - apply on_error_error.
  - destruct (truthy details); [|discriminate].
    destruct (run_steps (update_steps details) location) as [l' [e0|]];
      [apply on_error_error|discriminate].
Qed.

Lemma mapM_error {A B : Type} (f : A -> M W B) (P : exn -> Prop) :
  (forall x st e, fst (f x st) = inl e -> P e) ->
  forall l st e, fst (mapM f l st) = inl e -> P e.
Proof.
  intros Hf. induction l as [|x l IH]; intros st e; cbn [mapM].
  - discriminate.
  - unfold bind at 1. specialize (Hf x st).
    destruct (f x st) as [[e0|y] st1]; cbn [fst] in *.
    + intros H; injection H as <-. now apply Hf.
    + unfold bind at 1. specialize (IH st1).
      destruct (mapM f l st1) as [[e1|ys] st2]; cbn [fst] in *.
      * intros H; injection H as <-. now apply IH.
      * discriminate.
Qed.

Lemma enrich_day_error (destination day : json) (st : state W) (e : exn) :
  fst (enrich_day destination day st) = inl e ->
  is_HTTPException e = false.
Proof.
  unfold enrich_day. unfold bind at 1. unfold lift at 1.
  destruct (py_get day "locations"%string (JList [])) as [e0|l] eqn:E0;
    cbn [rbind].
  { cbn [fst]. intros H; injection H as <-. now apply py_get_error in E0. }
  destruct (py_iter l) as [e1|locations] eqn:E1.
  { cbn [fst]. intros H; injection H as <-. now apply py_iter_error in E1. }
  unfold bind at 1.
  pose proof (mapM_error
                (fun location => enrich_single_location location destination)
                (fun e => is_HTTPException e = false)
                (fun x st0 e0 => enrich_single_location_error x destination
                                   st0 e0) locations st) as Hm.
  destruct (mapM _ locations st) as [[e2|ls] st1]; cbn [fst] in *.
  - intros H; injection H as <-. now apply Hm.
  - unfold lift. cbn [fst]. apply py_setitem_error.
Qed.

Lemma enrich_locations_error (itinerary : json) (st : state W) (e : exn) :
  fst (enrich_locations itinerary st) = inl e ->
  is_HTTPException e = false.
Proof.
  unfold enrich_locations. destruct (negb key_configured).
  { discriminate. }
  unfold bind at 1. unfold lift at 1.
  destruct (py_get itinerary "destination"%string (JStr []))
    as [e0|destination] eqn:E0.
  { cbn [fst]. intros H; injection H as <-. now apply py_get_error in E0. }
  unfold bind at 1. unfold lift at 1.
  destruct (py_get itinerary "days"%string (JList [])) as [e1|dv] eqn:E1;
    cbn [rbind].
  { cbn [fst]. intros H; injection H as <-. now apply py_get_error in E1. }
  destruct (py_iter dv) as [e2|days] eqn:E2.
  { cbn [fst]. intros H; injection H as <-. now apply py_iter_error in E2. }
  unfold bind at 1.
  pose proof (mapM_error (enrich_day destination)
                (fun e => is_HTTPException e = false)
                (enrich_day_error destination) days st) as Hm.
  destruct (mapM _ days st) as [[e3|ds] st1]; cbn [fst] in *.
  - intros H; injection H as <-. now apply Hm.
  - discriminate.
Qed.

(** The guarded block of the endpoint, lines 123-145. *)
Lemma extract_itinerary_unfold (request : TripRequest) (st : state W) :
  url_accepted (url request) = true ->
  env_set (getenv "OPENAI_API_KEY"%string) = true ->
  extract_itinerary request st
  = match extract_content_from_url (url request) st with
    | (inl e, st1) =>
        (inl (if is_HTTPException e then e
              else HTTPException 500 processing_error (Some e)), st1)
    | (inr content_data, st1) =>
        if negb (truthy content_data)
        then (inl (HTTPException 422 no_content_detail None), st1)
        else
          match generate_itinerary content_data (url request)
                  (trip_duration request) (preferences request) st1 with
          | (inl e, st2) =>
              (inl (if is_HTTPException e then e
                    else HTTPException 500 processing_error (Some e)), st2)
          | (inr itinerary, st2) =>
              if env_set (getenv "GOOGLE_PLACES_API_KEY"%string)
              then
                match enrich_locations itinerary st2 with
                | (inl e, st3) =>
                    (inl (if is_HTTPException e then e
                          else HTTPException 500 processing_error (Some e)),
                     st3)
                | (inr itinerary', st3) => (inr itinerary', st3)
                end
              else (inr itinerary, st2)
          end
    end.
Proof.
  intros Hu Hk. unfold extract_itinerary. unfold url_accepted in Hu.
  rewrite Hu, Hk. cbn [negb]. unfold bind, attempt, raise, ret.
  destruct (extract_content_from_url (url request) st)
    as [[e|content_data] st1].
  { now destruct (is_HTTPException e). }
  destruct (negb (truthy content_data)); [reflexivity|].
  destruct (generate_itinerary content_data (url request)
              (trip_duration request) (preferences request) st1)
    as [[e|itinerary] st2].
  { now destruct (is_HTTPException e). }
  destruct (env_set (getenv "GOOGLE_PLACES_API_KEY"%string));
    [|reflexivity].
  destruct (enrich_locations itinerary st2) as [[e|itinerary'] st3];
    [now destruct (is_HTTPException e)|reflexivity].
Qed.

Lemma extract_itinerary_failures (request : TripRequest) (st : state W)
    (e : exn) :
  (forall st0 e0,
      fst (extract_content_from_url (url request) st0) = inl e0 ->
      is_HTTPException e0 = false) ->
  fst (extract_itinerary request st) = inl e ->
  (url_accepted (url request) = false /\
   e = HTTPException 400 invalid_url_detail None /\
   snd (extract_itinerary request st) = st) \/
  (url_accepted (url request) = true /\
   ((e = HTTPException 500 no_key_detail None /\
     snd (extract_itinerary request st) = st) \/
    e = HTTPException 422 no_content_detail None \/
    exists cause,
      e = HTTPException 500 processing_error (Some cause) /\
      is_HTTPException cause = false)).
Proof.
  intros Hx H. destruct (url_accepted (url request)) eqn:Hu.
  - right. split; [reflexivity|].
    destruct (env_set (getenv "OPENAI_API_KEY"%string)) eqn:Hk.
    + rewrite (extract_itinerary_unfold _ _ Hu Hk) in H.
      specialize (Hx st).
      destruct (extract_content_from_url (url request) st)
        as [[e0|content_data] st1]; cbn [fst] in *.
      { rewrite (Hx e0 eq_refl) in H. injection H as <-.
        right. right. exists e0. split; [reflexivity|now apply Hx]. }
      destruct (negb (truthy content_data)).
      { injection H as <-. right. now left. }
      pose proof (generate_itinerary_error content_data (url request)
                    (trip_duration request) (preferences request) st1)
        as Hg.
      destruct (generate_itinerary content_data (url request)
                  (trip_duration request) (preferences request) st1)
        as [[e1|itinerary] st2]; cbn [fst] in *.
      { rewrite (Hg e1 eq_refl) in H. injection H as <-.
        right. right. exists e1. split; [reflexivity|now apply Hg]. }
      destruct (env_set (getenv "GOOGLE_PLACES_API_KEY"%string));
        [|discriminate H].
      pose proof (enrich_locations_error itinerary st2) as He.
      destruct (enrich_locations itinerary st2) as [[e2|it'] st3];
        cbn [fst] in *; [|discriminate H].
      rewrite (He e2 eq_refl) in H. injection H as <-.
      right. right. exists e2. split; [reflexivity|now apply He].
    + left. revert H. unfold extract_itinerary. unfold url_accepted in Hu.
      rewrite Hu, Hk. cbn. intros H; injection H as <-. now split.
  - left. split; [reflexivity|].
    revert H. unfold extract_itinerary. unfold url_accepted in Hu.
    rewrite Hu. cbn. intros H; injection H as <-. now split.
Qed.


Lemma extract_itinerary_result (request : TripRequest)
    (st : state W) (itinerary : json) :
  fst (extract_itinerary request st) = inr itinerary ->
  url_accepted (url request) = true /\
  env_set (getenv "OPENAI_API_KEY"%string) = true /\
  is_dict itinerary = true /\
  get_field "source_url"%string itinerary = Some (JStr (url request)).
Proof.
  intros H. destruct (url_accepted (url request)) eqn:Hu.
  2:{ revert H. unfold extract_itinerary. unfold url_accepted in Hu.
      rewrite Hu. discriminate. }
  destruct (env_set (getenv "OPENAI_API_KEY"%string)) eqn:Hk.
  2:{ revert H. unfold extract_itinerary. unfold url_accepted in Hu.
      rewrite Hu, Hk. discriminate. }
  split; [reflexivity|]. split; [reflexivity|].
  rewrite (extract_itinerary_unfold _ _ Hu Hk) in H.
  destruct (extract_content_from_url (url request) st)
    as [[e0|content_data] st1]; [discriminate H|].
  destruct (negb (truthy content_data)); [discriminate H|].
  pose proof (generate_itinerary_stamps content_data (url request)
                (trip_duration request) (preferences request) st1) as Hg.
  destruct (generate_itinerary content_data (url request)
              (trip_duration request) (preferences request) st1)
    as [[e1|r] st2]; [discriminate H|].
  destruct (Hg r eq_refl) as (cd & rd & _ & -> & Hs & _).
  destruct (env_set (getenv "GOOGLE_PLACES_API_KEY"%string)).
  - pose proof (enrich_locations_result (JDict rd) itinerary st2) as Hr.
    destruct (enrich_locations (JDict rd) st2) as [[e2|it'] st3];
      [discriminate H|].
    cbn [fst] in *. injection H as ->.
    destruct (Hr eq_refl) as [->|(days' & ->)].
    + now split.
    + split.
      * unfold store_days.
        now destruct (Dict.get "days"%string rd) as [[]|].
      * rewrite store_days_other; [exact Hs|discriminate].
  - cbn [fst] in H. injection H as <-. now split.
Qed.

(** X10. Every itinerary the endpoint returns is a dict that carries the
    URL of the request under 'source_url', with or without enrichment;
    and a request is only answered with an itinerary when its URL passed
    the domain test and the OpenAI key is set. *)
Theorem extract_itinerary_source_url (request : TripRequest)
    (st : state W) (itinerary : json) :
  fst (extract_itinerary request st) = inr itinerary ->
  url_accepted (url request) = true /\
  env_set (getenv "OPENAI_API_KEY"%string) = true /\
  is_dict itinerary = true /\
  get_field "source_url"%string itinerary = Some (JStr (url request)).
Proof. apply extract_itinerary_result. Qed.

(** X11. The URL test of the serverless endpoint accepts exactly the URLs
    in which the resolver recognises a platform.  The test of main.py
    accepts exactly those among them that are not recognised by the short
    domain 'youtu.be' alone; so what it accepts always reaches one of the
    three extractors. *)
Theorem url_accepted_classified (u : str) :
  (api_url_accepted u = true <-> exists p, spec_classify u = Some p) /\
  (url_accepted u = true <->
   exists p, spec_classify u = Some p /\
             (p = LongVideo ->
              contains "youtube.com"%string (lower u) = true)).
Proof.
  unfold url_accepted, api_url_accepted, valid_domains, api_valid_domains,
    spec_classify, platform_order, find, platform_matches, platform_domains,
    existsb.
  destruct (contains "tiktok.com"%string (lower u));
    destruct (contains "vm.tiktok.com"%string (lower u));
    destruct (contains "instagram.com"%string (lower u));
    destruct (contains "youtube.com"%string (lower u));
    destruct (contains "youtu.be"%string (lower u));
    cbn [orb];
    (split; split; intros H;
     try reflexivity;
     try (eexists; split;
          [reflexivity|intros E; first [reflexivity|discriminate E]]);
     try (eexists; reflexivity);
     try (destruct H as (p & H & H');
          first [discriminate H
                | injection H as <-; apply H'; reflexivity]);
     try (destruct H as (p & H); discriminate H);
     try discriminate H).
Qed.

(** ** The helpers outside the request pipeline *)

Lemma py_slice5_len (o v : json) :
  py_slice5 o = inr v -> exists n, py_len v = inr n /\ (n <= 5)%Z.
Proof.
  destruct o as [| b | n | lit | s | l | d]; cbn [py_slice5];
    unfold ok, err; intros H; try discriminate H.
  - assert (E : v = JStr (firstn 5 s)) by congruence. subst v.
    eexists. split; [reflexivity|].
    pose proof (firstn_le_length 5 s). lia.
  - assert (E : v = JList (firstn 5 l)) by congruence. subst v.
    eexists. split; [reflexivity|].
    pose proof (firstn_le_length 5 l). lia.
Qed.

(** X14. [get_nearby_places] never raises and never returns more than
    five items, whatever the places directory answers; without a key, or
    when the request fails or is not answered with the status OK, it
    returns the empty list. *)
Theorem get_nearby_places_at_most_five (lat lng place_type radius : json)
    (st : state W) :
  exists v st',
    get_nearby_places lat lng place_type radius st = (inr v, st') /\
    (exists n, py_len v = inr n /\ (n <= 5)%Z) /\
    (key_configured = false -> v = JList [] /\ st' = st) /\
    (forall e w',
        places_nearbysearch (py_str lat ++ ","%string ++ py_str lng)
          radius place_type (world st) = (inl e, w') ->
        v = JList []).
Proof.
  assert (Hnil : exists n, py_len (JList []) = inr n /\ (n <= 5)%Z).
  { exists 0%Z. split; [reflexivity|lia]. }
  unfold get_nearby_places. destruct key_configured; cbn [negb].
  2:{ exists (JList []), st. split; [reflexivity|]. split; [exact Hnil|].
      split; [now split|reflexivity]. }
  unfold bind, attempt, ask, lift, ret.
  destruct (places_nearbysearch (py_str lat ++ ","%string ++ py_str lng)
              radius place_type (world st)) as [[e|data] w'].
  { eexists; eexists. split; [reflexivity|]. split; [exact Hnil|].
    split; [discriminate|reflexivity]. }
  destruct (py_get data "status"%string JNull) as [e|status].
  { eexists; eexists. split; [reflexivity|]. split; [exact Hnil|].
    split; discriminate. }
  destruct (py_eq_str status "OK"%string).
  2:{ eexists; eexists. split; [reflexivity|]. split; [exact Hnil|].
      split; discriminate. }
  destruct (results <- py_get data "results"%string (JList []);;
            py_slice5 results)%res as [e|v] eqn:E.
  { eexists; eexists. split; [reflexivity|]. split; [exact Hnil|].
    split; discriminate. }
  exists v. eexists. split; [reflexivity|]. split; [|split; discriminate].
  destruct (py_get data "results"%string (JList [])) as [e|results];
    cbn [rbind] in E; [discriminate E|].
  now apply (py_slice5_len results).
Qed.

Lemma update_truthy_get (e d : dict) (k : str) :
  Dict.get k (update_truthy d e) = Dict.get k d \/
  exists v, Dict.get k (update_truthy d e) = Some v /\
            truthy v = true /\ In (k, v) e.
Proof.
  unfold update_truthy. revert d.
  induction e as [|[k0 v0] e IH]; intros d; cbn [fold_left fst snd].
  - now left.
  - destruct (IH (if truthy v0 then Dict.set k0 v0 d else d))
      as [H|(v & H & Hv & Hin)].
    + rewrite H. destruct (truthy v0) eqn:Ht; [|now left].
      rewrite get_set. destruct (str_eqb k k0) eqn:Ek; [|now left].
      apply str_eqb_eq in Ek. subst k0.
      right. exists v0. split; [reflexivity|]. split; [exact Ht|now left].
    + right. exists v. split; [exact H|]. split; [exact Hv|now right].
Qed.

(** X15. [enhance_location] never raises.  On a location that is a dict
    it returns a dict in which every entry is the one of the location or
    an entry of the decoded answer whose value is true: an empty string,
    a zero or a null in the answer never replaces what the location
    holds.  When the request fails or the answer is not a JSON object the
    location is returned as it was. *)
Theorem enhance_location_keeps (d : dict) (destination : json)
    (st : state W) :
  exists d' st',
    enhance_location (JDict d) destination st = (inr (JDict d'), st') /\
    (forall k,
        Dict.get k d' = Dict.get k d \/
        exists v, Dict.get k d' = Some v /\ truthy v = true) /\
    (forall content w',
        chat_enhance (py_str destination) (py_str (name_of d))
          (py_str (type_of d))
          (py_str (match Dict.get "description"%string d with
                   | Some v => v
                   | None => JStr []
                   end)) (world st) = (content, w') ->
        (forall e, (c <- content ;; loads_content c)%res <> inr (JDict e)) ->
        d' = d).
Proof.
  unfold enhance_location. cbn [py_get]. unfold ok.
  fold (name_of d). fold (type_of d).
  unfold bind, attempt, ask, lift, ret.
  destruct (chat_enhance (py_str destination) (py_str (name_of d))
              (py_str (type_of d))
              (py_str (match Dict.get "description"%string d with
                       | Some v => v
                       | None => JStr []
                       end)) (world st)) as [[e|content] w'].
  { exists d. eexists. split; [reflexivity|]. split; [now left|reflexivity]. }
  destruct (loads_content content) as [e|enhancements] eqn:El;
    cbn [rbind].
  { exists d. eexists. split; [reflexivity|]. split; [now left|reflexivity]. }
  destruct enhancements as [| b | n | lit | s | l | e];
    cbn [py_update_truthy]; unfold err, ok;
    try (exists d; eexists; split; [reflexivity|];
         split; [now left|reflexivity]).
  exists (update_truthy d e). eexists. split; [reflexivity|]. split.
  - intros k. destruct (update_truthy_get e d k) as [H|(v & H & Hv & _)];
      [now left|right; now exists v].
  - intros content0 w0 H Hno. injection H as <- <-.
    cbn [rbind] in Hno. rewrite El in Hno. now destruct (Hno e).
Qed.


(** ** api/extract.py *)



(** ** content_extractor.py: the cleaned text *)

(** X24. Cleaning subtitles invents no text: every character of the
    result is a character of the input or a space, the spaces being
    those that join the lines and those that stand for the entity
    nbsp. *)
Theorem clean_subtitles_characters (content format : str) :
  Forall (fun c => In c content \/ c = " "%char)
         (clean_subtitles content format).
Proof.
  apply Forall_forall. intros c Hc. unfold clean_subtitles in Hc.
  apply join_In in Hc as [Hc|(l & Hl & Hc)].
  - right. destruct Hc as [<-|[]]. reflexivity.
  - apply text_lines_of_In in Hl as (line & Hline & Hclean).
    destruct (clean_line_In _ _ _ Hclean Hc) as [H|H]; [|now right].
    left. destruct (split_infix _ _ _ Hline) as (a & b & ->).
    apply in_or_app. right. apply in_or_app. now left.
Qed.
End Pipeline.

(* ===================================================================== *)
(** * The pipeline on concrete inputs *)
(* ===================================================================== *)

(** C2, at the failing input. The same object, sent once as JSON and once
    after a sentence of prose: the strict parse returns it with the two
    stamps and the four defaults; the recovery returns it with the two
    stamps only, so that ['days'], ['duration_days'], ['packing_tips']
    and ['local_phrases'] are missing from an itinerary that was
    successfully produced. *)
Theorem generate_itinerary_recovery_omits_defaults :
  let run text :=
    fst (generate_itinerary Sample.str_of_value Sample.float_truthy
           JsonDecoder.loads (Sample.chat_says text)
           Sample.content_record Sample.source None None
           (mkState tt [])) in
  (exists r,
     run Sample.object_text = inr r /\
     field "source_url" r = Some (JStr Sample.source) /\
     field "source_creator" r = Some (JStr "@x"%string) /\
     field "days" r = Some (JList []) /\
     field "duration_days" r = Some (JInt 0) /\
     field "packing_tips" r = Some (JList []) /\
     field "local_phrases" r = Some (JList [])) /\
  (exists r,
     run Sample.chatty_text = inr r /\
     field "source_url" r = Some (JStr Sample.source) /\
     field "source_creator" r = Some (JStr "@x"%string) /\
     field "days" r = None /\
     field "duration_days" r = None /\
     field "packing_tips" r = None /\
     field "local_phrases" r = None).
Proof.
  cbv zeta. split; eexists; (split; [vm_compute; reflexivity|]);
    repeat split; reflexivity.
Qed.

(** C3, at the failing input. A location with an address, a rating and a
    price tier is matched by the directory, whose details carry an
    address and neither a rating nor a price tier: the address is
    overwritten, and the rating and the price tier are set to [None]. *)
Theorem enrich_single_location_nulls_price_level :
  let location := Sample.location "Kanda Matsuya" "$" in
  let outcome :=
    fst (enrich_single_location Sample.str_of_value Sample.float_truthy
           Sample.float_int_value Sample.places_key
           Sample.textsearch Sample.details
           location (JStr "Tokyo, Japan"%string) (mkState 1 [])) in
  field "rating" location = Some (JFloat "4.6"%string) /\
  field "price_level" location = Some (JStr "$"%string) /\
  exists location',
    outcome = inr location' /\
    field "address" location'
    = Some (JStr "1-22-7 Jinnan, Shibuya City, Tokyo"%string) /\
    field "rating" location' = Some JNull /\
    field "price_level" location' = Some JNull.
Proof.
  cbv zeta. split; [reflexivity|]. split; [reflexivity|].
  eexists. split; [vm_compute; reflexivity|]. repeat split; reflexivity.
Qed.

(** A response that is prose followed by an object: the text does
    not parse, the pattern finds the object, and the object is returned
    with its stamps. *)
Lemma generate_itinerary_parse_recover_witness :
  JsonDecoder.loads Sample.chatty_text = None /\
  Re.search_braces Sample.chatty_text = Some Sample.object_text /\
  fst (generate_itinerary Sample.str_of_value Sample.float_truthy
         JsonDecoder.loads (Sample.chat_says Sample.chatty_text)
         Sample.content_record Sample.source (Some 3%Z) None
         (mkState tt []))
  = inr (JDict
           [ (list_ascii_of_string "destination",
              JStr "Paris, France"%string);
             (list_ascii_of_string "source_url", JStr Sample.source);
             (list_ascii_of_string "source_creator", JStr "@x"%string) ]).
Proof.
  split; [vm_compute; reflexivity|]. split; [vm_compute; reflexivity|].
  edestruct (generate_itinerary_parse_recover
               unit Sample.str_of_value Sample.float_truthy
               JsonDecoder.loads (Sample.chat_says Sample.chatty_text)
               Sample.content_dict Sample.source (Some 3%Z) None
               (mkPrompt "tiktok"%string "@x"%string "Tokyo eats"%string
                  "..."%string [] (duration_instruction (Some 3%Z))
                  (preferences_instruction None))
               Sample.chatty_text (mkState tt []) tt)
    as (_ & H & _); [reflexivity|reflexivity|].
  exact (H eq_refl Sample.object_text _ eq_refl eq_refl).
Defined.

(** Idempotence fails on a cue made of a number in italics: the first
    pass removes the tags and keeps "42", the second drops the line as a
    cue index. *)
Lemma clean_subtitles_not_idempotent :
  clean_subtitles (clean_subtitles "<i>42</i>"%string "vtt"%string) "vtt"%string
  <> clean_subtitles "<i>42</i>"%string "vtt"%string.
Proof. vm_compute. discriminate. Qed.

Lemma clean_subtitles_idempotent_plain_witness :
  clean_subtitles Sample.webvtt "vtt"%string
  = list_ascii_of_string "Welcome to Tokyo first stop: Shibuya" /\
  clean_subtitles (clean_subtitles Sample.webvtt "vtt"%string) "vtt"%string
  = clean_subtitles Sample.webvtt "vtt"%string.
Proof.
  split; [vm_compute; reflexivity|].
  apply (clean_subtitles_idempotent_plain Sample.webvtt).
  - vm_compute. intros H.
    repeat (destruct H as [H|H]; [discriminate H|]). exact H.
  - vm_compute. reflexivity.
Defined.

Lemma convert_price_level_table_witness :
  convert_price_level (Some 7%Z) = None.
Proof.
  apply (proj2 (proj2 (proj2 (proj2 (proj2 (proj2
           convert_price_level_table)))))).
  right. reflexivity.
Defined.

(** The enrichment of the sample itinerary from the world in which no
    request has been served: the text search of the first location fails
    with a network error, and that location is stored as it was; the
    enrichment goes on and returns. *)
Lemma enrich_locations_isolates_failures_witness :
  wf_itinerary Sample.itinerary = true /\
  exists itinerary' st' day' days' locations',
    enrich_locations Sample.str_of_value Sample.float_truthy
      Sample.float_int_value Sample.places_key
      Sample.textsearch Sample.details
      Sample.itinerary (mkState 0 [])
    = (inr itinerary', st') /\
    days_of itinerary' = day' :: days' /\
    locations_of day'
    = Sample.location "Ichiran Ramen Shibuya" "$$" :: locations'.
Proof.
  split; [reflexivity|].
  destruct (enrich_locations_isolates_failures
              nat Sample.str_of_value Sample.float_truthy
              Sample.float_int_value Sample.places_key
              Sample.textsearch Sample.details
              Sample.itinerary (mkState 0 []) eq_refl)
    as [(itinerary' & st' & E & R) _].
  change (days_of Sample.itinerary)
    with [Sample.day 1 [Sample.location "Ichiran Ramen Shibuya" "$$";
                        Sample.location "Kanda Matsuya" "$"];
          Sample.day 2 [Sample.location "Sushi Dai" "$$$"]] in R.
  inversion R as [|s0 s1 s2 day day' days days' Hl Hd Es Ed Ed']; subst.
  change (locations_of
            (Sample.day 1 [Sample.location "Ichiran Ramen Shibuya" "$$";
                           Sample.location "Kanda Matsuya" "$"]))
    with [Sample.location "Ichiran Ramen Shibuya" "$$";
          Sample.location "Kanda Matsuya" "$"] in Hl.
  inversion Hl as [|t0 t1 t2 l l' ls ls' Hrun Hkeep Hrest Et El El'].
  exists itinerary', st', day', days', ls'.
  split; [exact E|]. split; [congruence|].
  rewrite <- El'. now rewrite (Hkeep eq_refl).
Defined.

Lemma enrich_locations_preserves_order_witness :
  wf_itinerary Sample.itinerary = true /\
  exists itinerary' st',
    enrich_locations Sample.str_of_value Sample.float_truthy
      Sample.float_int_value Sample.places_key
      Sample.textsearch Sample.details
      Sample.itinerary (mkState 0 [])
    = (inr itinerary', st') /\
    List.length (days_of itinerary') = 2.
Proof.
  split; [reflexivity|].
  destruct (enrich_locations_preserves_order
              nat Sample.str_of_value Sample.float_truthy
              Sample.float_int_value Sample.places_key
              Sample.textsearch Sample.details
              Sample.itinerary (mkState 0 []) eq_refl)
    as (itinerary' & st' & E & Hlen & _).
  exists itinerary', st'. split; [exact E|exact Hlen].
Defined.

(* ===================================================================== *)
(** * Creator names in URLs: properties *)
(* ===================================================================== *)

Lemma take_while_split (keep : ascii -> bool) (s : str) :
  exists b,
    s = take_while keep s ++ b /\
    forallb keep (take_while keep s) = true /\
    match b with
    | [] => True
    | c :: _ => keep c = false
    end.
Proof.
  induction s as [|c s (b & Hs & Hk & Hb)]; cbn [take_while].
  - exists []. now split.
  - destruct (keep c) eqn:E.
    + exists b. cbn [app forallb]. rewrite E, Hk.
      split; [now rewrite <- Hs|now split].
    + exists (c :: s). now split.
Qed.

Lemma startswith_skipn (p s : str) :
  startswith p s = true -> s = p ++ skipn (List.length p) s.
Proof.
  revert s. induction p as [|a p IH]; intros s; [reflexivity|].
  destruct s as [|b s]; cbn [startswith]; [discriminate|].
  intros H. apply andb_true_iff in H as [H1 H2].
  apply chr_eqb_eq in H1. subst b.
  cbn [List.length skipn app]. now rewrite <- IH.
Qed.

Lemma search_name_after (lit s g : str) :
  search_name lit s = Some g -> name_after lit s g.
Proof.
  induction s as [|c s IH].
  - cbn [search_name]. destruct (startswith lit []) eqn:E.
    + unfold name_at.
      destruct (take_while_split name_char (skipn (List.length lit) []))
        as (b & Hs & Hk & Hb).
      destruct (take_while name_char (skipn (List.length lit) []))
        as [|x g'] eqn:Et; [discriminate|].
      intros H; injection H as <-.
      split; [discriminate|]. split; [exact Hk|].
      exists [], b. cbn [app]. split; [|exact Hb].
      rewrite (startswith_skipn _ _ E) at 1. now rewrite Hs at 1.
    + discriminate.
  - cbn [search_name]. destruct (startswith lit (c :: s)) eqn:E.
    + unfold name_at.
      destruct (take_while_split name_char
                  (skipn (List.length lit) (c :: s)))
        as (b & Hs & Hk & Hb).
      destruct (take_while name_char (skipn (List.length lit) (c :: s)))
        as [|x g'] eqn:Et.
      * intros H. destruct (IH H) as (N & K & a & b' & -> & Hb').
        split; [exact N|]. split; [exact K|].
        now exists (c :: a), b'.
      * intros H; injection H as <-.
        split; [discriminate|]. split; [exact Hk|].
        exists [], b. cbn [app]. split; [|exact Hb].
        rewrite (startswith_skipn _ _ E) at 1. now rewrite Hs at 1.
    + intros H. destruct (IH H) as (N & K & a & b' & -> & Hb').
      split; [exact N|]. split; [exact K|].
      now exists (c :: a), b'.
Qed.

Lemma first_match_after (patterns : list str) (url g : str) :
  first_match patterns url = Some g ->
  exists lit, In lit patterns /\ name_after lit url g.
Proof.
  induction patterns as [|lit rest IH]; cbn [first_match]; [discriminate|].
  destruct (search_name lit url) as [g'|] eqn:E.
  - intros H; injection H as <-. exists lit.
    split; [now left|now apply search_name_after].
  - intros H. destruct (IH H) as (lit' & Hin & Hn).
    exists lit'. split; [now right|exact Hn].
Qed.

(** X12. The creator [extract_creator_from_url] reads off a URL is the
    empty string, or an at sign followed by a name that is not empty,
    holds neither a slash nor a question mark, and stands in the URL
    right after one of the four patterns and up to the next slash or
    question mark or the end of the URL. *)
Theorem extract_creator_from_url_shape (url : str) :
  extract_creator_from_url url = [] \/
  exists lit name,
    extract_creator_from_url url = "@"%char :: name /\
    In lit creator_patterns /\ name_after lit url name.
Proof.
  unfold extract_creator_from_url.
  destruct (first_match creator_patterns url) as [g|] eqn:E; [|now left].
  right. destruct (first_match_after _ _ _ E) as (lit & Hin & Hn).
  now exists lit, g.
Qed.

(** X13. The two creator extractors agree: whenever the serverless
    endpoint finds a creator, the backend finds the same one; and when
    the serverless endpoint finds none, the backend finds none either or
    reads the name off a channel link, the one pattern the serverless
    endpoint lacks. *)
Theorem extract_creator_agree (url : str) :
  match _extract_creator url with
  | Some c => extract_creator_from_url url = c
  | None =>
      extract_creator_from_url url = [] \/
      exists name,
        search_name "youtube.com/channel/"%string url = Some name /\
        extract_creator_from_url url = "@"%char :: name
  end.
Proof.
  unfold _extract_creator, extract_creator_from_url, api_creator_patterns,
    creator_patterns. cbn [first_match].
  destruct (search_name (list_ascii_of_string "tiktok.com/@") url);
    [reflexivity|].
  destruct (search_name (list_ascii_of_string "instagram.com/") url);
    [reflexivity|].
  destruct (search_name (list_ascii_of_string "youtube.com/@") url);
    [reflexivity|].
  destruct (search_name (list_ascii_of_string "youtube.com/channel/") url)
    as [name|]; [|now left].
  right. now exists name.
Qed.

(* ===================================================================== *)
(** * content_extractor.py: properties of the extractors *)
(* ===================================================================== *)

Lemma startswith_prefix (p x : str) : startswith p (p ++ x) = true.
Proof.
  induction p as [|a p IH]; [reflexivity|].
  cbn [app startswith]. rewrite IH.
  now rewrite (proj2 (chr_eqb_eq a a) eq_refl).
Qed.

Lemma startswith_contains (p s : str) :
  startswith p s = true -> contains p s = true.
Proof. intros H. destruct s; cbn [contains]; now rewrite H. Qed.

(** A domain that stands in a URL in lower case is found in the
    lowercased URL. *)
Lemma contains_lower (domain tail a b : str) :
  lower domain = domain ->
  contains domain (lower (a ++ (domain ++ tail) ++ b)) = true.
Proof.
  intros Hd. unfold lower in *. rewrite !map_app, Hd.
  apply contains_app_r. rewrite <- app_assoc.
  apply startswith_contains, startswith_prefix.
Qed.

Lemma classified_of_match (u : str) (p : platform) :
  platform_matches u p = true -> exists p', spec_classify u = Some p'.
Proof.
  intros H. unfold spec_classify, platform_order, find.
  destruct (platform_matches u ShortVideo) eqn:E1; [now eexists|].
  destruct (platform_matches u SecondPlatform) eqn:E2; [now eexists|].
  destruct (platform_matches u LongVideo) eqn:E3; [now eexists|].
  destruct p; congruence.
Qed.

(** X25. A creator is only ever read off a URL in which the resolver
    recognises a platform: for every URL, [extract_creator_from_url]
    returns the empty string or the URL is classified.  The converse
    fails, the patterns being matched against the URL as written and the
    domains against the URL in lower case. *)
Theorem extract_creator_classified (url : str) :
  extract_creator_from_url url = [] \/
  exists p, spec_classify url = Some p.
Proof.
  unfold extract_creator_from_url.
  destruct (first_match creator_patterns url) as [g|] eqn:E; [|now left].
  right.
  destruct (first_match_after _ _ _ E)
    as (lit & Hin & _ & _ & a & b & -> & _).
  unfold creator_patterns in Hin. cbn [In] in Hin.
  destruct Hin as [<-|[<-|[<-|[<-|[]]]]].
  - apply (classified_of_match _ ShortVideo).
    unfold platform_matches, platform_domains. cbn [existsb].
    change (list_ascii_of_string "tiktok.com/@")
      with (list_ascii_of_string "tiktok.com" ++ list_ascii_of_string "/@").
    rewrite (contains_lower "tiktok.com"%string "/@"%string a (g ++ b)
               eq_refl).
    reflexivity.
  - apply (classified_of_match _ SecondPlatform).
    unfold platform_matches, platform_domains. cbn [existsb].
    change (list_ascii_of_string "instagram.com/")
      with (list_ascii_of_string "instagram.com" ++ list_ascii_of_string "/").
    rewrite (contains_lower "instagram.com"%string "/"%string a (g ++ b)
               eq_refl).
    reflexivity.
  - apply (classified_of_match _ LongVideo).
    unfold platform_matches, platform_domains. cbn [existsb].
    change (list_ascii_of_string "youtube.com/@")
      with (list_ascii_of_string "youtube.com" ++ list_ascii_of_string "/@").
    rewrite (contains_lower "youtube.com"%string "/@"%string a (g ++ b)
               eq_refl).
    reflexivity.
  - apply (classified_of_match _ LongVideo).
    unfold platform_matches, platform_domains. cbn [existsb].
    change (list_ascii_of_string "youtube.com/channel/")
      with (list_ascii_of_string "youtube.com" ++ list_ascii_of_string "/channel/").
    rewrite (contains_lower "youtube.com"%string "/channel/"%string a
               (g ++ b) eq_refl).
    reflexivity.
Qed.

(** Comparisons of literal keys are decided by evaluation. *)
Ltac literal_keys :=
  repeat match goal with
  | |- context [str_eqb ?a ?b] =>
      let v := eval vm_compute in (str_eqb a b) in
      match v with
      | true => change (str_eqb a b) with true
      | false => change (str_eqb a b) with false
      end
  end.

Section ExtractorProperties.

Variable W : Type.
Variable float_truthy : str -> bool.
Variable json_loads : str -> option json.
Variable run_ytdlp : str -> W -> res (Z * str) * W.
Variable http_get : json -> option str -> W -> res (Z * str) * W.
Variable ld_json_scripts : str -> list (option str).
Variable find_meta : str -> str -> str -> option (option str).

Lemma fetch_first_transcript (subs : list json) (st st' : state W)
    (v : json) :
  ContentExtractor.fetch_first http_get subs st = (inr v, st') ->
  ContentExtractor.transcript_ok v.
Proof.
  revert st. induction subs as [|sub rest IH]; intros st;
    cbn [ContentExtractor.fetch_first].
  - unfold ret. intros H; injection H as <- _. now left.
  - unfold bind at 1. unfold lift at 1.
    destruct (py_get sub "ext"%string JNull) as [e|ext];
      [intros H; discriminate H|].
    destruct (ContentExtractor.text_format ext) as [format|]; [|apply IH].
    unfold bind at 1. unfold lift at 1.
    destruct (py_getitem sub "url"%string) as [e|u];
      [intros H; discriminate H|].
    unfold bind at 1. unfold ask.
    destruct (http_get u None (world st)) as [[e|[code text]] w'];
      [intros H; discriminate H|].
    cbn [fst snd]. destruct (code =? 200)%Z; [|apply IH].
    unfold ret. intros H; injection H as <- _.
    right. eexists. split; [reflexivity|].
    unfold clean_subtitles. apply cleaned_lines_no_newline.
Qed.

Lemma fetch_first_silent (subs : list json) (st : state W) :
  Forall ContentExtractor.not_text_track subs ->
  exists r,
    ContentExtractor.fetch_first http_get subs st = (r, st) /\
    (r = inr JNull \/ exists e, r = inl e).
Proof.
  induction 1 as [|sub rest Hsub _ IH];
    cbn [ContentExtractor.fetch_first].
  { exists (inr JNull). split; [reflexivity|now left]. }
  unfold bind at 1. unfold lift at 1.
  destruct (py_get sub "ext"%string JNull) as [e|ext] eqn:E.
  - exists (inl e). split; [reflexivity|]. right. now exists e.
  - rewrite (Hsub ext E). exact IH.
Qed.

(** X18. [fetch_subtitles] never raises.  It returns [None] or a text
    that holds no newline: what is handed on as a transcript is always on
    one line.  When no track of the list is in one of the formats vtt,
    srt, txt and json3, it returns [None] and nothing is downloaded. *)
Theorem fetch_subtitles_transcript (subtitle_info : json) (st : state W) :
  exists v st',
    ContentExtractor.fetch_subtitles http_get subtitle_info st
    = (inr v, st') /\
    ContentExtractor.transcript_ok v /\
    (Forall ContentExtractor.not_text_track (listed subtitle_info) ->
     v = JNull /\ st' = st).
Proof.
  unfold ContentExtractor.fetch_subtitles. unfold bind at 1.
  unfold attempt. unfold bind at 1. unfold lift at 1.
  destruct (py_iter subtitle_info) as [e|subs] eqn:Ei.
  { exists JNull, st. split; [reflexivity|]. split; [now left|now split]. }
  destruct (ContentExtractor.fetch_first http_get subs st)
    as [[e|v] st1] eqn:Ef.
  - exists JNull, st1. split; [reflexivity|]. split; [now left|].
    intros Hn. split; [reflexivity|].
    assert (Hs : Forall ContentExtractor.not_text_track subs).
    { destruct subtitle_info as [| b | n | lit | s | l | d];
        cbn [py_iter] in Ei; unfold ok, err in Ei; try discriminate Ei;
        injection Ei as <-; [| exact Hn |];
        apply Forall_forall; intros x Hx; apply in_map_iff in Hx;
        destruct Hx as (a & <- & _); intros ext Hext; discriminate Hext. }
    destruct (fetch_first_silent subs st Hs) as (r & H & _).
    rewrite H in Ef. congruence.
  - exists v, st1. split; [reflexivity|].
    split; [apply (fetch_first_transcript _ _ _ _ Ef)|].
    intros Hn.
    assert (Hs : Forall ContentExtractor.not_text_track subs).
    { destruct subtitle_info as [| b | n | lit | s | l | d];
        cbn [py_iter] in Ei; unfold ok, err in Ei; try discriminate Ei;
        injection Ei as <-; [| exact Hn |];
        apply Forall_forall; intros x Hx; apply in_map_iff in Hx;
        destruct Hx as (a & <- & _); intros ext Hext; discriminate Hext. }
    destruct (fetch_first_silent subs st Hs) as (r & H & [->|(e' & ->)]);
      rewrite H in Ef; split; congruence.
Qed.

(** A guarded block whose handler returns [None]. *)
Lemma guarded_returns (c : M W json) (st : state W) :
  exists v st',
    (r <~ attempt c ;;
     match r with
     | inr v => ret v
     | inl _ => ret JNull
     end)%M st = (inr v, st') /\
    (c st = (inr v, st') \/ v = JNull /\ exists e, c st = (inl e, st')).
Proof.
  unfold bind, attempt, ret.
  destruct (c st) as [[e|v] st1].
  - exists JNull, st1. split; [reflexivity|]. right. split; [reflexivity|].
    now exists e.
  - exists v, st1. split; [reflexivity|now left].
Qed.

Lemma fetch_subtitles_returns (subtitle_info : json) (st : state W) :
  exists v st',
    ContentExtractor.fetch_subtitles http_get subtitle_info st
    = (inr v, st') /\
    ContentExtractor.transcript_ok v.
Proof.
  unfold ContentExtractor.fetch_subtitles.
  destruct (guarded_returns
              (subs <~ lift (py_iter subtitle_info) ;;
               ContentExtractor.fetch_first http_get subs)%M st)
    as (v & st' & E & [H|[-> _]]).
  - exists v, st'. split; [exact E|].
    revert H. unfold bind, lift.
    destruct (py_iter subtitle_info) as [e|subs];
      [intros H; discriminate H|].
    apply fetch_first_transcript.
  - exists JNull, st'. split; [exact E|now left].
Qed.

Lemma transcript_of_ok (langs : list str) (subs : json)
    (st st' : state W) (v : json) :
  ContentExtractor.transcript_of http_get langs subs st = (inr v, st') ->
  ContentExtractor.transcript_ok v.
Proof.
  unfold ContentExtractor.transcript_of. unfold bind, lift.
  destruct (ContentExtractor.first_language langs subs) as [e|[info|]];
    [intros H; discriminate H| |].
  - destruct (fetch_subtitles_returns info st) as (v0 & st0 & E & Hv).
    rewrite E. intros H. injection H as <- _. exact Hv.
  - unfold ret. intros H. injection H as <- _. now left.
Qed.

Lemma youtube_record_shape (stdout : str) (st st' : state W) (v : json) :
  ContentExtractor.youtube_record float_truthy json_loads http_get stdout st
  = (inr v, st') ->
  exists d t,
    v = JDict d /\
    ContentExtractor.content_record_of "youtube" v /\
    Dict.get "transcript"%string d = Some t /\
    ContentExtractor.transcript_ok t.
Proof.
  unfold ContentExtractor.youtube_record.
  unfold bind at 1. unfold lift at 1.
  destruct (ContentExtractor.loads json_loads stdout) as [e|data];
    [intros H; discriminate H|].
  destruct data as [| b | n | lit | s | l | dd];
    try (intros H; discriminate H).
  cbn [py_get]. unfold ok. cbn [rbind].
  unfold bind at 1. unfold lift at 1.
  unfold bind at 1. unfold lift at 1.
  unfold bind at 1.
  match goal with
  | |- context [if ?b then ?c1 else ?c2] =>
      assert (Ht : forall t st1,
                 (if b then c1 else c2) st = (inr t, st1) ->
                 ContentExtractor.transcript_ok t);
      [|destruct ((if b then c1 else c2) st) as [[e|t] st1];
        [intros H; discriminate H|]]
  end.
  { intros t st1. destruct (ContentExtractor.truthy _ _).
    - unfold bind at 1. unfold lift at 1.
      unfold bind at 1. unfold lift at 1.
      apply transcript_of_ok.
    - unfold ret. intros H. injection H as <- _. now left. }
  unfold lift. intros H. injection H as <- _.
  eexists; exists t. split; [reflexivity|]. split.
  - right. eexists. split; [reflexivity|].
    cbn [Dict.get]. unfold Dict.has. cbn [Dict.get]. literal_keys.
    repeat split; reflexivity.
  - split; [|exact (Ht t st1 eq_refl)].
    cbn [Dict.get]. literal_keys. reflexivity.
Qed.

Lemma extract_youtube_spec (url : str) (st : state W) :
  exists v st',
    ContentExtractor.extract_youtube float_truthy json_loads run_ytdlp
      http_get url st = (inr v, st') /\
    ContentExtractor.content_record_of "youtube" v /\
    (forall d, v = JDict d ->
               exists t, Dict.get "transcript"%string d = Some t /\
                         ContentExtractor.transcript_ok t) /\
    (forall code out w',
        run_ytdlp url (world st) = (inr (code, out), w') ->
        code <> 0%Z -> v = JNull).
Proof.
  unfold ContentExtractor.extract_youtube.
  match goal with
  | |- context [attempt ?c] =>
      destruct (guarded_returns c st) as (v & st' & E & Hc)
  end.
  exists v, st'. split; [exact E|].
  destruct Hc as [H|[-> (e & H)]].
  - revert H. unfold bind at 1. unfold ask.
    destruct (run_ytdlp url (world st)) as [[e|[code out]] w'];
      [intros H; discriminate H|].
    cbn [fst snd]. destruct (code =? 0)%Z eqn:Ec; cbn [negb].
    + intros H.
      destruct (youtube_record_shape _ _ _ _ H) as (d & t & -> & Hr & Hg & Ht).
      split; [exact Hr|]. split.
      * intros d0 Hd. injection Hd as <-. now exists t.
      * intros code0 out0 w0 H0 Hne. injection H0 as <- _ _.
        apply Z.eqb_eq in Ec. contradiction.
    + unfold ret. intros H. injection H as <- _.
      split; [now left|]. split; [discriminate|reflexivity].
  - split; [now left|]. split; [discriminate|reflexivity].
Qed.

(** X19. [extract_youtube] never raises.  It returns [None] or a record
    of the platform 'youtube' with a title, a description, a transcript
    and a creator; the transcript is [None] or a text on one line.  When
    yt-dlp ends with a return code other than 0 the result is [None]. *)
Theorem extract_youtube_record (url : str) (st : state W) :
  exists v st',
    ContentExtractor.extract_youtube float_truthy json_loads run_ytdlp
      http_get url st = (inr v, st') /\
    ContentExtractor.content_record_of "youtube" v /\
    (forall d, v = JDict d ->
               exists t, Dict.get "transcript"%string d = Some t /\
                         ContentExtractor.transcript_ok t) /\
    (forall code out w',
        run_ytdlp url (world st) = (inr (code, out), w') ->
        code <> 0%Z -> v = JNull).
Proof. apply extract_youtube_spec. Qed.

Lemma instagram_record_shape (url : str) (st st' : state W) (v : json) :
  ContentExtractor.instagram_record json_loads run_ytdlp url st
  = (inr (Some v), st') ->
  exists d,
    v = JDict d /\
    ContentExtractor.content_record_of "instagram" v /\
    Dict.get "transcript"%string d = Some JNull.
Proof.
  unfold ContentExtractor.instagram_record. unfold bind, ask.
  destruct (run_ytdlp url (world st)) as [[e|[code out]] w'];
    [intros H; discriminate H|].
  cbn [fst snd]. destruct (code =? 0)%Z; [|intros H; discriminate H].
  unfold lift.
  destruct (ContentExtractor.loads json_loads out) as [e|data];
    [intros H; discriminate H|].
  destruct data as [| b | n | lit | s | l | dd];
    try (intros H; discriminate H).
  cbn [rbind py_get]. unfold ok. cbn [rbind].
  intros H. injection H as <- _.
  eexists. split; [reflexivity|]. split.
  - right. eexists. split; [reflexivity|].
    cbn [Dict.get]. unfold Dict.has. cbn [Dict.get]. literal_keys.
    repeat split; reflexivity.
  - cbn [Dict.get]. literal_keys. reflexivity.
Qed.

Lemma instagram_page_spec (url : str) (st : state W) :
  exists v st',
    ContentExtractor.instagram_page http_get find_meta url st
    = (inr v, st') /\
    ContentExtractor.content_record_of "instagram" v /\
    (forall d, v = JDict d ->
               Dict.get "transcript"%string d = Some JNull) /\
    (forall code html w',
        http_get (JStr url) (Some ContentExtractor.iphone_webkit)
          (world st) = (inr (code, html), w') ->
        exists d,
          v = JDict d /\
          Dict.get "creator"%string d
          = Some (JStr (extract_creator_from_url url))).
Proof.
  unfold ContentExtractor.instagram_page.
  match goal with
  | |- context [attempt ?c] =>
      destruct (guarded_returns c st) as (v & st' & E & Hc)
  end.
  exists v, st'. split; [exact E|].
  destruct Hc as [H|[-> (e & H)]]; revert H; unfold bind, ask;
    destruct (http_get (JStr url) (Some ContentExtractor.iphone_webkit)
                (world st)) as [[e0|[code html]] w'];
    try (intros H; discriminate H).
  - cbn [fst snd]. unfold ret. intros H. injection H as <- _.
    split; [|split].
    + right. eexists. split; [reflexivity|].
      cbn [Dict.get]. unfold Dict.has. cbn [Dict.get]. literal_keys.
      repeat split; reflexivity.
    + intros d Hd. injection Hd as <-.
      cbn [Dict.get]. literal_keys. reflexivity.
    + intros code0 html0 w0 _. eexists. split; [reflexivity|].
      cbn [Dict.get]. literal_keys. reflexivity.
  - intros _. split; [now left|]. split; [discriminate|].
    intros code html w0 H. discriminate H.
Qed.

Lemma extract_instagram_spec (url : str) (st : state W) :
  exists v st',
    ContentExtractor.extract_instagram json_loads run_ytdlp http_get
      find_meta url st = (inr v, st') /\
    ContentExtractor.content_record_of "instagram" v /\
    (forall d, v = JDict d ->
               Dict.get "transcript"%string d = Some JNull) /\
    (forall e w1 code html w2,
        run_ytdlp url (world st) = (inl e, w1) ->
        http_get (JStr url) (Some ContentExtractor.iphone_webkit) w1
        = (inr (code, html), w2) ->
        exists d,
          v = JDict d /\
          Dict.get "creator"%string d
          = Some (JStr (extract_creator_from_url url))).
Proof.
  unfold ContentExtractor.extract_instagram. unfold bind at 1.
  unfold attempt.
  destruct (ContentExtractor.instagram_record json_loads run_ytdlp url st)
    as [[e|[record|]] st1] eqn:Er.
  - destruct (instagram_page_spec url st1) as (v & st' & E & Hr & Ht & Hp).
    exists v, st'. split; [exact E|]. split; [exact Hr|].
    split; [exact Ht|].
    intros e0 w1 code html w2 Hy Hg.
    revert Er. unfold ContentExtractor.instagram_record, bind, ask.
    rewrite Hy. intros Er. injection Er as _ <-.
    apply (Hp code html w2). exact Hg.
  - destruct (instagram_record_shape _ _ _ _ Er) as (d & -> & Hr & Ht).
    eexists; eexists. split; [reflexivity|]. split; [exact Hr|]. split.
    + intros d0 Hd. injection Hd as <-. exact Ht.
    + intros e0 w1 code html w2 Hy _.
      revert Er. unfold ContentExtractor.instagram_record, bind, ask.
      rewrite Hy. intros Er. discriminate Er.
  - destruct (instagram_page_spec url st1) as (v & st' & E & Hr & Ht & Hp).
    exists v, st'. split; [exact E|]. split; [exact Hr|].
    split; [exact Ht|].
    intros e0 w1 code html w2 Hy _.
    revert Er. unfold ContentExtractor.instagram_record, bind, ask.
    rewrite Hy. intros Er. discriminate Er.
Qed.

(** X20. [extract_instagram] never raises.  It returns [None] or a record
    of the platform 'instagram' with a title, a description and a
    creator, and its transcript is always [None].  When yt-dlp raises,
    the page of the post is requested, and whenever that request is
    answered, with any status code, a record is returned, whose creator
    is the one read off the URL. *)
Theorem extract_instagram_record (url : str) (st : state W) :
  exists v st',
    ContentExtractor.extract_instagram json_loads run_ytdlp http_get
      find_meta url st = (inr v, st') /\
    ContentExtractor.content_record_of "instagram" v /\
    (forall d, v = JDict d ->
               Dict.get "transcript"%string d = Some JNull) /\
    (forall e w1 code html w2,
        run_ytdlp url (world st) = (inl e, w1) ->
        http_get (JStr url) (Some ContentExtractor.iphone_webkit) w1
        = (inr (code, html), w2) ->
        exists d,
          v = JDict d /\
          Dict.get "creator"%string d
          = Some (JStr (extract_creator_from_url url))).
Proof. apply extract_instagram_spec. Qed.

Lemma video_object_shape (script : option str) (record : json) :
  ContentExtractor.video_object json_loads script = inr (Some record) ->
  exists d,
    record = JDict d /\
    ContentExtractor.content_record_of "tiktok" record /\
    Dict.get "transcript"%string d = Some JNull.
Proof.
  unfold ContentExtractor.video_object.
  destruct script as [text|]; [|intros H; discriminate H].
  destruct (ContentExtractor.loads json_loads text) as [e|data];
    cbn [rbind]; [intros H; discriminate H|].
  destruct data as [| b | n | lit | s | l | dd];
    try (intros H; discriminate H).
  cbn [py_get]. unfold ok at 1. cbn [rbind].
  destruct (py_eq_str _ _); [|intros H; discriminate H].
  unfold ok at 1. cbn [rbind]. unfold ok at 1. cbn [rbind].
  unfold ok at 1. cbn [rbind].
  destruct (py_get _ "name"%string (JStr [])) as [e|creator_name];
    cbn [rbind]; [intros H; discriminate H|].
  unfold ok. intros H. injection H as <-.
  eexists. split; [reflexivity|]. split.
  - right. eexists. split; [reflexivity|].
    cbn [Dict.get]. unfold Dict.has. cbn [Dict.get]. literal_keys.
    repeat split; reflexivity.
  - cbn [Dict.get]. literal_keys. reflexivity.
Qed.

Lemma first_video_object_shape (scripts : list (option str))
    (record : json) :
  ContentExtractor.first_video_object json_loads scripts = Some record ->
  exists d,
    record = JDict d /\
    ContentExtractor.content_record_of "tiktok" record /\
    Dict.get "transcript"%string d = Some JNull.
Proof.
  induction scripts as [|script rest IH];
    cbn [ContentExtractor.first_video_object]; [discriminate|].
  destruct (ContentExtractor.video_object json_loads script)
    as [e|[r|]] eqn:E; try exact IH.
  intros H. injection H as <-. now apply (video_object_shape script).
Qed.

Lemma extract_tiktok_fallback_spec (url : str) (st : state W) :
  exists v st',
    ContentExtractor.extract_tiktok_fallback json_loads http_get
      ld_json_scripts find_meta url st = (inr v, st') /\
    ContentExtractor.content_record_of "tiktok" v /\
    (forall d, v = JDict d ->
               Dict.get "transcript"%string d = Some JNull).
Proof.
  unfold ContentExtractor.extract_tiktok_fallback.
  match goal with
  | |- context [attempt ?c] =>
      destruct (guarded_returns c st) as (v & st' & E & Hc)
  end.
  exists v, st'. split; [exact E|].
  destruct Hc as [H|[-> _]]; [|split; [now left|discriminate]].
  revert H. unfold bind, ask.
  destruct (http_get (JStr url) (Some ContentExtractor.iphone_safari)
              (world st)) as [[e0|[code html]] w'];
    [intros H; discriminate H|].
  cbn [fst snd]. destruct (code =? 200)%Z; cbn [negb].
  2:{ unfold ret. intros H. injection H as <- _.
      split; [now left|discriminate]. }
  cbv zeta.
  destruct (ContentExtractor.first_video_object json_loads
              (ld_json_scripts html)) as [record|] eqn:Ev.
  - unfold ret. intros H. injection H as <- _.
    destruct (first_video_object_shape _ _ Ev) as (d & -> & Hr & Ht).
    split; [exact Hr|]. intros d0 Hd. injection Hd as <-. exact Ht.
  - unfold ret. intros H. injection H as <- _. split.
    + right. eexists. split; [reflexivity|].
      cbn [Dict.get]. unfold Dict.has. cbn [Dict.get]. literal_keys.
      repeat split; reflexivity.
    + intros d Hd. injection Hd as <-.
      cbn [Dict.get]. literal_keys. reflexivity.
Qed.

Lemma tiktok_record_shape (stdout : str) (st st' : state W) (v : json) :
  ContentExtractor.tiktok_record float_truthy json_loads http_get stdout st
  = (inr v, st') ->
  exists d t,
    v = JDict d /\
    ContentExtractor.content_record_of "tiktok" v /\
    Dict.get "transcript"%string d = Some t /\
    ContentExtractor.transcript_ok t.
Proof.
  unfold ContentExtractor.tiktok_record.
  unfold bind at 1. unfold lift at 1.
  destruct (ContentExtractor.loads json_loads stdout) as [e|data];
    [intros H; discriminate H|].
  destruct data as [| b | n | lit | s | l | dd];
    try (intros H; discriminate H).
  cbn [py_get]. unfold ok. cbn [rbind].
  unfold bind at 1. unfold lift at 1.
  unfold bind at 1.
  match goal with
  | |- context [if ?b then ?c1 else ?c2] =>
      assert (Ht : forall t st1,
                 (if b then c1 else c2) st = (inr t, st1) ->
                 ContentExtractor.transcript_ok t);
      [|destruct ((if b then c1 else c2) st) as [[e|t] st1];
        [intros H; discriminate H|]]
  end.
  { intros t st1. destruct (ContentExtractor.truthy _ _).
    - unfold bind at 1. unfold lift at 1.
      destruct (py_getitem (JDict dd) "subtitles"%string) as [e|subs];
        [intros H; discriminate H|].
      apply transcript_of_ok.
    - unfold ret. intros H. injection H as <- _. now left. }
  unfold lift. intros H. injection H as <- _.
  eexists; exists t. split; [reflexivity|]. split.
  - right. eexists. split; [reflexivity|].
    cbn [Dict.get]. unfold Dict.has. cbn [Dict.get]. literal_keys.
    repeat split; reflexivity.
  - split; [|exact (Ht t st1 eq_refl)].
    cbn [Dict.get]. literal_keys. reflexivity.
Qed.

Lemma extract_tiktok_spec (url : str) (st : state W) :
  exists v st',
    ContentExtractor.extract_tiktok float_truthy json_loads run_ytdlp
      http_get ld_json_scripts find_meta url st = (inr v, st') /\
    ContentExtractor.content_record_of "tiktok" v /\
    (forall d, v = JDict d ->
               exists t, Dict.get "transcript"%string d = Some t /\
                         ContentExtractor.transcript_ok t).
Proof.
  assert (Hfb : forall st0,
             exists v st',
               ContentExtractor.extract_tiktok_fallback json_loads http_get
                 ld_json_scripts find_meta url st0 = (inr v, st') /\
               ContentExtractor.content_record_of "tiktok" v /\
               (forall d, v = JDict d ->
                          exists t,
                            Dict.get "transcript"%string d = Some t /\
                            ContentExtractor.transcript_ok t)).
  { intros st0.
    destruct (extract_tiktok_fallback_spec url st0)
      as (v & st' & E & Hr & Ht).
    exists v, st'. split; [exact E|]. split; [exact Hr|].
    intros d Hd. exists JNull. split; [now apply Ht|now left]. }
  unfold ContentExtractor.extract_tiktok. unfold bind at 1. unfold attempt.
  unfold bind at 1. unfold ask.
  destruct (run_ytdlp url (world st)) as [[e|[code out]] w'].
  { apply Hfb. }
  cbn [fst snd]. destruct (code =? 0)%Z; cbn [negb].
  - destruct (ContentExtractor.tiktok_record float_truthy json_loads
                http_get out (mkState w' (trace st)))
      as [[e|v] st1] eqn:Er.
    + apply Hfb.
    + destruct (tiktok_record_shape _ _ _ _ Er) as (d & t & -> & Hr & Hg & Ht).
      eexists; eexists. split; [reflexivity|]. split; [exact Hr|].
      intros d0 Hd. injection Hd as <-. now exists t.
  - destruct (Hfb (mkState w' (trace st))) as (v & st' & E & Hr & Ht).
    rewrite E. exists v, st'. split; [reflexivity|]. now split.
Qed.

(** X21. [extract_tiktok] never raises, whatever yt-dlp and the page
    request do: it returns [None] or a record of the platform 'tiktok'
    with a title, a description and a creator, whose transcript is [None]
    or a text on one line. *)
Theorem extract_tiktok_record (url : str) (st : state W) :
  exists v st',
    ContentExtractor.extract_tiktok float_truthy json_loads run_ytdlp
      http_get ld_json_scripts find_meta url st = (inr v, st') /\
    ContentExtractor.content_record_of "tiktok" v /\
    (forall d, v = JDict d ->
               exists t, Dict.get "transcript"%string d = Some t /\
                         ContentExtractor.transcript_ok t).
Proof. apply extract_tiktok_spec. Qed.

End ExtractorProperties.

(* ===================================================================== *)
(** * The endpoint with the extractors of content_extractor.py *)
(* ===================================================================== *)

Section EndpointWithExtractors.

Variable W : Type.
Variable py_str : json -> str.
Variable float_truthy : str -> bool.
Variable float_int_value : str -> option Z.
Variable json_loads : str -> option json.
Variable getenv : str -> option str.
Variable GOOGLE_PLACES_API_KEY : option str.
Variable chat_completions_create : prompt -> W -> res (option str) * W.
Variable places_textsearch : str -> option str -> W -> res json * W.
Variable places_details : json -> W -> res json * W.
Variable run_ytdlp : str -> W -> res (Z * str) * W.
Variable http_get : json -> option str -> W -> res (Z * str) * W.
Variable ld_json_scripts : str -> list (option str).
Variable find_meta : str -> str -> str -> option (option str).

Lemma content_record_truthy (platform : string) (v : json) :
  ContentExtractor.content_record_of platform v ->
  v = JNull \/
  exists d,
    v = JDict d /\
    Dict.get "platform"%string d
    = Some (JStr (list_ascii_of_string platform)) /\
    py_truthy float_truthy v = true.
Proof.
  intros [->|(d & -> & Hp & _)]; [now left|].
  right. exists d. split; [reflexivity|]. split; [exact Hp|].
  destruct d; [discriminate Hp|reflexivity].
Qed.

Lemma resolver_returns (u : str) (st : state W) :
  exists v st',
    extract_content_from_url
      (ContentExtractor.extract_tiktok float_truthy json_loads run_ytdlp
         http_get ld_json_scripts find_meta)
      (ContentExtractor.extract_instagram json_loads run_ytdlp http_get
         find_meta)
      (ContentExtractor.extract_youtube float_truthy json_loads run_ytdlp
         http_get)
      u st = (inr v, st') /\
    (v = JNull \/
     exists p d,
       spec_classify u = Some p /\
       v = JDict d /\
       Dict.get "platform"%string d
       = Some (JStr (list_ascii_of_string (platform_name p))) /\
       py_truthy float_truthy v = true).
Proof.
  unfold extract_content_from_url, spec_classify, platform_order.
  unfold find, platform_matches, platform_domains, existsb.
  rewrite !orb_false_r.
  destruct (contains "tiktok.com"%string (lower u)
            || contains "vm.tiktok.com"%string (lower u)).
  { destruct (extract_tiktok_spec W float_truthy json_loads run_ytdlp
                http_get ld_json_scripts find_meta u st)
      as (v & st' & E & Hr & _).
    exists v, st'. split; [exact E|].
    destruct (content_record_truthy _ _ Hr) as [->|(d & -> & Hp & Ht)];
      [now left|].
    right. now exists ShortVideo, d. }
  destruct (contains "instagram.com"%string (lower u)).
  { destruct (extract_instagram_spec W json_loads run_ytdlp http_get
                find_meta u st) as (v & st' & E & Hr & _).
    exists v, st'. split; [exact E|].
    destruct (content_record_truthy _ _ Hr) as [->|(d & -> & Hp & Ht)];
      [now left|].
    right. now exists SecondPlatform, d. }
  destruct (contains "youtube.com"%string (lower u)
            || contains "youtu.be"%string (lower u)).
  { destruct (extract_youtube_spec W float_truthy json_loads run_ytdlp
                http_get u st) as (v & st' & E & Hr & _).
    exists v, st'. split; [exact E|].
    destruct (content_record_truthy _ _ Hr) as [->|(d & -> & Hp & Ht)];
      [now left|].
    right. now exists LongVideo, d. }
  exists JNull, st. split; [reflexivity|now left].
Qed.

(** X22. With the three extractors of content_extractor.py the resolver
    never raises, and what it returns for a URL is [None] or a record
    that is not empty and whose platform is the one the URL is classified
    under: a URL that names two platforms yields a record of the first
    of the order. *)
Theorem extract_content_from_url_record (u : str) (st : state W) :
  exists v st',
    extract_content_from_url
      (ContentExtractor.extract_tiktok float_truthy json_loads run_ytdlp
         http_get ld_json_scripts find_meta)
      (ContentExtractor.extract_instagram json_loads run_ytdlp http_get
         find_meta)
      (ContentExtractor.extract_youtube float_truthy json_loads run_ytdlp
         http_get)
      u st = (inr v, st') /\
    (v = JNull \/
     exists p d,
       spec_classify u = Some p /\
       v = JDict d /\
       Dict.get "platform"%string d
       = Some (JStr (list_ascii_of_string (platform_name p))) /\
       py_truthy float_truthy v = true).
Proof. apply resolver_returns. Qed.

(** X23. With the three extractors of content_extractor.py, every request
    to the endpoint of main.py ends in one of two ways: an itinerary that
    is a dict and carries the URL of the request under 'source_url', or
    an HTTPException whose status is 400, 422 or 500.  No other exception
    leaves the endpoint. *)
Theorem extract_itinerary_outcomes (request : TripRequest) (st : state W) :
  let outcome :=
    fst (extract_itinerary py_str float_truthy float_int_value json_loads
           getenv GOOGLE_PLACES_API_KEY chat_completions_create
           places_textsearch places_details
           (ContentExtractor.extract_tiktok float_truthy json_loads
              run_ytdlp http_get ld_json_scripts find_meta)
           (ContentExtractor.extract_instagram json_loads run_ytdlp
              http_get find_meta)
           (ContentExtractor.extract_youtube float_truthy json_loads
              run_ytdlp http_get)
           request st) in
  (exists itinerary,
     outcome = inr itinerary /\
     is_dict itinerary = true /\
     get_field "source_url"%string itinerary = Some (JStr (url request))) \/
  (exists status detail cause,
     outcome = inl (HTTPException status detail cause) /\
     (status = 400 \/ status = 422 \/ status = 500)%Z).
Proof.
  cbv zeta.
  match goal with
  | |- context [fst ?run] => destruct (fst run) as [e|itinerary] eqn:E
  end.
  - right.
    assert (Hx : forall st0 e0,
               fst (extract_content_from_url
                      (ContentExtractor.extract_tiktok float_truthy
                         json_loads run_ytdlp http_get ld_json_scripts
                         find_meta)
                      (ContentExtractor.extract_instagram json_loads
                         run_ytdlp http_get find_meta)
                      (ContentExtractor.extract_youtube float_truthy
                         json_loads run_ytdlp http_get)
                      (url request) st0) = inl e0 ->
               is_HTTPException e0 = false).
    { intros st0 e0 H.
      destruct (resolver_returns (url request) st0) as (v & st' & Hv & _).
      rewrite Hv in H. discriminate H. }
    destruct (extract_itinerary_failures _ _ _ _ _ _ _ _ _ _ _ _ _ _ _ _
                Hx E)
      as [(_ & -> & _)|(_ & [(-> & _)|[->|(cause & -> & _)]])];
      eexists; eexists; eexists; (split; [reflexivity|]); auto.
  - left. exists itinerary. split; [reflexivity|].
    destruct (extract_itinerary_result _ _ _ _ _ _ _ _ _ _ _ _ _ _ _ _ E)
      as (_ & _ & Hd & Hs).
    now split.
Qed.

End EndpointWithExtractors.

(* ===================================================================== *)
(** * Further runs on concrete inputs *)
(* ===================================================================== *)

(** The enrichment of the sample itinerary keeps its destination. *)
Lemma enrich_locations_frame_witness :
  get_field "destination"%string
    match fst (enrich_locations Sample.str_of_value Sample.float_truthy
                 Sample.float_int_value Sample.places_key
                 Sample.textsearch Sample.details
                 Sample.itinerary (mkState 0 [])) with
    | inr itinerary' => itinerary'
    | inl _ => JNull
    end
  = get_field "destination"%string Sample.itinerary.
Proof.
  apply (enrich_locations_frame nat Sample.str_of_value Sample.float_truthy
           Sample.float_int_value Sample.places_key
           Sample.textsearch Sample.details
           Sample.itinerary _ (mkState 0 [])).
  - vm_compute. reflexivity.
  - discriminate.
Defined.

(** The object of the sample response comes back with the two stamps. *)
Lemma generate_itinerary_stamps_witness :
  exists cd rd,
    Sample.content_record = JDict cd /\
    match fst (generate_itinerary Sample.str_of_value Sample.float_truthy
                 JsonDecoder.loads (Sample.chat_says Sample.object_text)
                 Sample.content_record Sample.source None None
                 (mkState tt [])) with
    | inr r => r
    | inl _ => JNull
    end = JDict rd /\
    Dict.get "source_url"%string rd = Some (JStr Sample.source) /\
    Dict.get "source_creator"%string rd = Some (creator_of cd).
Proof.
  apply (generate_itinerary_stamps unit Sample.str_of_value
           Sample.float_truthy JsonDecoder.loads
           (Sample.chat_says Sample.object_text)
           Sample.content_record Sample.source None None (mkState tt [])).
  vm_compute. reflexivity.
Defined.


(** A request that goes through is answered with an itinerary bearing
    its URL. *)
Lemma extract_itinerary_source_url_witness :
  get_field "source_url"%string
    match fst (extract_itinerary Sample.str_of_value Sample.float_truthy
                 Sample.float_int_value JsonDecoder.loads Sample.getenv None
                 (Sample.chat_says Sample.object_text)
                 Sample.no_textsearch Sample.no_details
                 Sample.found_content Sample.found_content
                 Sample.found_content
                 (mkTripRequest Sample.source None None) (mkState tt [])) with
    | inr itinerary => itinerary
    | inl _ => JNull
    end
  = Some (JStr Sample.source).
Proof.
  apply (extract_itinerary_source_url unit Sample.str_of_value
           Sample.float_truthy Sample.float_int_value JsonDecoder.loads
           Sample.getenv None (Sample.chat_says Sample.object_text)
           Sample.no_textsearch Sample.no_details
           Sample.found_content Sample.found_content Sample.found_content
           (mkTripRequest Sample.source None None) (mkState tt [])).
  vm_compute. reflexivity.
Defined.
